(** * Activity assembly and key binding of the conversation and team plugins

    A shallow embedding of
      - packages/plugin-conversation/src/conversation.js
      - packages/plugin-team/src/index.js (the [encryptTeam] transform)
    together with the properties of the specification that concern them.

    JavaScript data is embedded as a small universe of JSON-like values.
    Objects are association lists in insertion order, which is the order
    in which JavaScript enumerates string keys.  Promises are embedded as
    computations in a state-and-error monad: the state is the state of the
    external collaborators plus a log of the calls made to them, a failure
    is a rejection.

    Boundaries of the model, once and for all:
      - numbers are integers;
      - values are trees: two references to one object are two values,
        and a function that mutates an argument returns the new value;
      - arrays have no named properties and objects no prototype;
      - [Promise.all] starts its promises in list order;
      - an exception thrown before a promise exists and the rejection of a
        promise are one outcome. *)

From Stdlib Require Import ZArith List String Ascii Bool Lia DecimalString.
From Stdlib Require Import Sorted.
Import ListNotations.

Set Warnings "-register-all".

Local Open Scope string_scope.
Local Open Scope Z_scope.

(* ================================================================== *)
(** * JavaScript values *)

Module Js.

Inductive value : Type :=
| VUndef
| VNull
| VBool (b : bool)
| VNum (n : Z)
| VStr (s : string)
| VArr (items : list value)
| VObj (fields : list (string * value)).

(** An object: its own enumerable string-keyed properties. *)
Definition obj : Type := list (string * value).

(** ToBoolean. *)
Definition truthy (v : value) : bool :=
  match v with
  | VUndef | VNull => false
  | VBool b => b
  | VNum n => negb (n =? 0)
  | VStr s => negb (s =? "")%string
  | VArr _ | VObj _ => true
  end.

(** [a || b]. *)
Definition or_else (a b : value) : value := if truthy a then a else b.

Definition isString (v : value) : bool :=
  match v with VStr _ => true | _ => false end.

Definition isArray (v : value) : bool :=
  match v with VArr _ => true | _ => false end.

(** lodash [isObject]: arrays and objects. *)
Definition isObject (v : value) : bool :=
  match v with VArr _ | VObj _ => true | _ => false end.

(** [v === "lit"] for a string literal. *)
Definition is_str (v : value) (lit : string) : bool :=
  match v with VStr s => (s =? lit)%string | _ => false end.

(** [v === n] for a number literal. *)
Definition is_num (v : value) (n : Z) : bool :=
  match v with VNum m => m =? n | _ => false end.

(** SameValueZero on primitives; two object references are the same only
    when they are one object, which trees do not record: they compare
    as different. *)
Definition same_value_zero (a b : value) : bool :=
  match a, b with
  | VUndef, VUndef | VNull, VNull => true
  | VBool x, VBool y => Bool.eqb x y
  | VNum x, VNum y => x =? y
  | VStr x, VStr y => (x =? y)%string
  | _, _ => false
  end.

(** ** Own properties of objects *)

Fixpoint field (o : obj) (k : string) : value :=
  match o with
  | [] => VUndef
  | (k', v) :: o' => if (k' =? k)%string then v else field o' k
  end.

Fixpoint has_key (o : obj) (k : string) : bool :=
  match o with
  | [] => false
  | (k', _) :: o' => (k' =? k)%string || has_key o' k
  end.

(** [o[k] = v]: an existing key keeps its place, a new one goes last. *)
Fixpoint set_field (o : obj) (k : string) (v : value) : obj :=
  match o with
  | [] => [(k, v)]
  | (k', v') :: o' =>
      if (k' =? k)%string then (k, v) :: o' else (k', v') :: set_field o' k v
  end.

Definition remove_keys (o : obj) (ks : list string) : obj :=
  filter (fun kv => negb (existsb (String.eqb (fst kv)) ks)) o.

(** ** Index keys *)

Definition key_of_index (i : nat) : string :=
  NilZero.string_of_uint (Nat.to_uint i).

Definition index_of_key (k : string) : option nat :=
  match NilZero.uint_of_string k with
  | Some u =>
      let i := Nat.of_uint u in
      if (key_of_index i =? k)%string then Some i else None
  | None => None
  end.

Definition char_at (s : string) (i : nat) : value :=
  match String.get i s with
  | Some c => VStr (String c EmptyString)
  | None => VUndef
  end.

Fixpoint indexed {A} (i : nat) (l : list A) : list (string * A) :=
  match l with
  | [] => []
  | x :: l' => (key_of_index i, x) :: indexed (S i) l'
  end.

Fixpoint chars (s : string) : list value :=
  match s with
  | EmptyString => []
  | String c s' => VStr (String c EmptyString) :: chars s'
  end.

(** The own enumerable properties that [Object.assign] and lodash's
    [keysIn] enumerate. *)
Definition own_props (v : value) : obj :=
  match v with
  | VObj o => o
  | VArr l => indexed 0 l
  | VStr s => indexed 0 (chars s)
  | _ => []
  end.

(** [v[k]] for a [v] that is neither [undefined] nor [null]. *)
Definition prop (v : value) (k : string) : value :=
  match v with
  | VObj o => field o k
  | VArr l =>
      if (k =? "length")%string then VNum (Z.of_nat (List.length l))
      else match index_of_key k with
           | Some i => nth i l VUndef
           | None => VUndef
           end
  | VStr s =>
      if (k =? "length")%string then VNum (Z.of_nat (String.length s))
      else match index_of_key k with
           | Some i => char_at s i
           | None => VUndef
           end
  | _ => VUndef
  end.

(** [k in Object(v)], own properties only. *)
Definition has_prop (v : value) (k : string) : bool :=
  match v with
  | VObj o => has_key o k
  | VArr l =>
      (k =? "length")%string ||
      match index_of_key k with
      | Some i => (i <? List.length l)%nat
      | None => false
      end
  | VStr s =>
      (k =? "length")%string ||
      match index_of_key k with
      | Some i => (i <? String.length s)%nat
      | None => false
      end
  | _ => false
  end.

(** [v[i]] for an array index. *)
Definition at_index (v : value) (i : nat) : value :=
  match v with
  | VArr l => nth i l VUndef
  | VStr s => char_at s i
  | VObj o => field o (key_of_index i)
  | _ => VUndef
  end.

Definition nullish (v : value) : bool :=
  match v with VUndef | VNull => true | _ => false end.

(** ** Conversions *)

Definition Z_to_string (n : Z) : string := NilZero.string_of_int (Z.to_int n).

(** ToString, as a template literal applies it. *)
Fixpoint to_string (v : value) : string :=
  match v with
  | VUndef => "undefined"
  | VNull => "null"
  | VBool true => "true"
  | VBool false => "false"
  | VNum n => Z_to_string n
  | VStr s => s
  | VArr l =>
      String.concat ","
        ((fix each (l : list value) : list string :=
            match l with
            | [] => []
            | x :: l' => (if nullish x then "" else to_string x) :: each l'
            end) l)
  | VObj _ => "[object Object]"
  end.

(** StringToNumber on the decimal integer literals; any other string is
    NaN, here [None]. *)
Definition number_of_string (s : string) : option Z :=
  if (s =? "")%string then Some 0
  else match NilZero.int_of_string s with
       | Some d => Some (Z.of_int d)
       | None => None
       end.

(** ToNumber on primitives ([None] is NaN); the ToPrimitive conversion of
    objects is left out: they count as NaN. *)
Definition to_number (v : value) : option Z :=
  match v with
  | VUndef => None
  | VNull => Some 0
  | VBool b => Some (if b then 1 else 0)
  | VNum n => Some n
  | VStr s => number_of_string s
  | VArr _ | VObj _ => None
  end.

(** [a < b]: two strings compare by code units, anything else as numbers,
    and a comparison with NaN is false. *)
Definition lt (a b : value) : bool :=
  match a, b with
  | VStr x, VStr y => String.ltb x y
  | _, _ =>
      match to_number a, to_number b with
      | Some x, Some y => x <? y
      | _, _ => false
      end
  end.

(** [a > b]. *)
Definition gt (a b : value) : bool := lt b a.

(** [s.split("/").pop()]. *)
Fixpoint split_on (sep : ascii) (s : string) (cur : string) : list string :=
  match s with
  | EmptyString => [cur]
  | String c s' =>
      if Ascii.eqb c sep then cur :: split_on sep s' ""
      else split_on sep s' (cur ++ String c EmptyString)
  end.

Definition last_segment (s : string) : string :=
  List.last (split_on "/"%char s "") "".

End Js.

(* ================================================================== *)
(** * The lodash functions the plugins import *)

Module Lodash.
Import Js.

(** [pick(v, ...keys)]: the named properties that [v] has, in the order
    in which they are named. *)
Definition pick (v : value) (keys : list string) : obj :=
  flat_map (fun k => if has_prop v k then [(k, prop v k)] else []) keys.

(** [omit(v, ...keys)]. *)
Definition omit (v : value) (keys : list string) : obj :=
  remove_keys (own_props v) keys.

(** [defaults(o, src)]: every property of [src] is assigned where [o]
    resolves to [undefined]. *)
Definition defaults (o : obj) (src : value) : obj :=
  fold_left
    (fun o kv =>
       match field o (fst kv) with
       | VUndef => set_field o (fst kv) (snd kv)
       | _ => o
       end)
    (own_props src) o.

(** [defaults(v, src)] where [v] is any value: a primitive is boxed and
    the box is dropped; an array keeps no named property. *)
Definition defaults_value (v src : value) : value :=
  match v with
  | VObj o => VObj (defaults o src)
  | _ => v
  end.

(** [Object.assign(o, src)]. *)
Definition assign (o : obj) (src : value) : obj :=
  fold_left (fun o kv => set_field o (fst kv) (snd kv)) (own_props src) o.

(** The value that [merge] leaves at a key whose source value [sv] is an
    object or an array, when the destination holds [ov] there: the
    destination's own value if it is an object, else a fresh container,
    with [sv] merged into it key by key.  A primitive source value is
    assigned, except that [undefined] never replaces anything.  An array
    that is the destination of an object keeps no named property: it
    stays as it is. *)
Fixpoint merge_deep (ov sv : value) {struct sv} : value :=
  match sv with
  | VObj sf =>
      match (if isObject ov then ov else VObj []) with
      | VObj o =>
          VObj
            ((fix each (sf : list (string * value)) (o : obj) : obj :=
                match sf with
                | [] => o
                | (k, v) :: sf' =>
                    each sf'
                      (match v with
                       | VObj _ | VArr _ =>
                           set_field o k (merge_deep (field o k) v)
                       | VUndef =>
                           if has_key o k then o else set_field o k VUndef
                       | _ => set_field o k v
                       end)
                end) sf o)
      | other => other
      end
  | VArr sl =>
      VArr
        ((fix each (sl : list value) (base : list value) : list value :=
            match sl with
            | [] => base
            | v :: sl' =>
                let b := match base with [] => VUndef | b :: _ => b end in
                (match v with
                 | VObj _ | VArr _ => merge_deep b v
                 | VUndef => b
                 | _ => v
                 end) :: each sl' (tl base)
            end) sl (match ov with VArr l => l | _ => [] end))
  | _ => sv
  end.

(** [merge(o, {k: src})] for a plain object [src]. *)
Definition merge_at (o : obj) (k : string) (src : obj) : obj :=
  set_field o k (merge_deep (field o k) (VObj src)).

(** [map(collection, key)]: the property of every element; an element
    that is [null] or [undefined] gives [undefined]. *)
Definition map_prop (collection : value) (k : string) : list value :=
  let get := fun x => if nullish x then VUndef else prop x k in
  match collection with
  | VArr l => map get l
  | VObj o => map (fun kv => get (snd kv)) o
  | VStr s => map get (chars s)
  | _ => []
  end.

(** [last(array)]. *)
Definition last (array : value) : value :=
  match array with
  | VArr l => List.last l VUndef
  | VStr s => List.last (chars s) VUndef
  | _ => VUndef
  end.

(** [uniq(array)]: the first occurrence of every element, in order. *)
Fixpoint uniq_from (seen l : list value) : list value :=
  match l with
  | [] => []
  | x :: l' =>
      if existsb (same_value_zero x) seen then uniq_from seen l'
      else x :: uniq_from (x :: seen) l'
  end.

Definition uniq (l : list value) : list value := uniq_from [] l.

End Lodash.

(* ================================================================== *)
(** * querystring: [stringify] *)

Module Querystring.
Import Js.

(** The characters that [escape] keeps: letters, digits and
    [- _ . ! ~ * ' ( )]. *)
Definition unreserved (c : ascii) : bool :=
  let n := nat_of_ascii c in
  ((65 <=? n) && (n <=? 90) || (97 <=? n) && (n <=? 122)
   || (48 <=? n) && (n <=? 57)
   || existsb (Nat.eqb n) [45; 95; 46; 33; 126; 42; 39; 40; 41])%nat.

Definition hex_digit (n : nat) : ascii :=
  ascii_of_nat (if (n <? 10)%nat then 48 + n else 55 + n).

(** [escape(s)]: every other byte becomes [%XX]. *)
Fixpoint escape (s : string) : string :=
  match s with
  | EmptyString => EmptyString
  | String c s' =>
      if unreserved c then String c (escape s')
      else
        let n := nat_of_ascii c in
        String "%"%char
          (String (hex_digit (n / 16)) (String (hex_digit (n mod 16)) (escape s')))
  end.

(** The text of a primitive; anything else gives the empty string. *)
Definition stringifyPrimitive (v : value) : string :=
  match v with
  | VStr s => s
  | VNum n => Z_to_string n
  | VBool true => "true"
  | VBool false => "false"
  | _ => ""
  end.

(** [stringify({k: v})]: an array gives one pair for each element. *)
Definition stringify1 (k : string) (v : value) : string :=
  let pair := fun x => escape k ++ "=" ++ escape (stringifyPrimitive x) in
  match v with
  | VArr l => String.concat "&" (map pair l)
  | _ => pair v
  end.

End Querystring.

(* ================================================================== *)
(** * Promises: state, log and rejection *)

Module Promise.
Import Js.

(** A settled promise: fulfilled with a value or rejected with a reason.
    Reasons are error objects. *)
Inductive Res (A : Type) : Type :=
| Ok (a : A)
| Err (reason : obj).
Arguments Ok {A} a.
Arguments Err {A} reason.

Definition Error (msg : string) : obj :=
  [("name", VStr "Error"); ("message", VStr msg)].

Definition TypeError (msg : string) : obj :=
  [("name", VStr "TypeError"); ("message", VStr msg)].

(** The calls that leave the plugin. *)
Inductive event : Type :=
| Request (params : obj)
| Trigger (name : string)
| GetServiceUrl (service : string)
| AsUUID (who options : value)
| RecordUUID (participant : value)
| CreateUnboundKeys (options : obj)
| UuidV4
| Warn (msg : string)
| ShareAdd (conversation file : value)
| Hook (params : value)
| Transform (name : string) (args : list value).

Record St (W : Type) : Type := mkSt { world : W; log : list event }.
Arguments mkSt {W} world log.
Arguments world {W} s.
Arguments log {W} s.

Definition M (W A : Type) : Type := St W -> Res A * St W.

Definition ret {W A} (a : A) : M W A := fun s => (Ok a, s).

Definition reject {W A} (r : obj) : M W A := fun s => (Err r, s).

Definition bind {W A B} (m : M W A) (f : A -> M W B) : M W B :=
  fun s =>
    match m s with
    | (Ok a, s') => f a s'
    | (Err r, s') => (Err r, s')
    end.

(** [m.catch(h)]. *)
Definition catch {W A} (m : M W A) (h : obj -> M W A) : M W A :=
  fun s =>
    match m s with
    | (Ok a, s') => (Ok a, s')
    | (Err r, s') => h r s'
    end.

Definition lift {W A} (r : Res A) : M W A := fun s => (r, s).

(** A call to a collaborator: it is logged, then it acts on the world. *)
Definition call {W A} (e : event) (f : W -> Res A * W) : M W A :=
  fun s =>
    let (r, w) := f (world s) in
    (r, mkSt w (log s ++ [e])).

Definition emit {W} (e : event) : M W unit :=
  fun s => (Ok tt, mkSt (world s) (log s ++ [e])).

(** [Promise.all(l.map(f))].  The callback [f] runs for one element after
    the other: it either throws, and then [map] stops there and its
    exception is the outcome, or it returns a promise, whose calls have
    then been made.  When nothing throws, every promise runs and the
    result is the first rejection, if any. *)
Fixpoint start_all {W A X} (f : X -> Res (M W A)) (l : list X) (s : St W)
    : (obj + Res (list A)) * St W :=
  match l with
  | [] => (inr (Ok []), s)
  | x :: l' =>
      match f x with
      | Err thrown => (inl thrown, s)
      | Ok m =>
          let (ra, s1) := m s in
          match start_all f l' s1 with
          | (inl thrown, s2) => (inl thrown, s2)
          | (inr rest, s2) =>
              (inr match ra, rest with
                   | Ok a, Ok rs => Ok (a :: rs)
                   | Err r, _ => Err r
                   | Ok _, Err r => Err r
                   end, s2)
          end
      end
  end.

Definition all_map {W A X} (f : X -> Res (M W A)) (l : list X) : M W (list A) :=
  fun s =>
    match start_all f l s with
    | (inl thrown, s') => (Err thrown, s')
    | (inr res, s') => (res, s')
    end.

(** A callback of [then] that throws before it returns its promise. *)
Definition join {W A} (r : Res (M W A)) : M W A :=
  match r with
  | Ok m => m
  | Err thrown => reject thrown
  end.

(** [v.k] where [v] may be [undefined] or [null]. *)
Definition member (v : value) (k : string) : Res value :=
  if nullish v
  then Err (TypeError ("Cannot read property '" ++ k ++ "' of " ++ to_string v))
  else Ok (prop v k).

End Promise.

Declare Scope promise_scope.
Delimit Scope promise_scope with promise.
Notation "x <- m ;; k" := (Promise.bind m (fun x => k))
  (at level 61, m at next level, right associativity) : promise_scope.
Notation "m ;;; k" := (Promise.bind m (fun _ => k))
  (at level 61, right associativity) : promise_scope.

(* ================================================================== *)
(** * plugin-conversation: conversation.js *)

Module Conversation.
Import Js Promise.
Local Open Scope promise_scope.

(** The collaborators of the plugin, [this.spark] and the imported
    modules. [W] is their state.  [share_add] and [share_prepare] stand
    for the methods [add] and [prepare] of the ShareActivity built for a
    conversation (./share-activity); [common_tap] is [tap] of
    @ciscospark/common, applied to the promise of the tapped function. *)
Record Spark (W : Type) : Type := {
  request : obj -> W -> Res obj * W;
  device_getServiceUrl : string -> W -> Res value * W;
  device_userId : W -> value;
  user_asUUID : value -> value -> W -> Res value * W;
  user_recordUUID : value -> W -> Res value * W;
  kms_createUnboundKeys : obj -> W -> Res value * W;
  uuid_v4 : W -> string * W;
  production : bool;
  share_add : value -> value -> W -> Res unit * W;
  share_prepare : value -> value -> value -> W -> Res obj * W;
  common_tap : M W unit -> M W unit
}.
Arguments request {W} s.
Arguments device_getServiceUrl {W} s.
Arguments device_userId {W} s.
Arguments user_asUUID {W} s.
Arguments user_recordUUID {W} s.
Arguments kms_createUnboundKeys {W} s.
Arguments uuid_v4 {W} s.
Arguments production {W} s.
Arguments share_add {W} s.
Arguments share_prepare {W} s.
Arguments common_tap {W} s.

(** The [activity] argument of the public methods: nothing, a plain
    object, or an object whose [prepare] method is [hook]. *)
Inductive partial (W : Type) : Type :=
| Absent
| Plain (o : obj)
| Hooked (hook : value -> W -> Res obj * W).
Arguments Absent {W}.
Arguments Plain {W} o.
Arguments Hooked {W} hook.

(** [v.k = x], which only an object keeps. *)
Definition set_prop (v : value) (k : string) (x : value) : value :=
  match v with
  | VObj o => VObj (set_field o k x)
  | _ => v
  end.

(** ** The pure part of [prepare] *)

Definition conversation_fields : list string :=
  ["id"; "url"; "objectType"; "defaultActivityEncryptionKeyUrl";
   "kmsResourceObjectUrl"].

Definition prepareConversation (conversation : value) : obj :=
  Lodash.defaults (Lodash.pick conversation conversation_fields)
    (VObj [("objectType", VStr "conversation")]).

Definition person (id : value) : value :=
  VObj [("objectType", VStr "person"); ("id", id)].

(** Lines 392-398: the defaults of the activity. *)
Definition fill_defaults (act : obj) (params : value) (tempId : string)
    (userId : value) : obj :=
  Lodash.defaults act
    (VObj [("verb", prop params "verb");
           ("kmsMessage", prop params "kmsMessage");
           ("objectType", VStr "activity");
           ("clientTempId", VStr tempId);
           ("actor", userId)]).

(** Lines 400-405. *)
Definition normalize_actor (act : obj) : obj :=
  if isString (field act "actor")
  then set_field act "actor" (person (field act "actor"))
  else act.

(** Lines 407-412, one turn of the loop. *)
Definition default_from_params (params : value) (act : obj) (key : string)
    : obj :=
  if truthy (prop params key)
  then set_field act key
         (Lodash.defaults_value (or_else (field act key) (VObj []))
            (prop params key))
  else act.

Definition target_fields : list string :=
  ["id"; "url"; "objectType"; "kmsResourceObjectUrl";
   "defaultActivityEncryptionKeyUrl"].

(** Lines 414-418. *)
Definition apply_target (params : value) (act : obj) : obj :=
  if truthy (prop params "target")
  then Lodash.merge_at act "target"
         (Lodash.pick (prop params "target") target_fields)
  else act.

(** Lines 420-424, one turn of the loop. *)
Definition derive_id (act : obj) (key : string) : Res obj :=
  let v := field act key in
  if truthy v && truthy (prop v "url") && negb (truthy (prop v "id"))
  then match prop v "url" with
       | VStr url => Ok (set_field act key (set_prop v "id" (VStr (last_segment url))))
       | _ => Err (TypeError ("act[key].url.split is not a function"))
       end
  else Ok act.

Definition normalize (act : obj) (params : value) (tempId : string)
    (userId : value) : Res obj :=
  let act := fill_defaults act params tempId userId in
  let act := normalize_actor act in
  let act := fold_left (default_from_params params) ["actor"; "object"] act in
  let act := apply_target params act in
  match derive_id act "object" with
  | Ok act => derive_id act "target"
  | Err r => Err r
  end.

Definition objectType_error (key : string) : obj :=
  Error ("`act." ++ key ++ ".objectType` must be defined").

(** Lines 426-432: the first of actor, object, target that is populated
    and has no objectType throws. *)
Fixpoint check_objectType (act : obj) (keys : list string) : Res unit :=
  match keys with
  | [] => Ok tt
  | key :: keys' =>
      if truthy (field act key) && negb (truthy (prop (field act key) "objectType"))
      then Err (objectType_error key)
      else check_objectType act keys'
  end.

Definition content_error : obj :=
  Error "Cannot submit activity object with `content` but no `displayName`".

(** Lines 434-438. *)
Definition check_content (act : obj) : Res obj :=
  let o := field act "object" in
  if truthy o && truthy (prop o "content") && negb (truthy (prop o "displayName"))
  then Err content_error
  else Ok act.

Definition validate (act : obj) : Res obj :=
  match check_objectType act ["actor"; "object"; "target"] with
  | Ok _ => check_content act
  | Err r => Err r
  end.

(** ** [expand] *)

Definition expand (userId : value) (verb : string) (object target actor : value)
    : obj :=
  let activity :=
    [("actor", actor); ("objectType", VStr "activity"); ("verb", VStr verb)] in
  let actor := if truthy actor then actor else userId in
  let activity :=
    if isString actor then set_field activity "actor" (person actor)
    else activity in
  let activity :=
    if truthy object then set_field activity "object" object else activity in
  if truthy target then set_field activity "target" target else activity.

(** ** [_updateKey]: the parameters handed to [prepare] *)

Definition updateKey_kmsMessage (conversation k_uri : value) : Res value :=
  match member conversation "defaultActivityEncryptionKeyUrl" with
  | Err r => Err r
  | Ok dk =>
      if truthy dk
      then Ok (VObj [("method", VStr "update");
                     ("resourceUri", VStr "<KRO>");
                     ("uri", k_uri)])
      else
        match member conversation "participants" with
        | Err r => Err r
        | Ok participants =>
            match member participants "items" with
            | Err r => Err r
            | Ok items =>
                Ok (VObj [("method", VStr "create");
                          ("uri", VStr "/resources");
                          ("userIds", VArr (Lodash.map_prop items "id"));
                          ("keyUris", VArr [k_uri])])
            end
        end
  end.

(** Lines 694-722, [keys] being what [key || createUnboundKeys(...)]
    resolved to. *)
Definition updateKey_params (conversation keys : value) : Res obj :=
  let k := if isArray keys then at_index keys 0 else keys in
  match member k "uri" with
  | Err r => Err r
  | Ok k_uri =>
      let params :=
        [("verb", VStr "updateKey");
         ("target", VObj (prepareConversation conversation));
         ("object", VObj [("defaultActivityEncryptionKeyUrl", k_uri);
                          ("objectType", VStr "conversation")])] in
      match updateKey_kmsMessage conversation k_uri with
      | Err r => Err r
      | Ok kmsMessage => Ok (set_field params "kmsMessage" kmsMessage)
      end
  end.

(** ** [submit]: the request descriptor *)

Definition submit_params (activity : obj) : obj :=
  let share := is_str (field activity "verb") "share" in
  let qs := [("personRefresh", VBool true)] in
  let qs :=
    if share
    then Lodash.assign qs
           (VObj [("transcode", VBool true); ("async", VBool false)])
    else qs in
  [("method", VStr "POST");
   ("service", VStr "conversation");
   ("resource", VStr (if share then "content" else "activities"));
   ("body", VObj activity);
   ("qs", VObj qs)].

(** [array.push(x)], returning the array. *)
Definition push (owner : string) (array x : value) : Res value :=
  match array with
  | VArr l => Ok (VArr (l ++ [x]))
  | VUndef | VNull =>
      Err (TypeError ("Cannot read property 'push' of " ++ to_string array))
  | _ => Err (TypeError (owner ++ ".push is not a function"))
  end.

(** The request of one unbound key, [{count: 1}]. *)
Definition mint_one : obj := [("count", VNum 1)].

Definition avatar_limit : Z := 1024 * 1024.

Definition avatar_error : obj := Error "Room avatars must be less than 1MB".

Definition list_defaults : obj :=
  [("personRefresh", VBool true);
   ("uuidEntryFormat", VBool true);
   ("activitiesLimit", VNum 0);
   ("participantsLimit", VNum 0)].

Definition get_defaults : obj :=
  [("uuidEntryFormat", VBool true);
   ("personRefresh", VBool true);
   ("activitiesLimit", VNum 0);
   ("includeParticipants", VBool false)].

Definition infer_warning : string :=
  "conversation: inferred conversation url from conversation id; please pass whole conversation objects to Conversation methods".

(** ** The other methods: their pure parts *)

(** The class ShareActivity (./share-activity): [shareActivity_prepare c a]
    is the method [prepare] of [ShareActivity.create(c, a, spark)]. *)
Record Sharing (W : Type) : Type := {
  shareActivity_prepare : value -> value -> value -> W -> Res obj * W
}.
Arguments shareActivity_prepare {W} s.

(** What [share] is given: files or a plain description of them, or an
    instance of ShareActivity, which is its [prepare] method here. *)
Inductive shared (W : Type) : Type :=
| Described (v : value)
| Instance (hook : value -> W -> Res obj * W).
Arguments Described {W} v.
Arguments Instance {W} hook.

(** The rejection of [acknowledge], [delete], [update], [tag] and
    [untag] for an [object] that is not one. *)
Definition object_error : obj := Error "`object` must be an object".

Definition participants_error : obj := Error "`params.participants` is required".

Definition identify_error : obj :=
  Error "conversation: could not identify conversation".

(** [updateTypingStatus], lines 515-522: the conversation with its [id],
    taken from the [url] when it has none. *)
Definition identify (conversation : value) : Res value :=
  match member conversation "id" with
  | Err thrown => Err thrown
  | Ok id =>
      if truthy id then Ok conversation
      else if truthy (prop conversation "url")
      then match prop conversation "url" with
           | VStr url => Ok (set_prop conversation "id" (VStr (last_segment url)))
           | _ => Err (TypeError "conversation.url.split is not a function")
           end
      else Err identify_error
  end.

(** [updateTypingStatus], lines 524-540: the descriptor of the request. *)
Definition typing_request (conversation : value) (typing : value) : obj :=
  [("method", VStr "POST");
   ("service", VStr "conversation");
   ("resource", VStr "status/typing");
   ("body",
    VObj [("conversationId", prop conversation "id");
          ("eventType",
           VStr (if truthy typing then "status.start_typing"
                 else "status.stop_typing"))])].

(** [leave], lines 276-279. *)
Definition leave_instruction (id : value) : value :=
  VObj [("method", VStr "delete");
        ("uri", VStr ("<KRO>/authorizations?" ++ Querystring.stringify1 "authId" id))].

(** [add], lines 56-63. *)
Definition add_instruction (id : value) : value :=
  VObj [("method", VStr "create");
        ("uri", VStr "/authorizations");
        ("resourceUri", VStr "<KRO>");
        ("userIds", VArr [id])].

(** [v.k = x] in strict mode: a primitive cannot take a property. *)
Definition assign_prop (v : value) (k : string) (x : value) : Res value :=
  match v with
  | VObj o => Ok (VObj (set_field o k x))
  | VArr _ => Ok v
  | VUndef | VNull =>
      Err (TypeError ("Cannot set property '" ++ k ++ "' of " ++ to_string v))
  | _ => Err (TypeError ("Cannot create property '" ++ k ++ "' on " ++ to_string v))
  end.

(** [download], the callback of lines 135-147, without its log line: the
    file gets the name and the type of the item where it has none. *)
Definition describe_file (item file : value) : Res value :=
  match (if truthy (prop item "displayName")
         then match member file "name" with
              | Err thrown => Err thrown
              | Ok name =>
                  if truthy name then Ok file
                  else assign_prop file "name" (prop item "displayName")
              end
         else Ok file) with
  | Err thrown => Err thrown
  | Ok file =>
      match member file "type" with
      | Err thrown => Err thrown
      | Ok type =>
          if negb (truthy type) && truthy (prop item "mimeType")
          then assign_prop file "type" (prop item "mimeType")
          else Ok file
      end
  end.

(** The object of the muting methods, [{tags: [...]}]. *)
Definition tags (names : list string) : value :=
  VObj [("tags", VArr (map VStr names))].

(** ** The methods *)

Section Methods.

Context {W : Type} (spark : Spark W).

Definition userId : M W value :=
  fun s => (Ok (device_userId spark (world s)), s).

Definition new_uuid : M W string :=
  call UuidV4 (fun w => let (u, w') := uuid_v4 spark w in (Ok u, w')).

Definition do_request (params : obj) : M W obj :=
  call (Request params) (request spark params).

(** [_inferConversationUrl]; the result is the conversation, with its
    [url] when that was inferred. *)
Definition inferConversationUrl (conversation : value) : M W value :=
  url <- lift (member conversation "url");;
  if negb (truthy url) && truthy (prop conversation "id")
  then
    base <- call (GetServiceUrl "conversation")
              (device_getServiceUrl spark "conversation");;
    (if production spark then ret tt else emit (Warn infer_warning));;;
    ret (set_prop conversation "url"
           (VStr (to_string base ++ "/conversations/"
                  ++ to_string (prop conversation "id"))))
  else ret conversation.

(** [prepare], lines 388-424: the working activity, before it is
    validated. *)
Definition working (activity : partial W) (params : value) : M W obj :=
  let params := or_else params (VObj []) in
  act <- match activity with
         | Absent => ret []
         | Plain o =>
             if truthy (field o "prepare")
             then reject (TypeError "activity.prepare is not a function")
             else ret o
         | Hooked hook => call (Hook params) (hook params)
         end;;
  tempId <- new_uuid;;
  uid <- userId;;
  lift (normalize act params tempId uid).

(** [prepare] *)
Definition prepare (activity : partial W) (params : value) : M W obj :=
  act <- working activity params;;
  lift (validate act).

(** [submit] *)
Definition submit (activity : obj) : M W value :=
  (if negb (is_str (field activity "verb") "acknowledge")
   then emit (Trigger "user-activity")
   else ret tt);;;
  res <- do_request (submit_params activity);;
  ret (field res "body").

(** [post]; the result is the posted activity, paired with the
    conversation as [_inferConversationUrl] left it. *)
Definition post (conversation message : value) (activity : partial W)
    : M W (value * value) :=
  let message :=
    if isString message then VObj [("displayName", message)] else message in
  c <- inferConversationUrl conversation;;
  a <- prepare activity
         (VObj [("verb", VStr "post");
                ("target", VObj (prepareConversation c));
                ("object",
                 VObj (Lodash.assign [("objectType", VStr "comment")] message))]);;
  posted <- submit a;;
  ret (posted, c).

(** [acknowledge] *)
Definition acknowledge (conversation object : value) (activity : partial W)
    : M W value :=
  if negb (isObject object)
  then reject (Error "`object` must be an object")
  else
    c <- inferConversationUrl conversation;;
    a <- prepare activity
           (VObj [("verb", VStr "acknowledge");
                  ("target", VObj (prepareConversation c));
                  ("object", VObj [("objectType", VStr "activity");
                                   ("id", prop object "id");
                                   ("url", prop object "url")])]);;
    submit a.

(** [_recordUUIDs] *)
Definition recordUUIDs (conversation : value) : Res (M W unit) :=
  match member conversation "participants" with
  | Err thrown => Err thrown
  | Ok participants =>
      if negb (truthy participants) || negb (truthy (prop participants "items"))
      then Ok (ret tt)
      else match prop participants "items" with
           | VArr items =>
               Ok (all_map
                     (fun p => Ok (call (RecordUUID p) (user_recordUUID spark p)))
                     items;;;
                   ret tt)
           | _ => Err (TypeError "conversation.participants.items.map is not a function")
           end
  end.

(** [get] *)
Definition get (conversation options : value) : M W value :=
  c <- inferConversationUrl conversation;;
  let user := prop c "user" in
  let url := prop c "url" in
  let options := or_else options (VObj []) in
  let params :=
    [("qs", VObj (Lodash.assign get_defaults
                    (VObj (Lodash.omit options ["id"; "user"; "url"]))))] in
  uid <- (if truthy user
          then call (AsUUID user VUndef) (user_asUUID spark user VUndef)
          else ret VNull);;
  let params :=
    if truthy uid
    then Lodash.assign params
           (VObj [("service", VStr "conversation");
                  ("resource", VStr ("conversations/user/" ++ to_string uid))])
    else set_field params "uri" url in
  res <- do_request params;;
  common_tap spark (join (recordUUIDs (field res "body")));;;
  ret (field res "body").

(** [_create] *)
Definition create_ (payload : obj) : M W value :=
  res <- do_request
           [("method", VStr "POST");
            ("service", VStr "conversation");
            ("resource", VStr "conversations");
            ("body", VObj payload)];;
  ret (field res "body").

(** [_prepareConversationForCreation] *)
Definition prepareConversationForCreation (params : value) : M W obj :=
  uid <- userId;;
  let create := VObj (expand uid "create" VUndef VUndef VUndef) in
  let kmsMessage :=
    VObj [("method", VStr "create");
          ("uri", VStr "/resources");
          ("userIds", prop params "participants");
          ("keyUris", VArr [])] in
  let displayName :=
    if truthy (prop params "displayName")
    then [("displayName", prop params "displayName")]
    else [] in
  match prop params "participants" with
  | VArr participants =>
      let adds :=
        map (fun participant =>
               VObj (expand uid "add"
                       (VObj [("objectType", VStr "person"); ("id", participant)])
                       VUndef VUndef))
          participants in
      let posts :=
        if truthy (prop params "comment")
        then [VObj (expand uid "post"
                      (VObj [("objectType", VStr "comment");
                             ("displayName", prop params "comment")])
                      VUndef VUndef)]
        else [] in
      ret ([("activities", VObj [("items", VArr (create :: adds ++ posts)%list)]);
            ("objectType", VStr "conversation");
            ("kmsMessage", kmsMessage)]
           ++ displayName)%list
  | _ => reject (TypeError "params.participants.forEach is not a function")
  end.

(** The fallback of [_maybeCreateOneOnOneThenPost], lines 840-848. *)
Definition create_on_miss (params : value) (reason : obj) : M W value :=
  if negb (is_num (field reason "statusCode") 404)
  then reject reason
  else
    payload <- prepareConversationForCreation params;;
    create_ (set_field payload "tags" (VArr [VStr "ONE_ON_ONE"])).

(** What follows a successful lookup, lines 829-839. *)
Definition post_comment (params conversation : value) : M W value :=
  if truthy (prop params "comment")
  then
    r <- post conversation (VObj [("displayName", prop params "comment")]) Absent;;
    let (activity, conversation) := (r : value * value) in
    activities <- lift (member conversation "activities");;
    activities <- lift (push "conversation.activities" activities activity);;
    ret (set_prop conversation "activities" activities)
  else ret conversation.

(** The argument of the lookup, lines 824-828: [params.participants[1]]
    is read before the chain of promises starts. *)
Definition other_user (params : value) : Res value :=
  match member params "participants" with
  | Err thrown => Err thrown
  | Ok participants =>
      if nullish participants
      then Err (TypeError ("Cannot read property '1' of " ++ to_string participants))
      else Ok (VObj [("user", at_index participants 1)])
  end.

(** [_maybeCreateOneOnOneThenPost] *)
Definition maybeCreateOneOnOneThenPost (params options : value) : M W value :=
  who <- lift (other_user params);;
  catch
    (conversation <- get who options;;
     post_comment params conversation)
    (create_on_miss params).

(** [_list]; [options] is the request descriptor. *)
Definition list_ (options : obj) : M W value :=
  let options :=
    set_field options "qs"
      (VObj (Lodash.assign list_defaults (field options "qs"))) in
  res <- do_request options;;
  let body := field res "body" in
  if negb (truthy body) || negb (truthy (prop body "items"))
     || is_num (prop (prop body "items") "length") 0
  then ret (VArr [])
  else
    let items := prop body "items" in
    last_published <- lift (member (Lodash.last items) "published");;
    first_published <- lift (member (at_index items 0) "published");;
    match items with
    | VArr l =>
        let l := if lt last_published first_published then rev l else l in
        all_map recordUUIDs l;;;
        ret (VArr l)
    | _ =>
        if lt last_published first_published
        then reject (TypeError "items.reverse is not a function")
        else reject (TypeError "items.map is not a function")
    end.

(** [list]; the name [list] is taken by the lists of Rocq. *)
Definition listConversations (options : value) : M W value :=
  list_ [("service", VStr "conversation");
         ("resource", VStr "conversations");
         ("qs", options)].

(** [_updateKey] *)
Definition updateKey_ (conversation key : value) (activity : partial W)
    : M W value :=
  keys <- (if truthy key then ret key
           else call (CreateUnboundKeys mint_one)
                  (kms_createUnboundKeys spark mint_one));;
  params <- lift (updateKey_params conversation keys);;
  a <- prepare activity (VObj params);;
  submit a.

(** [updateKey] *)
Definition updateKey (conversation key : value) (activity : partial W)
    : M W value :=
  conversation <- inferConversationUrl conversation;;
  c <- get conversation
         (VObj [("activitiesLimit", VNum 0); ("includeParticipants", VBool true)]);;
  updateKey_ c key activity.

(** [assign] *)
Definition assign (conversation avatar : value) : M W value :=
  size <- lift (member avatar "size");;
  if gt (or_else size (prop avatar "length")) (VNum avatar_limit)
  then reject avatar_error
  else
    conversation <- inferConversationUrl conversation;;
    call (ShareAdd conversation avatar) (share_add spark conversation avatar);;;
    a <- prepare (Hooked (share_prepare spark conversation avatar))
           (VObj [("target", VObj (prepareConversation conversation))]);;
    submit (set_field a "verb" (VStr "assign")).

(** ** The other methods *)

Definition asUUID (who options : value) : M W value :=
  call (AsUUID who options) (user_asUUID spark who options).

(** [add] *)
Definition add (conversation participant : value) (activity : partial W)
    : M W value :=
  c <- inferConversationUrl conversation;;
  id <- asUUID participant (VObj [("create", VBool true)]);;
  a <- prepare activity
         (VObj [("verb", VStr "add");
                ("target", VObj (prepareConversation c));
                ("object", VObj [("id", id); ("objectType", VStr "person")]);
                ("kmsMessage", add_instruction id)]);;
  submit a.

(** [delete] *)
Definition delete (conversation object : value) (activity : partial W)
    : M W value :=
  if negb (isObject object)
  then reject object_error
  else
    c <- inferConversationUrl conversation;;
    a <- prepare activity
           (VObj [("verb", VStr "delete");
                  ("target", VObj (prepareConversation c));
                  ("object", VObj (Lodash.pick object ["id"; "url"; "objectType"]))]);;
    submit a.

(** [leave] *)
Definition leave (conversation participant : value) (activity : partial W)
    : M W value :=
  c <- inferConversationUrl conversation;;
  uid <- userId;;
  let participant := if truthy participant then participant else uid in
  id <- asUUID participant VUndef;;
  a <- prepare activity
         (VObj [("verb", VStr "leave");
                ("target", VObj (prepareConversation c));
                ("object", VObj [("id", id); ("objectType", VStr "person")]);
                ("kmsMessage", leave_instruction id)]);;
  submit a.

(** [unassign] *)
Definition unassign (conversation : value) (activity : partial W) : M W value :=
  c <- inferConversationUrl conversation;;
  a <- prepare activity
         (VObj [("verb", VStr "unassign");
                ("target", VObj (prepareConversation c));
                ("object", VObj [("objectType", VStr "content");
                                 ("files", VObj [("items", VArr [])])])]);;
  submit a.

(** [update] *)
Definition update (conversation object : value) (activity : partial W)
    : M W value :=
  if negb (isObject object)
  then reject object_error
  else
    c <- inferConversationUrl conversation;;
    a <- prepare activity
           (VObj [("verb", VStr "update");
                  ("target", VObj (prepareConversation c));
                  ("object", object)]);;
    submit a.

(** [submitSimpleActivity], lines 907-925: favorite, hide, lock, mute,
    unfavorite, unhide, unlock and unmute. *)
Definition submitSimpleActivity (verb : string) (conversation : value)
    (activity : partial W) : M W value :=
  c <- inferConversationUrl conversation;;
  a <- prepare activity
         (VObj [("verb", VStr verb);
                ("object", VObj (prepareConversation c))]);;
  submit a.

Definition favorite := submitSimpleActivity "favorite".
Definition hide := submitSimpleActivity "hide".
Definition lock := submitSimpleActivity "lock".
Definition mute := submitSimpleActivity "mute".
Definition unfavorite := submitSimpleActivity "unfavorite".
Definition unhide := submitSimpleActivity "unhide".
Definition unlock := submitSimpleActivity "unlock".
Definition unmute := submitSimpleActivity "unmute".

(** [submitModerationChangeActivity], lines 927-946: assignModerator and
    unassignModerator.  The two promises of [Promise.all] are both
    started, unless the first call throws. *)
Definition submitModerationChangeActivity (verb : string)
    (conversation moderator : value) (activity : partial W) : M W value :=
  if nullish conversation
  then reject (TypeError ("Cannot read property 'url' of " ++ to_string conversation))
  else
    r <- (fun s =>
            let (rc, s1) := inferConversationUrl conversation s in
            let (ru, s2) :=
              (if truthy moderator then asUUID moderator VUndef else userId) s1 in
            (match rc, ru with
             | Ok c, Ok u => Ok (c, u)
             | Err r, _ => Err r
             | Ok _, Err r => Err r
             end, s2));;
    let (c, uid) := (r : value * value) in
    a <- prepare activity
           (VObj [("verb", VStr verb);
                  ("target", VObj (prepareConversation c));
                  ("object", VObj [("id", uid); ("objectType", VStr "person")])]);;
    submit a.

Definition assignModerator := submitModerationChangeActivity "assignModerator".
Definition unassignModerator := submitModerationChangeActivity "unassignModerator".

(** [submitObjectActivity], lines 948-967: tag and untag.  The reference
    [c] is taken before the url is inferred, [Object.assign] writes the
    object into it, and it is both the target and the object. *)
Definition submitObjectActivity (verb : string) (conversation object : value)
    (activity : partial W) : M W value :=
  if negb (isObject object)
  then reject object_error
  else
    let c := prepareConversation conversation in
    inferConversationUrl conversation;;;
    let c := VObj (Lodash.assign c object) in
    a <- prepare activity
           (VObj [("verb", VStr verb); ("target", c); ("object", c)]);;
    submit a.

Definition tag := submitObjectActivity "tag".
Definition untag := submitObjectActivity "untag".

(** [muteMentions], [muteMessages], [unmuteMentions], [unmuteMessages]
    and [removeAllMuteTags] *)
Definition muteMentions (conversation : value) (activity : partial W) :=
  tag conversation (tags ["MENTION_NOTIFICATIONS_OFF"]) activity.

Definition muteMessages (conversation : value) (activity : partial W) :=
  tag conversation (tags ["MESSAGE_NOTIFICATIONS_OFF"]) activity.

Definition unmuteMentions (conversation : value) (activity : partial W) :=
  tag conversation (tags ["MENTION_NOTIFICATIONS_ON"]) activity.

Definition unmuteMessages (conversation : value) (activity : partial W) :=
  tag conversation (tags ["MESSAGE_NOTIFICATIONS_ON"]) activity.

Definition removeAllMuteTags (conversation : value) (activity : partial W) :=
  untag conversation
    (tags ["MENTION_NOTIFICATIONS_OFF"; "MENTION_NOTIFICATIONS_ON";
           "MESSAGE_NOTIFICATIONS_OFF"; "MESSAGE_NOTIFICATIONS_ON"])
    activity.

(** [updateTypingStatus]; it resolves to the response, and leaves the
    conversation as [identify] gives it. *)
Definition updateTypingStatus (conversation options : value) : M W obj :=
  c <- lift (identify conversation);;
  typing <- lift (member options "typing");;
  do_request (typing_request c typing).

(** [listLeft] *)
Definition listLeft (options : value) : M W value :=
  list_ [("service", VStr "conversation");
         ("resource", VStr "conversations/left");
         ("qs", options)].

(** [_listActivities]; [options] are the properties of the options. *)
Definition listActivities_ (options : obj) : M W value :=
  list_ [("service", VStr "conversation");
         ("resource",
          VStr (if truthy (field options "mentions") then "mentions" else "activities"));
         ("qs", VObj (Lodash.omit (VObj options) ["mentions"]))].

(** [Object.assign(options, {mentions})], then [_listActivities]. *)
Definition list_with_mentions (mentions : bool) (options : value) : M W value :=
  if nullish options
  then reject (TypeError "Cannot convert undefined or null to object")
  else listActivities_
         (Lodash.assign (own_props options) (VObj [("mentions", VBool mentions)])).

(** [listActivities] and [listMentions] *)
Definition listActivities := list_with_mentions false.
Definition listMentions := list_with_mentions true.

(** [_createGrouped] *)
Definition createGrouped (params : value) : M W value :=
  payload <- prepareConversationForCreation params;;
  create_ payload.

Context (sharing : Sharing W).

(** [share]; the result is the activity, paired with the conversation as
    [_inferConversationUrl] left it. *)
Definition share (conversation : value) (activity : shared W)
    : M W (value * value) :=
  let activity :=
    match activity with
    | Described v =>
        if isArray v then Described (VObj [("object", VObj [("files", v)])])
        else Described v
    | Instance hook => Instance hook
    end in
  c <- inferConversationUrl conversation;;
  let hook :=
    match activity with
    | Described v => shareActivity_prepare sharing c v
    | Instance hook => hook
    end in
  a <- prepare (Hooked hook) (VObj [("target", VObj (prepareConversation c))]);;
  posted <- submit a;;
  ret (posted, c).

(** [create], lines 95-105: the files of the parameters are shared to
    the conversation and the activity joins its items. *)
Definition share_files (params c : value) : M W value :=
  if negb (truthy (prop params "files"))
  then ret c
  else
    r <- share c (Described (prop params "files"));;
    let (a, c) := (r : value * value) in
    activities <- lift (member c "activities");;
    items <- lift (member activities "items");;
    items <- lift (push "c.activities.items" items a);;
    ret (set_prop c "activities" (set_prop activities "items" items)).

(** [create] *)
Definition create (params options : value) : M W value :=
  participants <- lift (member params "participants");;
  if negb (truthy participants) || is_num (prop participants "length") 0
  then reject participants_error
  else
    match participants with
    | VArr l =>
        ids <- all_map (fun p => Ok (asUUID p (VObj [("create", VBool true)]))) l;;
        uid <- userId;;
        let unique := Lodash.uniq (uid :: ids) in
        let params := set_prop params "participants" (VArr unique) in
        c <- (if (List.length unique =? 2)%nat
                 && negb (truthy options && truthy (prop options "forceGrouped"))
              then maybeCreateOneOnOneThenPost params options
              else createGrouped params);;
        share_files params c
    | _ => reject (TypeError "params.participants.map is not a function")
    end.

End Methods.
End Conversation.

(* ================================================================== *)
(** * plugin-team: the outbound transform [encryptTeam] *)

Module Team.
Import Js Promise.
Local Open Scope promise_scope.

(** The transform context [ctx]: the KMS and the transforms registered
    by other plugins.  A transform receives the team last and resolves to
    the team as it left it. *)
Record Ctx (W : Type) : Type := {
  kms_createUnboundKeys : obj -> W -> Res value * W;
  transform : string -> list value -> obj -> W -> Res obj * W
}.
Arguments kms_createUnboundKeys {W} c.
Arguments transform {W} c.

(** [keyUris.includes(uri)] followed, when it is false, by
    [keyUris.push(uri)], for a [keyUris] that is truthy. *)
Definition track_uri (keyUris uri : value) : Res value :=
  match keyUris with
  | VArr l =>
      if existsb (same_value_zero uri) l then Ok keyUris
      else Ok (VArr (l ++ [uri]))
  | VStr s =>
      match String.index 0 (to_string uri) s with
      | Some _ => Ok keyUris
      | None => Err (TypeError "team.kmsMessage.keyUris.push is not a function")
      end
  | _ => Err (TypeError "team.kmsMessage.keyUris.includes is not a function")
  end.

(** Lines 59-61. *)
Definition track_key (team : obj) (k : value) : Res obj :=
  let kmsMessage := field team "kmsMessage" in
  if truthy kmsMessage && truthy (prop kmsMessage "keyUris")
  then
    match member k "uri" with
    | Err thrown => Err thrown
    | Ok uri =>
        match track_uri (prop kmsMessage "keyUris") uri with
        | Err thrown => Err thrown
        | Ok keyUris =>
            Ok (set_field team "kmsMessage"
                  (Conversation.set_prop kmsMessage "keyUris" keyUris))
        end
    end
  else Ok team.

(** Lines 68-74. *)
Definition bind_urls (key k : value) (team : obj) : Res obj :=
  match member k "uri" with
  | Err thrown => Err thrown
  | Ok uri =>
      let team := set_field team "encryptionKeyUrl" (or_else uri k) in
      if negb (truthy key)
      then Ok (set_field team "defaultActivityEncryptionKeyUrl"
                 (or_else (or_else (field team "defaultActivityEncryptionKeyUrl") uri) k))
      else Ok team
  end.

(** The transforms of other plugins that take an item of a collection
    last, [decryptObject] and [normalizeObject]; they resolve to the item
    as they left it. *)
Record Items (W : Type) : Type := {
  transform_item : string -> list value -> value -> W -> Res value * W
}.
Arguments transform_item {W} i.

(** [normalizeTeam], lines 89-92 for one collection:
    [team.k = team.k || {}], then [team.k.items = team.k.items || []].
    An array in the place of the collection is given the property
    [items = []], which the array of the model does not show. *)
Definition ensure_items (team : obj) (k : string) : Res obj :=
  match or_else (field team k) (VObj []) with
  | VObj collection =>
      Ok (set_field team k
            (VObj (set_field collection "items"
                     (or_else (field collection "items") (VArr [])))))
  | VArr l => Ok (set_field team k (VArr l))
  | other =>
      Err (TypeError ("Cannot create property 'items' on " ++ to_string other))
  end.

(** [team.k.items = items], for the items that the transforms left. *)
Definition with_items (team : obj) (k : string) (items : list value) : obj :=
  set_field team k (Conversation.set_prop (field team k) "items" (VArr items)).

Section Transforms.

Context {W : Type} (ctx : Ctx W).

Definition do_transform (name : string) (args : list value) (team : obj)
    : M W obj :=
  call (Transform name (args ++ [VObj team])) (transform ctx name args team).

(** The transform [encryptPropSummary], lines 80-85. *)
Definition encryptPropSummary (key : value) (team : obj) : M W obj :=
  do_transform "encryptTextProp" [VStr "summary"; key] team.

(** Lines 63-66: both transforms are started; the second sees the team
    as the first left it. *)
Definition encrypt_props (k : value) (team : obj) : M W obj :=
  fun s =>
    let (r1, s1) := do_transform "encryptPropDisplayName" [k] team s in
    let team1 := match r1 with Ok t => t | Err _ => team end in
    let (r2, s2) := encryptPropSummary k team1 s1 in
    (match r1, r2 with
     | Ok _, Ok t => Ok t
     | Err r, _ => Err r
     | Ok _, Err r => Err r
     end, s2).

(** [encryptTeam]; it resolves to the team as it leaves it. *)
Definition encryptTeam (key : value) (team : obj) : M W obj :=
  match key with
  | VBool false => ret team
  | _ =>
      keys <- (if truthy key then ret key
               else call (CreateUnboundKeys Conversation.mint_one)
                      (kms_createUnboundKeys ctx Conversation.mint_one));;
      let k := if isArray keys then at_index keys 0 else keys in
      team <- lift (track_key team k);;
      team <- encrypt_props k team;;
      lift (bind_urls key k team)
  end.

Context (items : Items W).

Definition do_item (name : string) (args : list value) (item : value)
    : M W value :=
  call (Transform name (args ++ [item])) (transform_item items name args item).

(** The transform [decryptPropSummary], lines 41-46. *)
Definition decryptPropSummary (key : value) (team : obj) : M W obj :=
  do_transform "decryptTextProp" [VStr "summary"; key] team.

(** [decryptTeam], lines 30-35: the transforms of the display name and of
    the summary, with the key of the team if it has one, are started
    after those of the conversations, which resolved to [r0]. *)
Definition decrypt_props (key : value) (team : obj) (usableKey : value)
    (r0 : Res obj) : M W obj :=
  fun s0 =>
    let team0 := match r0 with Ok t => t | Err _ => team end in
    if truthy usableKey
    then
      let (r1, s1) := do_transform "decryptPropDisplayName" [usableKey] team0 s0 in
      let team1 := match r1 with Ok t => t | Err _ => team0 end in
      let (r2, s2) := decryptPropSummary usableKey team1 s1 in
      (match r0, r1, r2 with
       | Ok _, Ok _, Ok t => Ok t
       | Err r, _, _ => Err r
       | Ok _, Err r, _ => Err r
       | Ok _, Ok _, Err r => Err r
       end, s2)
    else (r0, s0).

(** [decryptTeam]; it resolves to the team as it leaves it. *)
Definition decryptTeam (key : value) (team : obj) : M W obj :=
  fun s =>
    match member (field team "conversations") "items" with
    | Err thrown => (Err thrown, s)
    | Ok conversations =>
        let usableKey := or_else (field team "encryptionKeyUrl") key in
        if truthy conversations
        then match conversations with
             | VArr l =>
                 let (r, s0) :=
                   all_map (fun i => Ok (do_item "decryptObject" [VNull] i)) l s in
                 decrypt_props key team usableKey
                   match r with
                   | Ok l' => Ok (with_items team "conversations" l')
                   | Err reason => Err reason
                   end s0
             | _ =>
                 (Err (TypeError "team.conversations.items.map is not a function"), s)
             end
        else decrypt_props key team usableKey (Ok team) s
    end.

(** [normalizeTeam], lines 94-97, for one collection; the items of an
    array in the place of the collection are the [[]] of lines 90 and
    92. *)
Definition normalize_items (team : obj) (k : string) : Res (M W (list value)) :=
  match field team k with
  | VArr _ => Ok (ret [])
  | collection =>
      match prop collection "items" with
      | VArr l => Ok (all_map (fun i => Ok (do_item "normalizeObject" [] i)) l)
      | VUndef | VNull =>
          Err (TypeError "Cannot read property 'map' of undefined")
      | _ => Err (TypeError ("team." ++ k ++ ".items.map is not a function"))
      end
  end.

(** [normalizeTeam]; it resolves to the team as it leaves it. *)
Definition normalizeTeam (team : obj) : M W obj :=
  team <- lift (ensure_items team "conversations");;
  team <- lift (ensure_items team "teamMembers");;
  fun s =>
    match normalize_items team "conversations" with
    | Err thrown => (Err thrown, s)
    | Ok first =>
        let (r1, s1) := first s in
        match normalize_items team "teamMembers" with
        | Err thrown => (Err thrown, s1)
        | Ok second =>
            let (r2, s2) := second s1 in
            (match r1, r2 with
             | Ok l1, Ok l2 =>
                 Ok (with_items (with_items team "conversations" l1)
                       "teamMembers" l2)
             | Err r, _ => Err r
             | Ok _, Err r => Err r
             end, s2)
        end
    end.

End Transforms.
End Team.

(* ================================================================== *)
(** * A concrete backend, for examples *)

Module Backend.
Import Js Promise Conversation.

(** The state counts the identifiers handed out by [uuid.v4]. *)
Definition W : Type := nat.

Definition s0 : St W := mkSt 0%nat [].

Definition not_found : obj :=
  [("name", VStr "HttpError"); ("statusCode", VNum 404);
   ("message", VStr "Not Found")].

Definition unavailable : obj :=
  [("name", VStr "HttpError"); ("statusCode", VNum 503);
   ("message", VStr "Service Unavailable")].

(** The backend answers a lookup of a one-on-one conversation with
    [lookup], a listing with the items [listed], and echoes what is
    posted to it. *)
Definition respond (lookup : Res obj) (listed : value) (params : obj) : Res obj :=
  let resource := field params "resource" in
  if is_str resource "activities" || is_str resource "content"
  then Ok [("statusCode", VNum 200);
           ("body", set_prop (field params "body") "id" (VStr "activity-1"))]
  else if is_str resource "conversations" && is_str (field params "method") "POST"
  then Ok [("statusCode", VNum 201);
           ("body", set_prop (field params "body") "id" (VStr "conversation-1"))]
  else if is_str resource "conversations"
  then Ok [("statusCode", VNum 200); ("body", VObj [("items", listed)])]
  else lookup.

Definition spark (lookup : Res obj) (listed : value) : Spark W := {|
  request := fun params w => (respond lookup listed params, w);
  device_getServiceUrl := fun _ w => (Ok (VStr "https://conv.example.com/api/v1"), w);
  device_userId := fun _ => VStr "alice";
  user_asUUID := fun who _ w => (Ok who, w);
  user_recordUUID := fun _ w => (Ok VUndef, w);
  kms_createUnboundKeys :=
    fun _ w => (Ok (VArr [VObj [("uri", VStr "kms://kms.example.com/keys/1")]]), w);
  uuid_v4 := fun w => (("temp-" ++ key_of_index w)%string, S w);
  production := true;
  share_add := fun _ _ w => (Ok tt, w);
  share_prepare :=
    fun _ file _ w =>
      (Ok [("verb", VStr "share");
           ("object", VObj [("objectType", VStr "content");
                            ("files", VObj [("items", VArr [file])])])], w);
  common_tap := fun m s => (Ok tt, snd (m s))
|}.

Definition room : value :=
  VObj [("id", VStr "room-1");
        ("url", VStr "https://conv.example.com/api/v1/conversations/room-1");
        ("objectType", VStr "conversation");
        ("activities", VObj [("items", VArr [])])].

Definition quiet : Spark W := spark (Ok [("statusCode", VNum 200); ("body", room)]) (VArr []).

End Backend.

(* ================================================================== *)
(** * The notions of the specification *)

Module Spec.
Import Js Promise Conversation.

(** ** Logs *)

(** The requests and the notifications of a log. *)
Definition requests (l : list event) : list obj :=
  flat_map (fun e => match e with Request p => [p] | _ => [] end) l.

Definition triggers (l : list event) : list string :=
  flat_map (fun e => match e with Trigger n => [n] | _ => [] end) l.

(** ** Activities *)

Definition entity_keys : list string := ["actor"; "object"; "target"].

(** [act[key]] is populated; it has an objectType. *)
Definition populated (act : obj) (key : string) : Prop :=
  truthy (field act key) = true.

Definition typed (act : obj) (key : string) : Prop :=
  truthy (prop (field act key) "objectType") = true.

(** The construction error of [prepare] for a field, and its semantic
    validation error. *)
Definition construction_error (key : string) : obj := objectType_error key.

Definition semantic_validation_error : obj := content_error.

(** [act.object.content] is set and [act.object.displayName] is not. *)
Definition content_without_displayName (act : obj) : Prop :=
  truthy (prop (field act "object") "content") = true
  /\ truthy (prop (field act "object") "displayName") = false.


(** ** Key binding of a conversation *)

Definition is_object (v : value) : Prop := exists fields, v = VObj fields.

(** A Key of the data model is an object; its uri is [prop k "uri"]. *)
Definition is_key (k : value) : Prop := is_object k.


(** The two instructions of the key binding. *)
Definition update_instruction (uri : value) : value :=
  VObj [("method", VStr "update");
        ("resourceUri", VStr "<KRO>");
        ("uri", uri)].

Definition create_instruction (userIds : list value) (uri : value) : value :=
  VObj [("method", VStr "create");
        ("uri", VStr "/resources");
        ("userIds", VArr userIds);
        ("keyUris", VArr [uri])].




(** ** Creation and listing *)

(** The descriptor of the request that [_create] makes. *)
Definition creation_request (payload : obj) : obj :=
  [("method", VStr "POST");
   ("service", VStr "conversation");
   ("resource", VStr "conversations");
   ("body", VObj payload)].

(** The published value of an item, and the orders of a sequence of
    them. *)
Definition published (item : value) : value := prop item "published".

Definition ascending (zs : list Z) : Prop := StronglySorted Z.le zs.

Definition descending (zs : list Z) : Prop := StronglySorted Z.ge zs.

(** The order of published values as [_list] compares them, with [<]:
    [a] is not after [b] when [b < a] is false. *)
Definition not_after (a b : value) : Prop := lt b a = false.

Definition chronological (stamps : list value) : Prop :=
  StronglySorted not_after stamps.

Definition reverse_chronological (stamps : list value) : Prop :=
  StronglySorted (fun a b => not_after b a) stamps.

(** Published values of one kind: all of them numbers, or all of them
    strings, as the timestamps of ISO 8601 are. *)
Definition number (v : value) : Prop := exists z, v = VNum z.

Definition text (v : value) : Prop := exists t, v = VStr t.

Definition timestamps (stamps : list value) : Prop :=
  Forall number stamps \/ Forall text stamps.

(** The descriptor that [_list] sends: the defaults, under the query of
    the caller. *)
Definition list_request (options : obj) : obj :=
  set_field options "qs" (VObj (Lodash.assign list_defaults (field options "qs"))).

(** ** Key binding of a team *)

(** The list of key URIs that a team tracks: [team.kmsMessage.keyUris]. *)
Definition tracked_uris (team : obj) : value :=
  prop (field team "kmsMessage") "keyUris".

(** [keyUris.includes(uri)]. *)
Definition includes (keyUris : list value) (uri : value) : bool :=
  existsb (same_value_zero uri) keyUris.

(** The key [k] that [encryptTeam] binds and the state [s1] in which it
    is known: the key that the caller supplied, or the first of the
    collection that the caller supplied; without a supplied key, the key
    that the KMS mints for a request of one, or the first of the batch
    that it mints. *)
Inductive bound_key {W : Type} (ctx : Team.Ctx W) (key : value) (s : St W)
    : value -> St W -> Prop :=
| bound_supplied :
    is_key key ->
    bound_key ctx key s key s
| bound_supplied_first (k : value) (rest : list value) :
    key = VArr (k :: rest) ->
    bound_key ctx key s k s
| bound_minted (k : value) (w1 : W) :
    truthy key = false -> key <> VBool false ->
    Team.kms_createUnboundKeys ctx mint_one (world s) = (Ok k, w1) ->
    is_key k ->
    bound_key ctx key s k (mkSt w1 (log s ++ [CreateUnboundKeys mint_one]))
| bound_minted_first (k : value) (rest : list value) (w1 : W) :
    truthy key = false -> key <> VBool false ->
    Team.kms_createUnboundKeys ctx mint_one (world s) = (Ok (VArr (k :: rest)), w1) ->
    bound_key ctx key s k (mkSt w1 (log s ++ [CreateUnboundKeys mint_one])).

(** The transforms of the properties of the team resolve and leave the
    fields of the key binding as they find them. *)
Definition transforms_keep_binding {W : Type} (ctx : Team.Ctx W) (k : value)
    (s1 : St W) : Prop :=
  forall team, exists team' s2,
    Team.encrypt_props ctx k team s1 = (Ok team', s2)
    /\ field team' "kmsMessage" = field team "kmsMessage"
    /\ field team' "defaultActivityEncryptionKeyUrl"
       = field team "defaultActivityEncryptionKeyUrl".

(** ** Methods and the network *)

(** A call to a collaborator other than the transport and the
    notification. *)
Definition silent (e : event) : Prop :=
  match e with
  | Request _ | Trigger _ => False
  | _ => True
  end.

(** A computation that makes no request and raises no notification. *)
Definition quiet {W A : Type} (m : M W A) : Prop :=
  forall s,
    requests (log (snd (m s))) = requests (log s)
    /\ triggers (log (snd (m s))) = triggers (log s).

(** A computation that submits at most one activity, and a validated
    one: either it rejects and has made no request and raised no
    notification, or it has made exactly one request, the submission of
    an activity that passes the validation of [prepare]. *)
Definition submits_validated {W A : Type} (m : M W A) : Prop :=
  forall s,
    (requests (log (snd (m s))) = requests (log s)
     /\ triggers (log (snd (m s))) = triggers (log s)
     /\ exists reason, fst (m s) = Err reason)
    \/ (exists act,
          validate act = Ok act
          /\ requests (log (snd (m s)))
             = (requests (log s) ++ [submit_params act])%list).

(** ** Urls and identifiers *)

(** The character [c] does not occur in [s]. *)
Fixpoint free_of (c : ascii) (s : string) : bool :=
  match s with
  | EmptyString => true
  | String c' s' => negb (Ascii.eqb c' c) && free_of c s'
  end.

(** The url that [_inferConversationUrl] gives the conversation [id] of
    the service at [base]. *)
Definition inferred_url (base id : string) : string :=
  base ++ "/conversations/" ++ id.

(** The state after an inference: the service url was asked for, and the
    inference was noted unless in production. *)
Definition after_inference {W} (spark : Spark W) (s : St W) (w1 : W) : St W :=
  mkSt w1
    (log s ++ GetServiceUrl "conversation"
           :: (if production spark then [] else [Warn infer_warning])).

(** ** What [prepare] leaves and fills *)

(** The fields of an activity that [prepare] works on; it leaves every
    other field to [defaults]. *)
Definition entity (k : string) : bool :=
  existsb (String.eqb k) entity_keys.

(** The value that [prepare] gives a field that the activity does not
    define: the verb and the kmsMessage of the parameters, the
    objectType of an activity and a new clientTempId. *)
Definition default_of (params : value) (tempId : string) (k : string) : value :=
  if (k =? "verb")%string then prop (or_else params (VObj [])) "verb"
  else if (k =? "kmsMessage")%string then prop (or_else params (VObj [])) "kmsMessage"
  else if (k =? "objectType")%string then VStr "activity"
  else if (k =? "clientTempId")%string then VStr tempId
  else VUndef.

(** ** Lists and lookups *)

(** The answer of the backend has no items: no body, no collection, or
    an empty one. *)
Definition no_items (res : obj) : Prop :=
  truthy (field res "body") = false
  \/ truthy (prop (field res "body") "items") = false
  \/ prop (prop (field res "body") "items") "length" = VNum 0.

(** The descriptor that [listActivities] and [listMentions] hand to
    [_list]. *)
Definition activities_listing (mentions : bool) (options : value) : obj :=
  [("service", VStr "conversation");
   ("resource", VStr (if mentions then "mentions" else "activities"));
   ("qs", VObj (remove_keys (own_props options) ["mentions"]))].

(** The query of [get]: its defaults, under the options without [id],
    [user] and [url]. *)
Definition get_query (options : value) : obj :=
  Lodash.assign get_defaults
    (VObj (Lodash.omit (or_else options (VObj [])) ["id"; "user"; "url"])).

(** [get], lines 243-247: the request and what follows it. *)
Definition get_tail {W} (spark : Spark W) (params : obj) : M W value :=
  (res <- do_request spark params;;
   common_tap spark (join (recordUUIDs spark (field res "body")));;;
   ret (field res "body"))%promise.

(** ** Creation *)

(** A value that is compared by what it is: not an object or an array. *)
Definition primitive (v : value) : Prop := isObject v = false.

(** The options that keep [create] from looking for a conversation of
    two. *)
Definition forced (options : value) : bool :=
  truthy options && truthy (prop options "forceGrouped").

(** [create], lines 89-105, for the parameters with their participants
    resolved and without duplicates. *)
Definition create_with {W} (spark : Spark W) (sharing : Sharing W)
    (params options : value) (unique : list value) : M W value :=
  (c <- (if (List.length unique =? 2)%nat && negb (forced options)
         then maybeCreateOneOnOneThenPost spark params options
         else createGrouped spark params);;
   share_files spark sharing params c)%promise.

(** The verbs of the activities of a creation payload for [n]
    participants. *)
Definition creation_verbs (n : nat) (comment : value) : list value :=
  (VStr "create" :: repeat (VStr "add") n
   ++ (if truthy comment then [VStr "post"] else []))%list.

(** The activities of a payload. *)
Definition payload_activities (payload : obj) : list value :=
  match prop (field payload "activities") "items" with
  | VArr l => l
  | _ => []
  end.

(** ** Teams *)

(** The items of the collection [k] of a team. *)
Definition items_of (team : obj) (k : string) : list value :=
  match prop (field team k) "items" with
  | VArr l => l
  | _ => []
  end.

(** The call of a transform of an item. *)
Definition item_call (name : string) (args : list value) (item : value) : event :=
  Transform name (args ++ [item]).

(** The events that are transforms. *)
Definition is_transform (e : event) : bool :=
  match e with Transform _ _ => true | _ => false end.

End Spec.

(* ================================================================== *)
(** * Scenarios on the concrete backend *)

Module Scenario.
Import Js Promise Conversation Spec.

(** ** Activities *)

Definition hello_params : value :=
  VObj [("verb", VStr "post");
        ("target", VObj (prepareConversation Backend.room));
        ("object", VObj [("objectType", VStr "comment");
                         ("displayName", VStr "hello")])].

Definition hello_activity : obj :=
  [("verb", VStr "post");
   ("kmsMessage", VUndef);
   ("objectType", VStr "activity");
   ("clientTempId", VStr "temp-0");
   ("actor", VObj [("objectType", VStr "person"); ("id", VStr "alice")]);
   ("object", VObj [("objectType", VStr "comment"); ("displayName", VStr "hello")]);
   ("target", VObj [("id", VStr "room-1");
                    ("url", VStr "https://conv.example.com/api/v1/conversations/room-1");
                    ("objectType", VStr "conversation")])].

Definition after_uuid : St Backend.W := mkSt 1%nat [UuidV4].

(** An activity whose target is an empty object. *)
Definition untyped_target : partial Backend.W :=
  Plain [("object", VObj [("objectType", VStr "comment"); ("displayName", VStr "hi")]);
         ("target", VObj [])].

(** An object with content, without displayName and with its objectType;
    the same without its objectType. *)
Definition rich_comment : partial Backend.W :=
  Plain [("object", VObj [("objectType", VStr "comment");
                          ("content", VStr "<b>hi</b>")])].

Definition bare_content : partial Backend.W :=
  Plain [("object", VObj [("content", VStr "<b>hi</b>")])].

(** ** Conversations and keys *)

(** A conversation without a key, and one with its key. *)
Definition fresh_room : value :=
  VObj [("id", VStr "room-2");
        ("url", VStr "https://conv.example.com/api/v1/conversations/room-2");
        ("objectType", VStr "conversation");
        ("participants",
         VObj [("items", VArr [VObj [("id", VStr "alice"); ("objectType", VStr "person")];
                               VObj [("id", VStr "bob"); ("objectType", VStr "person")]])])].

Definition keyed_room : value :=
  VObj [("id", VStr "room-3");
        ("url", VStr "https://conv.example.com/api/v1/conversations/room-3");
        ("objectType", VStr "conversation");
        ("defaultActivityEncryptionKeyUrl", VStr "kms://kms.example.com/keys/0");
        ("kmsResourceObjectUrl", VStr "kms://kms.example.com/resources/3");
        ("participants",
         VObj [("items", VArr [VObj [("id", VStr "alice"); ("objectType", VStr "person")]])])].

Definition second_key : value := VObj [("uri", VStr "kms://kms.example.com/keys/2")].

Definition after_mint : St Backend.W := mkSt 0%nat [CreateUnboundKeys mint_one].

(** ** Lookups and listings *)

(** A backend that has no one-on-one conversation, and one that is
    down. *)
Definition missing : Spark Backend.W :=
  Backend.spark (Err Backend.not_found) (VArr []).

Definition down : Spark Backend.W :=
  Backend.spark (Err Backend.unavailable) (VArr []).

Definition two_parties : value :=
  VObj [("participants", VArr [VStr "alice"; VStr "bob"]);
        ("comment", VStr "hello")].

Definition lookup_request : obj :=
  [("qs", VObj get_defaults);
   ("service", VStr "conversation");
   ("resource", VStr "conversations/user/bob")].

Definition after_lookup : St Backend.W :=
  mkSt 0%nat [AsUUID (VStr "bob") VUndef; Request lookup_request].

Definition item (n : Z) : value :=
  VObj [("id", VStr (Z_to_string n)); ("published", VNum n)].

Definition listing (zs : list Z) : Spark Backend.W :=
  Backend.spark (Err Backend.not_found) (VArr (map item zs)).

Definition conversations : obj :=
  [("service", VStr "conversation");
   ("resource", VStr "conversations");
   ("qs", VUndef)].

(** Items whose published value is a timestamp of ISO 8601, and a
    backend that lists them, the latest first. *)
Definition stamped (t : string) : value :=
  VObj [("id", VStr t); ("published", VStr t)].

Definition dated (ts : list string) : Spark Backend.W :=
  Backend.spark (Err Backend.not_found) (VArr (map stamped ts)).

Definition latest_first : list string :=
  ["2016-03-01T09:30:00.000Z"; "2016-02-01T09:30:00.000Z";
   "2016-01-01T09:30:00.000Z"].

Definition after_listing : St Backend.W :=
  mkSt 0%nat [Request (list_request conversations)].

(** ** Teams *)

(** An encryption that marks the text it seals. *)
Definition seal (name : string) (team : obj) : obj :=
  match field team name with
  | VStr text => set_field team name (VStr ("sealed:" ++ text))
  | _ => team
  end.

Definition sealing : Team.Ctx Backend.W := {|
  Team.kms_createUnboundKeys :=
    fun _ w => (Ok (VArr [VObj [("uri", VStr "kms://kms.example.com/keys/1")]]), w);
  Team.transform :=
    fun name args team w =>
      if (name =? "encryptPropDisplayName")%string
      then (Ok (seal "displayName" team), w)
      else match args with
           | VStr text :: _ => (Ok (seal text team), w)
           | _ => (Ok team, w)
           end
|}.

Definition new_team : obj :=
  [("displayName", VStr "Ops");
   ("summary", VStr "on call");
   ("kmsMessage",
    VObj [("method", VStr "create");
          ("uri", VStr "/resources");
          ("userIds", VArr [VStr "alice"; VStr "bob"]);
          ("keyUris", VArr [])])].

Definition first_key : value := VObj [("uri", VStr "kms://kms.example.com/keys/1")].

(** A key given as its url. *)
Definition url_key : value := VStr "kms://kms.example.com/keys/5".

(** ** Other backends *)

(** A backend like [sp], with another transport and another KMS. *)
Definition rewired (sp : Spark Backend.W)
    (transport : obj -> Backend.W -> Res obj * Backend.W)
    (kms : obj -> Backend.W -> Res value * Backend.W) : Spark Backend.W := {|
  request := transport;
  device_getServiceUrl := device_getServiceUrl sp;
  device_userId := device_userId sp;
  user_asUUID := user_asUUID sp;
  user_recordUUID := user_recordUUID sp;
  kms_createUnboundKeys := kms;
  uuid_v4 := uuid_v4 sp;
  production := production sp;
  share_add := share_add sp;
  share_prepare := share_prepare sp;
  common_tap := common_tap sp
|}.

(** A backend that cannot be reached. *)
Definition offline : Spark Backend.W :=
  rewired Backend.quiet (fun _ w => (Err Backend.unavailable, w))
    (kms_createUnboundKeys Backend.quiet).

(** A backend that finds the conversation of two and answers every post
    of an activity with [reason]. *)
Definition read_only (reason : obj) : Spark Backend.W :=
  rewired Backend.quiet
    (fun params w =>
       if is_str (field params "resource") "activities" then (Err reason, w)
       else request Backend.quiet params w)
    (kms_createUnboundKeys Backend.quiet).

(** A backend whose KMS mints no key, and the same for the transforms of
    a team. *)
Definition locked : Spark Backend.W :=
  rewired Backend.quiet (request Backend.quiet)
    (fun _ w => (Err Backend.unavailable, w)).

Definition locked_ctx : Team.Ctx Backend.W := {|
  Team.kms_createUnboundKeys := fun _ w => (Err Backend.unavailable, w);
  Team.transform := Team.transform sealing
|}.

(** The class ShareActivity, preparing a share of the files it is
    given. *)
Definition file_sharing : Sharing Backend.W := {|
  shareActivity_prepare :=
    fun _ files _ w =>
      (Ok [("verb", VStr "share");
           ("object", VObj [("objectType", VStr "content");
                            ("files", VObj [("items", files)])])], w)
|}.

(** Transforms of items that mark what they have seen. *)
Definition marking : Team.Items Backend.W := {|
  Team.transform_item :=
    fun _ _ item w => (Ok (set_prop item "seen" (VBool true)), w)
|}.

(** ** More conversations, activities and teams *)

Definition base_url : string := "https://conv.example.com/api/v1".

(** A conversation known by its id, one known by its url, one with the
    other user of a conversation of two, and one that is not known. *)
Definition known_by_id : obj := [("id", VStr "room-9")].

Definition known_by_url : obj :=
  [("url", VStr "https://conv.example.com/api/v1/conversations/room-9")].

Definition with_bob : obj :=
  [("url", VStr "https://conv.example.com/api/v1/conversations/user/bob");
   ("user", VStr "bob")].

Definition unknown : obj := [("displayName", VStr "Ops")].

Definition now_typing : value := VObj [("typing", VBool true)].

(** An activity of the caller, the parameters of a deletion, and the
    activity that [prepare] makes of them. *)
Definition own_activity : obj :=
  [("clientTempId", VStr "mine");
   ("object", VObj [("url", VStr "https://files.example.com/f/42")])].

Definition deletion : value :=
  VObj [("verb", VStr "delete"); ("object", VObj [("objectType", VStr "content")])].

Definition prepared_deletion : obj :=
  [("clientTempId", VStr "mine");
   ("object", VObj [("url", VStr "https://files.example.com/f/42");
                    ("objectType", VStr "content");
                    ("id", VStr "42")]);
   ("verb", VStr "delete");
   ("kmsMessage", VUndef);
   ("objectType", VStr "activity");
   ("actor", VObj [("objectType", VStr "person"); ("id", VStr "alice")])].

(** A listing with a limit of the caller. *)
Definition limited : obj :=
  [("service", VStr "conversation");
   ("resource", VStr "conversations");
   ("qs", VObj [("activitiesLimit", VNum 5)])].

(** Options that ask for mentions where activities are listed. *)
Definition asking_mentions : value :=
  VObj [("mentions", VBool true); ("limit", VNum 10)].

(** The participants of a new conversation, the user of the device among
    them, and the state after their resolution. *)
Definition three_parties : obj :=
  [("participants", VArr [VStr "bob"; VStr "alice"; VStr "carol"]);
   ("displayName", VStr "Ops")].

Definition after_resolution : St Backend.W :=
  mkSt 0%nat
    (map (fun p => AsUUID p (VObj [("create", VBool true)]))
       [VStr "bob"; VStr "alice"; VStr "carol"]).

(** A team with its conversations and its key. *)
Definition keyed_team : obj :=
  [("displayName", VStr "sealed:Ops");
   ("encryptionKeyUrl", VStr "kms://kms.example.com/keys/1");
   ("conversations", VObj [("items", VArr [Backend.room; fresh_room])])].

(** A downloaded file and the item it was downloaded for. *)
Definition picture : value :=
  VObj [("displayName", VStr "a.png"); ("mimeType", VStr "image/png")].

Definition unnamed_file : obj := [("size", VNum 3); ("type", VStr "image/jpeg")].

(** The parameters of a conversation that is created with a file. *)
Definition with_file : value :=
  VObj [("participants", VArr [VStr "alice"; VStr "bob"; VStr "carol"]);
        ("files", VArr [VStr "notes.txt"])].

End Scenario.

(* ================================================================== *)
(** * Properties *)

Module Properties.
Import Js Promise Conversation Spec Scenario.

Lemma requests_app l1 l2 : requests (l1 ++ l2) = (requests l1 ++ requests l2)%list.
Proof. apply flat_map_app. Qed.

Lemma triggers_app l1 l2 : triggers (l1 ++ l2) = (triggers l1 ++ triggers l2)%list.
Proof. apply flat_map_app. Qed.

(** ** [submit] *)

Section Submit.

Context {W : Type} (spark : Spark W).

(** The log of a submission: the notification, unless the verb is
    acknowledge, then the request, whatever its outcome. *)
Lemma submit_log (activity : obj) (s : St W) :
  log (snd (submit spark activity s)) =
  (log s
   ++ (if is_str (field activity "verb") "acknowledge"
       then [] else [Trigger "user-activity"])
   ++ [Request (submit_params activity)])%list.
Proof.
  unfold submit, bind, emit, ret, do_request, call.
  destruct (is_str (field activity "verb") "acknowledge"); cbn [negb log world].
  - destruct (request spark (submit_params activity) (world s)) as [[res|r] w];
      reflexivity.
  - destruct (request spark (submit_params activity) (world s)) as [[res|r] w];
      cbn [log snd]; now rewrite <- app_assoc.
Qed.

(** C6. A submission makes exactly one request.  Its body is the activity
    and its query always has personRefresh=true.  For the verb share it
    goes to the content resource with transcode=true and async=false; for
    any other verb it goes to the activities resource with personRefresh
    alone. *)
Theorem submit_routing (activity : obj) (s : St W) :
  let shared := is_str (field activity "verb") "share" in
  let p := submit_params activity in
  requests (log (snd (submit spark activity s))) = (requests (log s) ++ [p])%list
  /\ field p "body" = VObj activity
  /\ prop (field p "qs") "personRefresh" = VBool true
  /\ field p "resource" = VStr (if shared then "content" else "activities")
  /\ field p "qs" =
       VObj (if shared
             then [("personRefresh", VBool true);
                   ("transcode", VBool true);
                   ("async", VBool false)]
             else [("personRefresh", VBool true)]).
Proof.
  cbv zeta. split.
  - rewrite submit_log, !requests_app.
    destruct (is_str (field activity "verb") "acknowledge"); reflexivity.
  - unfold submit_params.
    destruct (is_str (field activity "verb") "share"); cbn; auto.
Qed.

(** C7. A submission raises the user-activity notification exactly when
    the verb of the activity is not acknowledge, and then once. *)
Theorem submit_user_activity (activity : obj) (s : St W) :
  triggers (log (snd (submit spark activity s))) =
  (triggers (log s)
   ++ (if is_str (field activity "verb") "acknowledge"
       then [] else ["user-activity"]))%list.
Proof.
  rewrite submit_log, !triggers_app.
  destruct (is_str (field activity "verb") "acknowledge"); cbn;
    now rewrite ?app_nil_r.
Qed.

End Submit.

(** ** [assign] *)

Section Assign.

Context {W : Type} (spark : Spark W).

(** C10. An avatar whose size, or whose length when it has no size, is
    above 1048576 is refused with "Room avatars must be less than 1MB",
    and the state is the one [assign] started in: no URL was inferred,
    nothing was prepared, no request was made. *)
Theorem assign_rejects_large_avatar
    (conversation avatar : value) (n : Z) (s : St W) :
  prop avatar "size" = VNum n
  \/ (truthy (prop avatar "size") = false /\ prop avatar "length" = VNum n) ->
  1048576 < n ->
  assign spark conversation avatar s = (Err avatar_error, s).
Proof.
  intros Hsize Hn.
  assert (Hbytes : or_else (prop avatar "size") (prop avatar "length") = VNum n).
  { unfold or_else. destruct Hsize as [E | [E1 E2]].
    - rewrite E. cbn. destruct (Z.eqb_spec n 0); [lia | reflexivity].
    - now rewrite E1. }
  assert (Havatar : member avatar "size" = Ok (prop avatar "size")).
  { unfold member. destruct avatar; try reflexivity;
      destruct Hsize as [E | [_ E]]; discriminate E. }
  unfold assign, bind, lift. rewrite Havatar, Hbytes.
  unfold gt, lt, avatar_limit. cbn [to_number].
  destruct (Z.ltb_spec (1024 * 1024) n); [reflexivity | lia].
Qed.

End Assign.

Lemma assign_rejects_large_avatar_witness :
  assign Backend.quiet Backend.room (VObj [("size", VNum 2000000)]) Backend.s0
  = (Err avatar_error, Backend.s0)
  /\ assign Backend.quiet Backend.room
       (VObj [("size", VNum 0); ("length", VNum 1048577)]) Backend.s0
     = (Err avatar_error, Backend.s0).
Proof.
  split.
  - apply (assign_rejects_large_avatar Backend.quiet Backend.room
             (VObj [("size", VNum 2000000)]) 2000000 Backend.s0).
    + left. reflexivity.
    + lia.
  - apply (assign_rejects_large_avatar Backend.quiet Backend.room
             (VObj [("size", VNum 0); ("length", VNum 1048577)]) 1048577
             Backend.s0).
    + right. split; reflexivity.
    + lia.
Defined.

(** An avatar of exactly 1MB passes the guard and is submitted with the
    verb assign. *)
Example assign_accepts_1MB :
  requests (log (snd (assign Backend.quiet Backend.room
                        (VObj [("size", VNum 1048576)]) Backend.s0)))
  = [submit_params
       [("verb", VStr "assign");
        ("object", VObj [("objectType", VStr "content");
                         ("files", VObj [("items", VArr [VObj [("size", VNum 1048576)]])])]);
        ("kmsMessage", VUndef);
        ("objectType", VStr "activity");
        ("clientTempId", VStr "temp-0");
        ("actor", VObj [("objectType", VStr "person"); ("id", VStr "alice")]);
        ("target", VObj [("id", VStr "room-1");
                         ("url", VStr "https://conv.example.com/api/v1/conversations/room-1");
                         ("objectType", VStr "conversation")])]].
Proof. vm_compute. reflexivity. Qed.

(** ** [prepare] *)

Lemma check_objectType_passes (act : obj) (keys : list string) :
  check_objectType act keys = Ok tt <->
  (forall key, In key keys -> populated act key -> typed act key).
Proof.
  unfold populated, typed. induction keys as [|k keys IH]; cbn.
  - split; [intros _ key [] | reflexivity].
  - destruct (truthy (field act k)) eqn:Ek;
      destruct (truthy (prop (field act k) "objectType")) eqn:Et; cbn.
    + rewrite IH. split.
      * intros H key [<- | Hin]; auto.
      * intros H key Hin. apply H. now right.
    + split; [discriminate |].
      intros H. specialize (H k (or_introl eq_refl) Ek). congruence.
    + rewrite IH. split.
      * intros H key [<- | Hin]; [congruence | auto].
      * intros H key Hin. apply H. now right.
    + rewrite IH. split.
      * intros H key [<- | Hin]; [congruence | auto].
      * intros H key Hin. apply H. now right.
Qed.

Lemma check_objectType_fails (act : obj) (keys : list string) (key : string) :
  In key keys -> populated act key -> ~ typed act key ->
  exists k, In k keys /\ check_objectType act keys = Err (construction_error k).
Proof.
  unfold populated, typed. induction keys as [|k keys IH]; cbn; [intros [] |].
  intros Hin Hp Ht.
  destruct (truthy (field act k) &&
            negb (truthy (prop (field act k) "objectType"))) eqn:E.
  - exists k. split; [now left | reflexivity].
  - destruct Hin as [<- | Hin].
    + rewrite Hp in E. cbn in E.
      destruct (truthy (prop (field act k) "objectType")); [now elim Ht | discriminate].
    + destruct (IH Hin Hp Ht) as (k' & Hk' & Herr).
      exists k'. split; [now right | exact Herr].
Qed.

Lemma validate_returns (w act : obj) :
  validate w = Ok act ->
  act = w /\ check_objectType w entity_keys = Ok tt.
Proof.
  unfold validate, check_content, entity_keys.
  destruct (check_objectType w ["actor"; "object"; "target"]) as [[]|r];
    [| discriminate].
  destruct (_ && _); [discriminate |].
  intros [= <-]. auto.
Qed.

Section Prepare.

Context {W : Type} (spark : Spark W).

Lemma prepare_after_working (activity : partial W) (params : value)
    (s s' : St W) (w : obj) :
  working spark activity params s = (Ok w, s') ->
  prepare spark activity params s = (validate w, s').
Proof. intros H. unfold prepare, bind, lift. now rewrite H. Qed.

Lemma prepare_returns_working (activity : partial W) (params : value)
    (s s' : St W) (act : obj) :
  prepare spark activity params s = (Ok act, s') ->
  working spark activity params s = (Ok act, s') /\ validate act = Ok act.
Proof.
  unfold prepare, bind, lift.
  destruct (working spark activity params s) as [[w|r] s1]; [| discriminate].
  intros [= Hv <-]. destruct (validate_returns _ _ Hv) as [-> _]. auto.
Qed.

(** C3. An activity that [prepare] returns has an objectType on each of
    actor, object and target that is populated.  When the working
    activity has a populated one without objectType, [prepare] fails with
    the construction error of the first such field and returns nothing;
    when it has none, and no content without displayName, [prepare]
    returns it. *)
Theorem prepare_objectType (activity : partial W) (params : value) (s : St W) :
  (forall act s',
      prepare spark activity params s = (Ok act, s') ->
      forall key, In key entity_keys -> populated act key -> typed act key)
  /\ (forall w s' key,
         working spark activity params s = (Ok w, s') ->
         In key entity_keys -> populated w key -> ~ typed w key ->
         exists k, In k entity_keys
           /\ prepare spark activity params s = (Err (construction_error k), s'))
  /\ (forall w s',
         working spark activity params s = (Ok w, s') ->
         (forall key, In key entity_keys -> populated w key -> typed w key) ->
         ~ content_without_displayName w ->
         prepare spark activity params s = (Ok w, s')).
Proof.
  split; [| split].
  - intros act s' H.
    destruct (prepare_returns_working _ _ _ _ _ H) as [_ Hv].
    destruct (validate_returns _ _ Hv) as [_ Hc].
    now apply check_objectType_passes.
  - intros w s' key Hw Hin Hp Ht.
    destruct (check_objectType_fails w entity_keys key Hin Hp Ht) as (k & Hk & E).
    exists k. split; [exact Hk |].
    rewrite (prepare_after_working _ _ _ _ _ Hw).
    unfold validate. fold entity_keys. now rewrite E.
  - intros w s' Hw Hall Hc.
    rewrite (prepare_after_working _ _ _ _ _ Hw).
    apply check_objectType_passes in Hall.
    unfold validate. fold entity_keys. rewrite Hall.
    unfold check_content, content_without_displayName in *.
    destruct (truthy (field w "object")); cbn; [| reflexivity].
    destruct (truthy (prop (field w "object") "content")); cbn; [| reflexivity].
    destruct (truthy (prop (field w "object") "displayName")); cbn; [reflexivity |].
    elim Hc. auto.
Qed.

(** C8, as amended.  When the object of the working activity has content
    and no displayName, [prepare] rejects and returns no activity; the
    rejection is the content error whenever every populated one of actor,
    object and target has an objectType, the check that runs first. *)
Theorem prepare_content_without_displayName
    (activity : partial W) (params : value) (s s' : St W) (w : obj) :
  working spark activity params s = (Ok w, s') ->
  content_without_displayName w ->
  (exists reason, prepare spark activity params s = (Err reason, s'))
  /\ ((forall key, In key entity_keys -> populated w key -> typed w key) ->
      prepare spark activity params s = (Err semantic_validation_error, s')).
Proof.
  intros Hw [Hc Hd].
  rewrite (prepare_after_working _ _ _ _ _ Hw).
  assert (Ho : truthy (field w "object") = true).
  { destruct (field w "object"); try discriminate Hc; reflexivity. }
  assert (Hcheck : check_content w = Err content_error).
  { unfold check_content. now rewrite Ho, Hc, Hd. }
  split.
  - unfold validate.
    destruct (check_objectType w ["actor"; "object"; "target"]) as [[]|r].
    + rewrite Hcheck. eauto.
    + eauto.
  - intros Hall. apply check_objectType_passes in Hall.
    unfold validate. fold entity_keys. now rewrite Hall, Hcheck.
Qed.

End Prepare.

(** *** [prepare] on the concrete backend *)

Example prepare_hello :
  prepare Backend.quiet Absent hello_params Backend.s0
  = (Ok hello_activity, after_uuid).
Proof. vm_compute. reflexivity. Qed.

(** The id of an object is the last segment of its url (lines 420-424),
    and an activity given by the caller keeps what it has. *)
Example prepare_derives_id :
  prepare Backend.quiet
    (Plain [("clientTempId", VStr "mine");
            ("object", VObj [("url", VStr "https://files.example.com/f/42")])])
    (VObj [("verb", VStr "delete"); ("object", VObj [("objectType", VStr "content")])])
    Backend.s0
  = (Ok [("clientTempId", VStr "mine");
         ("object", VObj [("url", VStr "https://files.example.com/f/42");
                          ("objectType", VStr "content");
                          ("id", VStr "42")]);
         ("verb", VStr "delete");
         ("kmsMessage", VUndef);
         ("objectType", VStr "activity");
         ("actor", VObj [("objectType", VStr "person"); ("id", VStr "alice")])],
     after_uuid).
Proof. vm_compute. reflexivity. Qed.

Lemma prepare_objectType_witness :
  typed hello_activity "target"
  /\ (exists k, In k entity_keys
        /\ prepare Backend.quiet untyped_target VUndef Backend.s0
           = (Err (construction_error k), after_uuid))
  /\ prepare Backend.quiet Absent hello_params Backend.s0
     = (Ok hello_activity, after_uuid).
Proof.
  split; [| split].
  - apply (proj1 (prepare_objectType Backend.quiet Absent hello_params Backend.s0)
             hello_activity after_uuid).
    + vm_compute. reflexivity.
    + right. right. left. reflexivity.
    + vm_compute. reflexivity.
  - eapply (proj1 (proj2 (prepare_objectType Backend.quiet untyped_target VUndef
                            Backend.s0)))
      with (key := "target").
    + vm_compute. reflexivity.
    + right. right. left. reflexivity.
    + vm_compute. reflexivity.
    + vm_compute. discriminate.
  - apply (proj2 (proj2 (prepare_objectType Backend.quiet Absent hello_params
                           Backend.s0))).
    + vm_compute. reflexivity.
    + intros key [<- | [<- | [<- | []]]] _; vm_compute; reflexivity.
    + intros [H _]. vm_compute in H. discriminate H.
Defined.

Lemma prepare_content_without_displayName_witness :
  prepare Backend.quiet rich_comment VUndef Backend.s0
  = (Err semantic_validation_error, after_uuid).
Proof.
  refine (proj2 (prepare_content_without_displayName Backend.quiet rich_comment
                   VUndef Backend.s0 after_uuid _ _ _) _).
  - vm_compute. reflexivity.
  - split; vm_compute; reflexivity.
  - intros key [<- | [<- | [<- | []]]] Hp; vm_compute in Hp |- *;
      (reflexivity || discriminate Hp).
Defined.

(** C8, as stated, fails: the object of the working activity has content
    and no displayName, and the rejection is not the content error but
    the construction error of the objectType check, which runs first. *)
Lemma prepare_content_error_shadowed :
  exists w,
    working Backend.quiet bare_content VUndef Backend.s0 = (Ok w, after_uuid)
    /\ content_without_displayName w
    /\ prepare Backend.quiet bare_content VUndef Backend.s0
       = (Err (construction_error "object"), after_uuid)
    /\ construction_error "object" <> semantic_validation_error.
Proof.
  eexists. split; [vm_compute; reflexivity |].
  split; [split; vm_compute; reflexivity |].
  split; [vm_compute; reflexivity | discriminate].
Qed.

(** ** Fields of objects *)

Lemma field_set_field (o : obj) (k : string) (v : value) :
  field (set_field o k v) k = v.
Proof.
  induction o as [|[k' v'] o IH]; cbn.
  - now rewrite String.eqb_refl.
  - destruct (k' =? k)%string eqn:E; cbn.
    + now rewrite String.eqb_refl.
    + now rewrite E.
Qed.

Lemma field_set_field_other (o : obj) (k k' : string) (v : value) :
  k <> k' -> field (set_field o k v) k' = field o k'.
Proof.
  intros Hne. induction o as [|[k0 v0] o IH]; cbn.
  - destruct (String.eqb_spec k k'); [contradiction | reflexivity].
  - destruct (String.eqb_spec k0 k) as [-> | Hk]; cbn.
    + destruct (String.eqb_spec k k'); [contradiction | reflexivity].
    + destruct (k0 =? k')%string; [reflexivity | exact IH].
Qed.

(** ** The kmsMessage of the parameters reaches the activity *)

Lemma defaults_step_same (o : obj) (k : string) (v : value) :
  field (match field o k with VUndef => set_field o k v | _ => o end) k
  = match field o k with VUndef => v | x => x end.
Proof. destruct (field o k) eqn:E; rewrite ?field_set_field; congruence. Qed.

Lemma defaults_step_other (o : obj) (k k' : string) (v : value) :
  k <> k' ->
  field (match field o k with VUndef => set_field o k v | _ => o end) k'
  = field o k'.
Proof.
  intros Hne. destruct (field o k); try reflexivity.
  now apply field_set_field_other.
Qed.


Lemma derive_id_keeps (act w : obj) (key other : string) :
  key <> other -> derive_id act key = Ok w -> field w other = field act other.
Proof.
  intros Hne. unfold derive_id.
  destruct (_ && _); [| now intros [= <-]].
  destruct (prop (field act key) "url"); try discriminate.
  intros [= <-]. now apply field_set_field_other.
Qed.

Lemma default_from_params_keeps (params : value) (act : obj) (key other : string) :
  key <> other -> field (default_from_params params act key) other = field act other.
Proof.
  intros Hne. unfold default_from_params.
  destruct (truthy (prop params key)); [| reflexivity].
  now apply field_set_field_other.
Qed.



(** ** [_updateKey] *)



Section UpdateKey.

Context {W : Type} (spark : Spark W).



End UpdateKey.

(** *** [_updateKey] on the concrete backend *)


(** The instruction reaches the backend in the body of the request. *)
Example updateKey_creates_resource :
  map (fun p => prop (field p "body") "kmsMessage")
    (requests (log (snd (updateKey_ Backend.quiet fresh_room VUndef Absent Backend.s0))))
  = [create_instruction [VStr "alice"; VStr "bob"]
       (VStr "kms://kms.example.com/keys/1")].
Proof. vm_compute. reflexivity. Qed.

Example updateKey_updates_resource :
  map (fun p => prop (field p "body") "kmsMessage")
    (requests (log (snd (updateKey_ Backend.quiet keyed_room second_key Absent Backend.s0))))
  = [update_instruction (VStr "kms://kms.example.com/keys/2")].
Proof. vm_compute. reflexivity. Qed.

(** ** [_maybeCreateOneOnOneThenPost] *)

Lemma is_num_true (v : value) (n : Z) : is_num v n = true <-> v = VNum n.
Proof.
  destruct v; cbn; try (split; [discriminate | intros [=]]).
  rewrite Z.eqb_eq. split; [now intros -> | now intros [= ->]].
Qed.

Section OneOnOne.

Context {W : Type} (spark : Spark W).

Lemma create_log (payload : obj) (s : St W) :
  log (snd (create_ spark payload s)) = (log s ++ [Request (creation_request payload)])%list.
Proof.
  unfold create_, bind, do_request, call, ret. fold (creation_request payload).
  destruct (request spark (creation_request payload) (world s)) as [[res|r] w];
    reflexivity.
Qed.

Lemma prepareConversationForCreation_total
    (params : value) (participants : list value) (s : St W) :
  prop params "participants" = VArr participants ->
  exists payload, prepareConversationForCreation spark params s = (Ok payload, s).
Proof.
  intros H. unfold prepareConversationForCreation, bind, userId, ret.
  rewrite H. eauto.
Qed.

(** C2. In a request of two parties whose lookup fails: a failure with
    statusCode 404 makes the resolver create a conversation, by one
    request whose payload has the tags ["ONE_ON_ONE"], and the resolver
    settles as that creation does; any other failure is the rejection of
    the resolver, as it is, and the state is the one the lookup left, so
    that no creation was attempted. *)
Theorem one_on_one_fallback
    (params options me other : value) (reason : obj) (s s1 : St W) :
  prop params "participants" = VArr [me; other] ->
  get spark (VObj [("user", other)]) options s = (Err reason, s1) ->
  (field reason "statusCode" = VNum 404 ->
   exists payload,
     field payload "tags" = VArr [VStr "ONE_ON_ONE"]
     /\ maybeCreateOneOnOneThenPost spark params options s
        = create_ spark payload s1
     /\ log (snd (maybeCreateOneOnOneThenPost spark params options s))
        = (log s1 ++ [Request (creation_request payload)])%list)
  /\ (field reason "statusCode" <> VNum 404 ->
      maybeCreateOneOnOneThenPost spark params options s = (Err reason, s1)).
Proof.
  intros Hparts Hget.
  assert (Hwho : other_user params = Ok (VObj [("user", other)])).
  { unfold other_user, member.
    destruct params; try discriminate Hparts; cbn [nullish];
      rewrite Hparts; reflexivity. }
  assert (Hrun : maybeCreateOneOnOneThenPost spark params options s
                 = create_on_miss spark params reason s1).
  { unfold maybeCreateOneOnOneThenPost, bind, lift, catch.
    rewrite Hwho, Hget. reflexivity. }
  rewrite Hrun. unfold create_on_miss. split.
  - intros H404. apply is_num_true in H404. rewrite H404. cbn [negb].
    destruct (prepareConversationForCreation_total params _ s1 Hparts) as [p Hp].
    exists (set_field p "tags" (VArr [VStr "ONE_ON_ONE"])).
    unfold bind. rewrite Hp.
    split; [apply field_set_field | split; [reflexivity | apply create_log]].
  - intros Hother.
    destruct (is_num (field reason "statusCode") 404) eqn:E; [| reflexivity].
    apply is_num_true in E. contradiction.
Qed.

(** Without a comment the conversation that was found is returned as it
    was found. *)
Lemma found_without_comment
    (params options me other conversation : value) (s s1 : St W) :
  prop params "participants" = VArr [me; other] ->
  get spark (VObj [("user", other)]) options s = (Ok conversation, s1) ->
  truthy (prop params "comment") = false ->
  maybeCreateOneOnOneThenPost spark params options s = (Ok conversation, s1).
Proof.
  intros Hparts Hget Hc.
  assert (Hwho : other_user params = Ok (VObj [("user", other)])).
  { unfold other_user, member.
    destruct params; try discriminate Hparts; cbn [nullish];
      rewrite Hparts; reflexivity. }
  unfold maybeCreateOneOnOneThenPost, bind, lift, catch, post_comment, ret.
  now rewrite Hwho, Hget, Hc.
Qed.

(** C5 fails on the code.  In a request of two parties whose lookup finds
    a conversation, with a comment: the comment is posted, and the
    activity is then pushed on [conversation.activities] itself.  When
    that is the collection object of the conversation, {items: [...]},
    which has no push, the resolver rejects with a TypeError in the state
    that the post left; it does not return the conversation with the
    activity appended to [activities.items]. *)
Theorem one_on_one_comment_not_appended
    (params options me other conversation posted found : value)
    (collection : obj) (s s1 s2 : St W) :
  prop params "participants" = VArr [me; other] ->
  get spark (VObj [("user", other)]) options s = (Ok conversation, s1) ->
  truthy (prop params "comment") = true ->
  post spark conversation (VObj [("displayName", prop params "comment")]) Absent s1
  = (Ok (posted, found), s2) ->
  prop found "activities" = VObj collection ->
  maybeCreateOneOnOneThenPost spark params options s
  = (Err (TypeError "conversation.activities.push is not a function"), s2).
Proof.
  intros Hparts Hget Hc Hpost Hcoll.
  assert (Hwho : other_user params = Ok (VObj [("user", other)])).
  { unfold other_user, member.
    destruct params; try discriminate Hparts; cbn [nullish];
      rewrite Hparts; reflexivity. }
  assert (Hmember : member found "activities" = Ok (VObj collection)).
  { unfold member. destruct found; try discriminate Hcoll; cbn [nullish];
      now rewrite Hcoll. }
  unfold maybeCreateOneOnOneThenPost, bind, lift, catch, post_comment.
  rewrite Hwho, Hget, Hc. unfold bind. rewrite Hpost. unfold lift.
  rewrite Hmember. reflexivity.
Qed.

End OneOnOne.

(** *** The resolver on the concrete backend *)

Lemma one_on_one_fallback_witness :
  (exists payload,
      field payload "tags" = VArr [VStr "ONE_ON_ONE"]
      /\ maybeCreateOneOnOneThenPost missing two_parties VUndef Backend.s0
         = create_ missing payload after_lookup
      /\ log (snd (maybeCreateOneOnOneThenPost missing two_parties VUndef Backend.s0))
         = (log after_lookup ++ [Request (creation_request payload)])%list)
  /\ maybeCreateOneOnOneThenPost down two_parties VUndef Backend.s0
     = (Err Backend.unavailable, after_lookup).
Proof.
  split.
  - apply (proj1 (one_on_one_fallback missing two_parties VUndef (VStr "alice")
                    (VStr "bob") Backend.not_found Backend.s0 after_lookup
                    eq_refl eq_refl)).
    reflexivity.
  - apply (proj2 (one_on_one_fallback down two_parties VUndef (VStr "alice")
                    (VStr "bob") Backend.unavailable Backend.s0 after_lookup
                    eq_refl eq_refl)).
    discriminate.
Defined.

(** The conversation that the fallback creates. *)
Example one_on_one_created :
  let r := maybeCreateOneOnOneThenPost missing two_parties VUndef Backend.s0 in
  map (fun p => (field p "resource", prop (field p "body") "tags"))
    (requests (log (snd r)))
  = [(VStr "conversations/user/bob", VUndef);
     (VStr "conversations", VArr [VStr "ONE_ON_ONE"])]
  /\ exists created,
       fst r = Ok created
       /\ prop created "id" = VStr "conversation-1"
       /\ map (fun a => prop a "verb") (match prop (prop created "activities") "items" with
                                        | VArr l => l
                                        | _ => []
                                        end)
          = [VStr "create"; VStr "add"; VStr "add"; VStr "post"].
Proof. split; [| eexists; split; [| split]]; vm_compute; reflexivity. Qed.

(** The lookup finds the conversation [Backend.room], whose activities
    are the collection {items: []}, and a comment is supplied. *)
Lemma one_on_one_comment_not_appended_witness :
  exists s2,
    maybeCreateOneOnOneThenPost Backend.quiet two_parties VUndef Backend.s0
    = (Err (TypeError "conversation.activities.push is not a function"), s2).
Proof.
  eexists.
  eapply (one_on_one_comment_not_appended Backend.quiet two_parties VUndef
            (VStr "alice") (VStr "bob") Backend.room).
  - reflexivity.
  - vm_compute. reflexivity.
  - reflexivity.
  - vm_compute. reflexivity.
  - reflexivity.
Defined.

(** The requests of that call: the lookup, then the comment. *)
Example one_on_one_comment_posted :
  map (fun p => field p "resource")
    (requests (log (snd (maybeCreateOneOnOneThenPost Backend.quiet two_parties
                           VUndef Backend.s0))))
  = [VStr "conversations/user/bob"; VStr "activities"].
Proof. vm_compute. reflexivity. Qed.

(** The same push, when [activities] is an array, appends to it: the code
    treats the collection as the list of its items. *)
Example push_appends_to_an_array :
  push "conversation.activities" (VArr [VStr "first"]) (VStr "posted")
  = Ok (VArr [VStr "first"; VStr "posted"]).
Proof. reflexivity. Qed.

(** ** [_list] *)

Lemma last_cons_cons {A} (a b : A) (l : list A) (d : A) :
  List.last (a :: b :: l) d = List.last (b :: l) d.
Proof. reflexivity. Qed.

Lemma published_last (items : list value) :
  published (List.last items VUndef) = List.last (map published items) VUndef.
Proof.
  induction items as [|i items IH]; [reflexivity |].
  destruct items as [|i' items]; [reflexivity |].
  cbn [map]. rewrite !last_cons_cons. exact IH.
Qed.

Lemma published_first (items : list value) :
  published (nth 0 items VUndef) = hd VUndef (map published items).
Proof. destruct items; reflexivity. Qed.

Lemma member_published (v : value) :
  nullish v = false -> member v "published" = Ok (published v).
Proof. unfold member. now intros ->. Qed.

(** *** Sorted sequences *)

Lemma sorted_app {A} (R : A -> A -> Prop) (l : list A) (a : A) :
  StronglySorted R l -> Forall (fun x => R x a) l ->
  StronglySorted R (l ++ [a]).
Proof.
  induction 1 as [|x l Hs IH Hx]; intros Hall; cbn.
  - constructor; constructor.
  - inversion Hall as [|? ? Hxa Hla]; subst.
    constructor; [now apply IH |].
    apply Forall_app. split; [exact Hx | now constructor].
Qed.

Lemma sorted_rev {A} (R : A -> A -> Prop) (l : list A) :
  StronglySorted (fun a b => R b a) l -> StronglySorted R (rev l).
Proof.
  induction 1 as [|x l Hs IH Hx]; cbn.
  - constructor.
  - apply sorted_app; [exact IH |]. now apply Forall_rev.
Qed.

(** In a sorted sequence every element is the last or is related to the
    last. *)
Lemma sorted_last {A} (R : A -> A -> Prop) (l : list A) (d y : A) :
  StronglySorted R l -> In y l -> y = List.last l d \/ R y (List.last l d).
Proof.
  induction 1 as [|x l Hs IH Hx]; [intros [] |].
  destruct l as [|x' l].
  - intros [<- | []]. now left.
  - rewrite last_cons_cons. intros [<- | Hin].
    + right. rewrite Forall_forall in Hx. apply Hx.
      destruct (@exists_last _ (x' :: l) ltac:(discriminate)) as (l' & z & E).
      rewrite E, last_last. apply in_or_app. right. now left.
    + now apply IH.
Qed.

Lemma related_sorted {A} (R : A -> A -> Prop) (l : list A) :
  (forall x y, In x l -> In y l -> R x y) -> StronglySorted R l.
Proof.
  induction l as [|a l IH]; intros H; constructor.
  - apply IH. intros x y Hx Hy. apply H; now right.
  - apply Forall_forall. intros y Hy. apply H; [now left | now right].
Qed.

(** *** The order of numbers and of strings under [<] *)

Lemma not_after_number (a b : Z) : not_after (VNum a) (VNum b) <-> a <= b.
Proof. unfold not_after. cbn. apply Z.ltb_ge. Qed.

Lemma ascii_compare_refl (a : ascii) : Ascii.compare a a = Eq.
Proof. unfold Ascii.compare. apply N.compare_refl. Qed.

Lemma ascii_compare_gt_trans (a b c : ascii) :
  Ascii.compare a b = Gt -> Ascii.compare b c = Gt -> Ascii.compare a c = Gt.
Proof.
  unfold Ascii.compare. rewrite !N.compare_gt_iff. intros H1 H2.
  now apply (N.lt_trans _ (N_of_ascii b)).
Qed.

Lemma string_compare_refl (x : string) : String.compare x x = Eq.
Proof.
  induction x as [|a x IH]; cbn; [reflexivity |].
  now rewrite ascii_compare_refl.
Qed.

Lemma string_compare_trans (x y z : string) :
  String.compare x y <> Lt -> String.compare y z <> Lt ->
  String.compare x z <> Lt.
Proof.
  revert y z. induction x as [|a x IH]; intros [|b y] [|c z]; cbn;
    try congruence.
  destruct (Ascii.compare a b) eqn:E1; try congruence;
    destruct (Ascii.compare b c) eqn:E2; try congruence.
  - apply Ascii.compare_eq_iff in E1, E2. subst.
    rewrite ascii_compare_refl. apply IH.
  - apply Ascii.compare_eq_iff in E1. subst. rewrite E2. discriminate.
  - apply Ascii.compare_eq_iff in E2. subst. rewrite E1. discriminate.
  - rewrite (ascii_compare_gt_trans _ _ _ E1 E2). discriminate.
Qed.

Lemma not_after_text (a b : string) :
  not_after (VStr a) (VStr b) <-> String.compare b a <> Lt.
Proof.
  unfold not_after. cbn [lt]. unfold String.ltb.
  destruct (String.compare b a); split; congruence.
Qed.

Lemma not_after_refl (v : value) : number v \/ text v -> not_after v v.
Proof.
  intros [[z ->] | [t ->]].
  - apply not_after_number. lia.
  - apply not_after_text. rewrite string_compare_refl. discriminate.
Qed.

Lemma not_after_trans_numbers (a b c : value) :
  number a -> number b -> number c ->
  not_after a b -> not_after b c -> not_after a c.
Proof.
  intros [x ->] [y ->] [z ->]. rewrite !not_after_number. lia.
Qed.

Lemma not_after_trans_texts (a b c : value) :
  text a -> text b -> text c ->
  not_after a b -> not_after b c -> not_after a c.
Proof.
  intros [x ->] [y ->] [z ->]. rewrite !not_after_text.
  intros H1 H2. exact (string_compare_trans z y x H2 H1).
Qed.

Lemma chronological_numbers (zs : list Z) :
  chronological (map VNum zs) <-> ascending zs.
Proof.
  unfold chronological, ascending.
  induction zs as [|a zs IH]; cbn [map]; [split; constructor |].
  split; intros H; apply StronglySorted_inv in H as [Hs Hall];
    (constructor; [now apply IH |]).
  - rewrite Forall_map in Hall. eapply Forall_impl; [| exact Hall].
    intros b. apply not_after_number.
  - rewrite Forall_map. eapply Forall_impl; [| exact Hall].
    intros b. apply not_after_number.
Qed.

(** A monotone sequence of values of one kind, reversed exactly when its
    last element is before its first, is chronological. *)
Lemma monotone_oriented (P : value -> Prop) (stamps : list value) :
  (forall v, P v -> not_after v v) ->
  (forall a b c, P a -> P b -> P c ->
                 not_after a b -> not_after b c -> not_after a c) ->
  Forall P stamps ->
  chronological stamps \/ reverse_chronological stamps ->
  chronological
    (if lt (List.last stamps VUndef) (hd VUndef stamps) then rev stamps
     else stamps).
Proof.
  intros Hrefl Htrans HP.
  destruct stamps as [|a l]; [intros _; cbn; constructor |].
  cbn [hd].
  assert (Hlast : In (List.last (a :: l) VUndef) (a :: l)).
  { destruct (@exists_last _ (a :: l) ltac:(discriminate)) as (l' & z & E).
    rewrite E, last_last. apply in_or_app. right. now left. }
  rewrite Forall_forall in HP.
  intros [Hasc | Hdesc].
  - assert (E : lt (List.last (a :: l) VUndef) a = false).
    { destruct (sorted_last _ _ VUndef a Hasc (or_introl eq_refl)) as [<- | H].
      - apply Hrefl, HP. now left.
      - exact H. }
    now rewrite E.
  - destruct (lt (List.last (a :: l) VUndef) a) eqn:E.
    + now apply sorted_rev.
    + apply related_sorted. intros x y Hx Hy.
      assert (Hxa : not_after x a).
      { destruct Hx as [<- | Hx]; [apply Hrefl, HP; now left |].
        apply StronglySorted_inv in Hdesc as [_ Hall].
        rewrite Forall_forall in Hall. now apply Hall. }
      assert (Hly : not_after (List.last (a :: l) VUndef) y).
      { destruct (sorted_last _ _ VUndef y Hdesc Hy) as [<- | H].
        - now apply Hrefl, HP.
        - exact H. }
      apply (Htrans x a y); [now apply HP | apply HP; now left | now apply HP
                            | exact Hxa |].
      apply (Htrans a (List.last (a :: l) VUndef) y);
        [apply HP; now left | now apply HP | now apply HP | exact E | exact Hly].
Qed.

Section List.

Context {W : Type} (spark : Spark W).

(** C4, as amended.  For a backend that answers with a non-empty
    collection of items, the first and the last of which are not null
    or undefined, and when the recording of the UUIDs of the items
    completes: [_list] returns the items reversed exactly when the
    published value of the last is below that of the first, as [<]
    compares them, and in the order of the backend otherwise.  When the
    published values are all numbers or all strings, the result is
    chronological whenever the answer of the backend was chronological
    or the reverse of it. *)
Theorem list_order
    (options res : obj) (items : list value) (w1 : W)
    (s s2 : St W) (recorded : list unit) :
  let stamps := map published items in
  let backwards := lt (List.last stamps VUndef) (hd VUndef stamps) in
  let result := if backwards then rev items else items in
  request spark (list_request options) (world s) = (Ok res, w1) ->
  prop (field res "body") "items" = VArr items ->
  items <> [] ->
  nullish (nth 0 items VUndef) = false ->
  nullish (List.last items VUndef) = false ->
  all_map (recordUUIDs spark) result
    (mkSt w1 (log s ++ [Request (list_request options)]))
  = (Ok recorded, s2) ->
  list_ spark options s = (Ok (VArr result), s2)
  /\ map published result = (if backwards then rev stamps else stamps)
  /\ (timestamps stamps ->
      chronological stamps \/ reverse_chronological stamps ->
      chronological (map published result)).
Proof.
  intros stamps backwards result Hreq Hitems Hne Hfirst Hlast Hrec.
  assert (Hpub : map published result = if backwards then rev stamps else stamps).
  { unfold result, stamps. destruct backwards; [| reflexivity].
    now rewrite map_rev. }
  split; [| split; [exact Hpub |]].
  - unfold list_, bind, do_request, call. fold (list_request options).
    rewrite Hreq.
    assert (Hbody : truthy (field res "body") = true).
    { destruct (field res "body"); try discriminate Hitems; reflexivity. }
    assert (Hlen : is_num (prop (VArr items) "length") 0 = false).
    { cbn. destruct items; [congruence | reflexivity]. }
    rewrite Hbody, Hitems, Hlen. cbn [truthy negb orb].
    unfold lift, Lodash.last, at_index.
    rewrite (member_published _ Hlast), (member_published _ Hfirst).
    rewrite published_last, published_first.
    fold stamps. fold backwards. fold result.
    rewrite Hrec. reflexivity.
  - intros Hkind Hmono. rewrite Hpub. unfold backwards.
    destruct Hkind as [Hn | Ht].
    + apply (monotone_oriented number); try assumption.
      * intros v Hv. apply not_after_refl. now left.
      * apply not_after_trans_numbers.
    + apply (monotone_oriented text); try assumption.
      * intros v Hv. apply not_after_refl. now right.
      * apply not_after_trans_texts.
Qed.

End List.

(** *** [_list] on the concrete backend *)

(** The published values 5, 3, 1 come back as 1, 3, 5; timestamps of
    ISO 8601 that come latest first come back earliest first. *)
Lemma list_order_witness :
  (list_ (listing [5; 3; 1]) conversations Backend.s0
   = (Ok (VArr (map item [1; 3; 5])), after_listing)
   /\ map published (map item [1; 3; 5]) = map VNum [1; 3; 5]
   /\ ascending [1; 3; 5])
  /\ (list_ (dated latest_first) conversations Backend.s0
      = (Ok (VArr (map stamped (rev latest_first))), after_listing)
      /\ chronological (map VStr (rev latest_first))).
Proof.
  split.
  - destruct (list_order (listing [5; 3; 1]) conversations
                [("statusCode", VNum 200);
                 ("body", VObj [("items", VArr (map item [5; 3; 1]))])]
                (map item [5; 3; 1]) 0%nat Backend.s0 after_listing
                [tt; tt; tt] eq_refl eq_refl ltac:(discriminate) eq_refl eq_refl
                eq_refl)
      as (Hrun & Hpub & Hasc).
    split; [exact Hrun | split; [exact Hpub |]].
    apply chronological_numbers. apply Hasc.
    + left. repeat constructor; eexists; reflexivity.
    + right. repeat constructor.
  - destruct (list_order (dated latest_first) conversations
                [("statusCode", VNum 200);
                 ("body", VObj [("items", VArr (map stamped latest_first))])]
                (map stamped latest_first) 0%nat Backend.s0 after_listing
                [tt; tt; tt] eq_refl eq_refl ltac:(discriminate) eq_refl eq_refl
                eq_refl)
      as (Hrun & _ & Hasc).
    split; [exact Hrun |].
    apply Hasc.
    + right. repeat constructor; eexists; reflexivity.
    + right. repeat constructor.
Defined.

Example list_5_3_1 :
  fst (listConversations (listing [5; 3; 1]) VUndef Backend.s0)
  = Ok (VArr (map item [1; 3; 5])).
Proof. vm_compute. reflexivity. Qed.

Example list_ascending_kept :
  fst (listConversations (listing [1; 3; 5]) VUndef Backend.s0)
  = Ok (VArr (map item [1; 3; 5])).
Proof. vm_compute. reflexivity. Qed.

Example list_empty :
  fst (listConversations (listing []) VUndef Backend.s0) = Ok (VArr []).
Proof. vm_compute. reflexivity. Qed.

(** C4, as stated, fails: the backend answers with the published values
    1, 3, 2; the last is not below the first, the items are returned as
    they came, and they are not ascending. *)
Lemma list_keeps_backend_order :
  list_ (listing [1; 3; 2]) conversations Backend.s0
  = (Ok (VArr (map item [1; 3; 2])), after_listing)
  /\ map published (map item [1; 3; 2]) = map VNum [1; 3; 2]
  /\ ~ ascending [1; 3; 2].
Proof.
  split; [vm_compute; reflexivity | split; [reflexivity |]].
  unfold ascending. intros H.
  apply StronglySorted_inv in H as [H _].
  apply StronglySorted_inv in H as [_ H].
  inversion H as [|? ? Hle _]; subst. lia.
Qed.

(** ** [encryptTeam] *)

Lemma tracked_uris_truthy (team : obj) :
  truthy (field team "kmsMessage") && truthy (tracked_uris team)
  = truthy (tracked_uris team).
Proof.
  unfold tracked_uris. destruct (field team "kmsMessage") as [| |[]|n|s|l|o];
    try reflexivity; cbn [truthy].
  - destruct (n =? 0); reflexivity.
  - destruct (s =? "")%string eqn:E; [| reflexivity].
    apply String.eqb_eq in E. now subst.
Qed.

Lemma track_key_list (team : obj) (k : value) (l : list value) :
  is_key k ->
  tracked_uris team = VArr l ->
  exists tracked,
    Team.track_key team k = Ok tracked
    /\ tracked_uris tracked
       = VArr (if includes l (prop k "uri") then l else l ++ [prop k "uri"])
    /\ field tracked "defaultActivityEncryptionKeyUrl"
       = field team "defaultActivityEncryptionKeyUrl".
Proof.
  intros [kf ->] Hl. unfold Team.track_key.
  fold (tracked_uris team). rewrite tracked_uris_truthy, Hl.
  cbn [truthy member nullish Team.track_uri]. fold (includes l (prop (VObj kf) "uri")).
  assert (Hkm : exists km, field team "kmsMessage" = VObj km).
  { unfold tracked_uris in Hl.
    destruct (field team "kmsMessage"); try discriminate Hl. eauto. }
  destruct Hkm as [km Hkm].
  destruct (includes l (prop (VObj kf) "uri")); eexists; (split; [reflexivity |]).
  - split.
    + unfold tracked_uris. rewrite field_set_field, Hkm. cbn.
      rewrite field_set_field. unfold tracked_uris in Hl. now rewrite Hkm in Hl.
    + apply field_set_field_other. discriminate.
  - split.
    + unfold tracked_uris. rewrite field_set_field, Hkm. cbn.
      now rewrite field_set_field.
    + apply field_set_field_other. discriminate.
Qed.

Lemma track_key_none (team : obj) (k : value) :
  truthy (tracked_uris team) = false -> Team.track_key team k = Ok team.
Proof.
  intros H. unfold Team.track_key. fold (tracked_uris team).
  now rewrite tracked_uris_truthy, H.
Qed.

Section EncryptTeam.

Context {W : Type} (ctx : Team.Ctx W).

Lemma encryptTeam_runs (key : value) (team : obj) (s s1 : St W) (k : value) :
  bound_key ctx key s k s1 ->
  Team.encryptTeam ctx key team s
  = (tracked <- lift (Team.track_key team k);;
     encrypted <- Team.encrypt_props ctx k tracked;;
     lift (Team.bind_urls key k encrypted))%promise s1.
Proof.
  intros Hk. unfold Team.encryptTeam.
  destruct Hk as [[kf ->] | k rest -> | k w1 Hf Hnf Hmint [kf ->]
                 | k rest w1 Hf Hnf Hmint].
  - reflexivity.
  - reflexivity.
  - fold mint_one.
    destruct key as [| |[]| | | |]; try discriminate Hf; try congruence;
      unfold bind at 1, call; rewrite Hf; cbv beta iota;
      rewrite Hmint; reflexivity.
  - fold mint_one.
    destruct key as [| |[]| | | |]; try discriminate Hf; try congruence;
      unfold bind at 1, call; rewrite Hf; cbv beta iota;
      rewrite Hmint; reflexivity.
Qed.

(** The binding of a Key object.  [encryptTeam] binds a key [k] that is
    an object with a uri, on a team whose kmsMessage.keyUris is a list
    or is missing, with transforms that leave the binding alone.  Then:
    a team that has the list gets the uri of [k] appended to it, unless
    the list has it already; encryptionKeyUrl is the uri of [k];
    defaultActivityEncryptionKeyUrl is set only when the caller supplied
    no key, and then to the value it had, if it had one, else to the uri
    of [k]. *)
Theorem encryptTeam_binds_key
    (key : value) (team : obj) (s s1 : St W) (k : value) :
  bound_key ctx key s k s1 ->
  is_key k ->
  truthy (prop k "uri") = true ->
  (truthy (tracked_uris team) = false \/ exists l, tracked_uris team = VArr l) ->
  transforms_keep_binding ctx k s1 ->
  exists final s2,
    Team.encryptTeam ctx key team s = (Ok final, s2)
    /\ (forall l,
           tracked_uris team = VArr l ->
           tracked_uris final
           = VArr (if includes l (prop k "uri") then l else l ++ [prop k "uri"]))
    /\ field final "encryptionKeyUrl" = prop k "uri"
    /\ field final "defaultActivityEncryptionKeyUrl"
       = if truthy key
         then field team "defaultActivityEncryptionKeyUrl"
         else or_else (field team "defaultActivityEncryptionKeyUrl") (prop k "uri").
Proof.
  intros Hbound Hkey Huri Hteam Hframe.
  rewrite (encryptTeam_runs key team s s1 k Hbound).
  assert (Htrack :
    exists tracked,
      Team.track_key team k = Ok tracked
      /\ (forall l, tracked_uris team = VArr l ->
            tracked_uris tracked
            = VArr (if includes l (prop k "uri") then l else l ++ [prop k "uri"]))
      /\ field tracked "defaultActivityEncryptionKeyUrl"
         = field team "defaultActivityEncryptionKeyUrl").
  { destruct Hteam as [Hnone | [l Hl]].
    - exists team. split; [now apply track_key_none | split; [| reflexivity]].
      intros l Hl. rewrite Hl in Hnone. discriminate.
    - destruct (track_key_list team k l Hkey Hl) as (tracked & E & Hu & Hd).
      exists tracked. split; [exact E | split; [| exact Hd]].
      intros l' Hl'. rewrite Hl in Hl'. injection Hl' as <-. exact Hu. }
  destruct Htrack as (tracked & Etrack & Hu & Hd).
  destruct (Hframe tracked) as (encrypted & s2 & Eenc & Hkm & Hdef).
  assert (Hmember : member k "uri" = Ok (prop k "uri")).
  { destruct Hkey as [kf ->]. reflexivity. }
  unfold bind, lift. rewrite Etrack, Eenc.
  assert (Hor : or_else (prop k "uri") k = prop k "uri").
  { unfold or_else. now rewrite Huri. }
  unfold Team.bind_urls. rewrite Hmember, Hor.
  destruct (truthy key) eqn:Ekey; cbn [negb]; eexists; exists s2;
    (split; [reflexivity |]).
  - split; [| split].
    + intros l Hl. unfold tracked_uris.
      rewrite field_set_field_other by discriminate.
      rewrite Hkm. now apply Hu.
    + apply field_set_field.
    + rewrite field_set_field_other by discriminate. congruence.
  - split; [| split].
    + intros l Hl. unfold tracked_uris.
      rewrite !field_set_field_other by discriminate.
      rewrite Hkm. now apply Hu.
    + rewrite field_set_field_other by discriminate. apply field_set_field.
    + rewrite field_set_field.
      rewrite field_set_field_other by discriminate.
      rewrite Hdef, Hd. unfold or_else.
      destruct (truthy (field team "defaultActivityEncryptionKeyUrl")) eqn:E;
        [now rewrite E | now rewrite Huri].
Qed.

(** C9.  A key that is bound as its url, a string, which lines 68 and
    73 provide for ([k.uri || k]): alone or as the first of a
    collection, on a team whose kmsMessage.keyUris is a list.
    [encryptTeam] resolves, and encryptionKeyUrl is that url; but what
    lines 59-61 look for in the list, and append to it, is [k.uri],
    which is undefined.  The list gets [undefined] appended unless it
    has it already, and the url of the key is in the list afterwards
    only if it was there before: it is not tracked. *)
Theorem encryptTeam_url_key_not_tracked
    (key : value) (u : string) (team : obj) (l : list value) (s : St W) :
  key = VStr u \/ (exists rest, key = VArr (VStr u :: rest)) ->
  u <> ""%string ->
  tracked_uris team = VArr l ->
  transforms_keep_binding ctx (VStr u) s ->
  exists final s2 l',
    Team.encryptTeam ctx key team s = (Ok final, s2)
    /\ field final "encryptionKeyUrl" = VStr u
    /\ tracked_uris final = VArr l'
    /\ l' = (if includes l VUndef then l else l ++ [VUndef])%list
    /\ includes l' (VStr u) = includes l (VStr u).
Proof.
  intros Hkey Hne Hl Hframe.
  assert (Htruthy : truthy (VStr u) = true).
  { cbn. destruct (String.eqb_spec u ""); [contradiction | reflexivity]. }
  assert (Hrun : Team.encryptTeam ctx key team s
                 = (tracked <- lift (Team.track_key team (VStr u));;
                    encrypted <- Team.encrypt_props ctx (VStr u) tracked;;
                    lift (Team.bind_urls key (VStr u) encrypted))%promise s).
  { unfold Team.encryptTeam.
    destruct Hkey as [-> | [rest ->]]; unfold bind at 1.
    - rewrite Htruthy. reflexivity.
    - reflexivity. }
  assert (Hkm : exists km, field team "kmsMessage" = VObj km).
  { unfold tracked_uris in Hl.
    destruct (field team "kmsMessage"); try discriminate Hl. eauto. }
  destruct Hkm as [km Hkm].
  assert (Huri : member (VStr u) "uri" = Ok VUndef) by reflexivity.
  set (l' := (if includes l VUndef then l else l ++ [VUndef])%list).
  assert (Htrack :
    Team.track_key team (VStr u)
    = Ok (set_field team "kmsMessage" (VObj (set_field km "keyUris" (VArr l'))))).
  { unfold Team.track_key. fold (tracked_uris team).
    rewrite tracked_uris_truthy, Hl. cbn [truthy]. rewrite Huri.
    cbn [Team.track_uri]. fold (includes l VUndef). rewrite Hkm. unfold l'.
    destruct (includes l VUndef); reflexivity. }
  destruct (Hframe (set_field team "kmsMessage"
                      (VObj (set_field km "keyUris" (VArr l')))))
    as (encrypted & s2 & Eenc & Hkept & _).
  assert (Hsupplied : truthy key = true).
  { destruct Hkey as [-> | [rest ->]]; [exact Htruthy | reflexivity]. }
  exists (set_field encrypted "encryptionKeyUrl" (VStr u)), s2, l'.
  split; [| split; [| split; [| split]]].
  - rewrite Hrun. unfold bind, lift. rewrite Htrack, Eenc.
    unfold Team.bind_urls. rewrite Huri, Hsupplied. reflexivity.
  - apply field_set_field.
  - unfold tracked_uris. rewrite field_set_field_other by discriminate.
    rewrite Hkept, field_set_field. cbn [prop]. apply field_set_field.
  - reflexivity.
  - unfold l'. destruct (includes l VUndef); [reflexivity |].
    unfold includes. rewrite existsb_app. cbn. now rewrite orb_false_r.
Qed.

End EncryptTeam.

(** *** [encryptTeam] on a concrete context *)

Lemma seal_keeps (name other : string) (team : obj) :
  name <> other -> field (seal name team) other = field team other.
Proof.
  intros Hne. unfold seal.
  destruct (field team name); try reflexivity.
  now apply field_set_field_other.
Qed.

Lemma sealing_keeps_binding (k : value) (s1 : St Backend.W) :
  transforms_keep_binding sealing k s1.
Proof.
  intros team. eexists. eexists. split; [reflexivity |].
  split; rewrite !seal_keeps by discriminate; reflexivity.
Qed.

Lemma encryptTeam_binds_key_witness :
  exists final s2,
    Team.encryptTeam sealing VUndef new_team Backend.s0 = (Ok final, s2)
    /\ (forall l,
           tracked_uris new_team = VArr l ->
           tracked_uris final
           = VArr (if includes l (prop first_key "uri") then l
                   else l ++ [prop first_key "uri"]))
    /\ field final "encryptionKeyUrl" = prop first_key "uri"
    /\ field final "defaultActivityEncryptionKeyUrl"
       = or_else (field new_team "defaultActivityEncryptionKeyUrl")
           (prop first_key "uri").
Proof.
  apply (encryptTeam_binds_key sealing VUndef new_team Backend.s0 after_mint
           first_key).
  - apply (bound_minted_first sealing VUndef Backend.s0 first_key [] 0%nat).
    + reflexivity.
    + discriminate.
    + reflexivity.
  - exists [("uri", VStr "kms://kms.example.com/keys/1")]. reflexivity.
  - reflexivity.
  - right. exists []. reflexivity.
  - apply sealing_keeps_binding.
Defined.

(** The team tracks no key; a key is supplied as its url: what the list
    of the team holds afterwards is [undefined]. *)
Lemma encryptTeam_url_key_not_tracked_witness :
  exists final s2,
    Team.encryptTeam sealing url_key new_team Backend.s0 = (Ok final, s2)
    /\ field final "encryptionKeyUrl" = url_key
    /\ tracked_uris final = VArr [VUndef]
    /\ includes [VUndef] url_key = false.
Proof.
  destruct (encryptTeam_url_key_not_tracked sealing url_key
              "kms://kms.example.com/keys/5" new_team [] Backend.s0
              (or_introl eq_refl) ltac:(discriminate) eq_refl
              (sealing_keeps_binding url_key Backend.s0))
    as (final & s2 & l' & Hrun & Hurl & Htracked & Hl' & Hin).
  exists final, s2. subst l'.
  split; [exact Hrun | split; [exact Hurl | split; [exact Htracked | exact Hin]]].
Defined.

(** A first binding: the minted key is tracked and becomes both urls. *)
Example encryptTeam_first_binding :
  fst (Team.encryptTeam sealing VUndef new_team Backend.s0)
  = Ok [("displayName", VStr "sealed:Ops");
        ("summary", VStr "sealed:on call");
        ("kmsMessage",
         VObj [("method", VStr "create");
               ("uri", VStr "/resources");
               ("userIds", VArr [VStr "alice"; VStr "bob"]);
               ("keyUris", VArr [VStr "kms://kms.example.com/keys/1"])]);
        ("encryptionKeyUrl", VStr "kms://kms.example.com/keys/1");
        ("defaultActivityEncryptionKeyUrl", VStr "kms://kms.example.com/keys/1")].
Proof. vm_compute. reflexivity. Qed.

(** A supplied key that the team tracks already: no second entry, and
    defaultActivityEncryptionKeyUrl is not touched. *)
Example encryptTeam_supplied_key :
  fst (Team.encryptTeam sealing first_key
         [("displayName", VStr "Ops");
          ("defaultActivityEncryptionKeyUrl", VStr "kms://kms.example.com/keys/0");
          ("kmsMessage", VObj [("keyUris", VArr [VStr "kms://kms.example.com/keys/1"])])]
         Backend.s0)
  = Ok [("displayName", VStr "sealed:Ops");
        ("defaultActivityEncryptionKeyUrl", VStr "kms://kms.example.com/keys/0");
        ("kmsMessage", VObj [("keyUris", VArr [VStr "kms://kms.example.com/keys/1"])]);
        ("encryptionKeyUrl", VStr "kms://kms.example.com/keys/1")].
Proof. vm_compute. reflexivity. Qed.

(** The key [false] switches the transform off. *)
Example encryptTeam_off :
  Team.encryptTeam sealing (VBool false) new_team Backend.s0
  = (Ok new_team, Backend.s0).
Proof. reflexivity. Qed.

(** *** [submit] on the concrete backend *)

(** An acknowledgement is submitted to the activities resource and raises
    no notification; a message raises one. *)
Example acknowledge_is_silent :
  let r := acknowledge Backend.quiet Backend.room
             (VObj [("id", VStr "activity-7"); ("url", VStr "https://conv.example.com/api/v1/activities/activity-7")])
             Absent Backend.s0 in
  triggers (log (snd r)) = []
  /\ map (fun p => (field p "resource", field p "qs")) (requests (log (snd r)))
     = [(VStr "activities", VObj [("personRefresh", VBool true)])].
Proof. split; vm_compute; reflexivity. Qed.

Example post_is_noticed :
  let r := post Backend.quiet Backend.room (VStr "hello") Absent Backend.s0 in
  triggers (log (snd r)) = ["user-activity"]
  /\ map (fun p => (field p "resource", prop (prop (field p "body") "object") "displayName"))
       (requests (log (snd r)))
     = [(VStr "activities", VStr "hello")].
Proof. split; vm_compute; reflexivity. Qed.

(** A key given as its uri, on a team that tracks no list: the string is
    the url ([k.uri || k]). *)
Example encryptTeam_uri_string :
  fst (Team.encryptTeam sealing (VStr "kms://kms.example.com/keys/5")
         [("displayName", VStr "Ops")] Backend.s0)
  = Ok [("displayName", VStr "sealed:Ops");
        ("encryptionKeyUrl", VStr "kms://kms.example.com/keys/5")].
Proof. vm_compute. reflexivity. Qed.

(* ================================================================== *)
(** ** Every method that posts an activity *)

Section Quiet.

Context {W : Type}.

Lemma quiet_ret {A} (a : A) : quiet (@ret W A a).
Proof. intros s. split; reflexivity. Qed.

Lemma quiet_reject {A} (r : obj) : quiet (@reject W A r).
Proof. intros s. split; reflexivity. Qed.

Lemma quiet_lift {A} (r : Res A) : quiet (@lift W A r).
Proof. intros s. split; reflexivity. Qed.

Lemma quiet_bind {A B} (m : M W A) (k : A -> M W B) :
  quiet m -> (forall a, quiet (k a)) -> quiet (bind m k).
Proof.
  intros Hm Hk s. unfold bind.
  destruct (Hm s) as [Hr Ht].
  destruct (m s) as [[a|r] s1]; cbn [snd] in *.
  - destruct (Hk a s1) as [Hr' Ht']. split; congruence.
  - split; assumption.
Qed.

Lemma quiet_call {A} (e : event) (f : W -> Res A * W) :
  silent e -> quiet (call e f).
Proof.
  intros He s. unfold call. destruct (f (world s)) as [r w]. cbn [snd log].
  rewrite requests_app, triggers_app.
  destruct e; try contradiction; cbn; now rewrite !app_nil_r.
Qed.

Lemma quiet_emit (e : event) : silent e -> quiet (@emit W e).
Proof.
  intros He s. unfold emit. cbn [snd log].
  rewrite requests_app, triggers_app.
  destruct e; try contradiction; cbn; now rewrite !app_nil_r.
Qed.

Lemma quiet_if {A} (b : bool) (m1 m2 : M W A) :
  quiet m1 -> quiet m2 -> quiet (if b then m1 else m2).
Proof. now destruct b. Qed.

End Quiet.

Section Posting.

Context {W : Type} (spark : Spark W).

Lemma quiet_userId : quiet (userId spark).
Proof. intros s. split; reflexivity. Qed.

Lemma quiet_new_uuid : quiet (new_uuid spark).
Proof.
  intros s. unfold new_uuid, call.
  destruct (uuid_v4 spark (world s)) as [u w]. cbn [snd log].
  rewrite requests_app, triggers_app. cbn. now rewrite !app_nil_r.
Qed.

Lemma quiet_asUUID (who options : value) : quiet (asUUID spark who options).
Proof. apply quiet_call. exact I. Qed.

Lemma quiet_inferConversationUrl (conversation : value) :
  quiet (inferConversationUrl spark conversation).
Proof.
  unfold inferConversationUrl.
  apply quiet_bind; [apply quiet_lift |]. intros url.
  apply quiet_if; [| apply quiet_ret].
  apply quiet_bind; [apply quiet_call; exact I |]. intros base.
  apply quiet_bind; [| intros _; apply quiet_ret].
  apply quiet_if; [apply quiet_ret | apply quiet_emit; exact I].
Qed.

Lemma quiet_working (activity : partial W) (params : value) :
  quiet (working spark activity params).
Proof.
  unfold working.
  apply quiet_bind.
  - destruct activity as [|o|hook].
    + apply quiet_ret.
    + apply quiet_if; [apply quiet_reject | apply quiet_ret].
    + apply quiet_call. exact I.
  - intros act. apply quiet_bind; [apply quiet_new_uuid |]. intros tempId.
    apply quiet_bind; [apply quiet_userId |]. intros uid. apply quiet_lift.
Qed.

Lemma quiet_prepare (activity : partial W) (params : value) :
  quiet (prepare spark activity params).
Proof.
  unfold prepare. apply quiet_bind; [apply quiet_working |].
  intros act. apply quiet_lift.
Qed.

Lemma sv_reject {A} (r : obj) : submits_validated (@reject W A r).
Proof. intros s. left. cbn. eauto. Qed.

Lemma sv_bind_quiet {A B} (m : M W A) (k : A -> M W B) :
  quiet m -> (forall a, submits_validated (k a)) ->
  submits_validated (bind m k).
Proof.
  intros Hm Hk s. unfold bind.
  destruct (Hm s) as [Hr Ht].
  destruct (m s) as [[a|r] s1]; cbn [snd fst] in *.
  - destruct (Hk a s1) as [(Hr' & Ht' & Herr) | (act & Hv & Hreq)].
    + left. repeat split; [congruence | congruence | exact Herr].
    + right. exists act. split; [exact Hv | congruence].
  - left. repeat split; [exact Hr | exact Ht | eauto].
Qed.

Lemma sv_then {A B} (m : M W A) (f : A -> B) :
  submits_validated m ->
  submits_validated (bind m (fun a => ret (f a))).
Proof.
  intros Hm s. unfold bind, ret.
  destruct (Hm s) as [(Hr & Ht & reason & Herr) | (act & Hv & Hreq)];
    destruct (m s) as [[a|r] s1]; cbn [snd fst] in *.
  - discriminate Herr.
  - left. eauto.
  - right. eauto.
  - right. eauto.
Qed.

Lemma sv_if {A} (b : bool) (m1 m2 : M W A) :
  submits_validated m1 -> submits_validated m2 ->
  submits_validated (if b then m1 else m2).
Proof. now destruct b. Qed.

Lemma sv_submit (act : obj) :
  validate act = Ok act -> submits_validated (submit spark act).
Proof.
  intros Hv s. right. exists act. split; [exact Hv |].
  rewrite submit_log, !requests_app.
  destruct (is_str (field act "verb") "acknowledge"); reflexivity.
Qed.

(** The end of every method: [prepare], then [submit]. *)
Lemma sv_prepare_submit (activity : partial W) (params : value) :
  submits_validated
    (bind (prepare spark activity params) (fun a => submit spark a)).
Proof.
  intros s. unfold bind.
  destruct (quiet_prepare activity params s) as [Hr Ht].
  destruct (prepare spark activity params s) as [[a|r] s1] eqn:E;
    cbn [snd fst] in *.
  - destruct (prepare_returns_working spark _ _ _ _ _ E) as [_ Hv].
    right. exists a. split; [exact Hv |].
    rewrite submit_log, !requests_app, Hr.
    destruct (is_str (field a "verb") "acknowledge"); reflexivity.
  - left. repeat split; [exact Hr | exact Ht | eauto].
Qed.

End Posting.

Lemma validate_set_verb (act : obj) (verb : value) :
  validate act = Ok act ->
  validate (set_field act "verb" verb) = Ok (set_field act "verb" verb).
Proof.
  unfold validate, check_content. cbn [check_objectType].
  rewrite !field_set_field_other by discriminate.
  repeat match goal with
         | |- context [if ?b then _ else _] => destruct b; try discriminate
         end.
  reflexivity.
Qed.

Section PostingMethods.

Context {W : Type} (spark : Spark W) (sharing : Sharing W).

Lemma sv_prepare {A} (activity : partial W) (params : value)
    (k : obj -> M W A) :
  (forall a, validate a = Ok a -> submits_validated (k a)) ->
  submits_validated (bind (prepare spark activity params) k).
Proof.
  intros Hk s. unfold bind.
  destruct (quiet_prepare spark activity params s) as [Hr Ht].
  destruct (prepare spark activity params s) as [[a|r] s1] eqn:E;
    cbn [snd fst] in *.
  - destruct (prepare_returns_working spark _ _ _ _ _ E) as [_ Hv].
    destruct (Hk a Hv s1) as [(Hr' & Ht' & Herr) | (act & Hv' & Hreq)].
    + left. repeat split; [congruence | congruence | exact Herr].
    + right. exists act. split; [exact Hv' | congruence].
  - left. repeat split; [exact Hr | exact Ht | eauto].
Qed.

Lemma quiet_moderator (conversation moderator : value) :
  quiet (fun s : St W =>
           let (rc, s1) := inferConversationUrl spark conversation s in
           let (ru, s2) :=
             (if truthy moderator then asUUID spark moderator VUndef
              else userId spark) s1 in
           (match rc, ru with
            | Ok c, Ok u => Ok (c, u)
            | Err r, _ => Err r
            | Ok _, Err r => Err r
            end, s2)).
Proof.
  intros s.
  destruct (quiet_inferConversationUrl spark conversation s) as [Hr Ht].
  destruct (inferConversationUrl spark conversation s) as [rc s1].
  cbn [snd] in *.
  assert (Hq : quiet (if truthy moderator then asUUID spark moderator VUndef
                      else userId spark)).
  { apply quiet_if; [apply quiet_asUUID | apply quiet_userId]. }
  destruct (Hq s1) as [Hr' Ht'].
  destruct ((if truthy moderator then asUUID spark moderator VUndef
             else userId spark) s1) as [ru s2].
  cbn [snd] in *. split; congruence.
Qed.

Ltac quietly :=
  first [ apply quiet_inferConversationUrl | apply quiet_asUUID
        | apply quiet_userId | apply quiet_lift | apply quiet_moderator
        | apply quiet_ret
        | apply quiet_call; exact I
        | apply quiet_if; quietly ].

Ltac posting :=
  repeat first
    [ apply sv_reject
    | apply sv_if
    | apply sv_prepare; intros ? ?
    | apply sv_submit; (assumption || (apply validate_set_verb; assumption))
    | apply sv_then
    | apply sv_bind_quiet; [quietly | intros ?]
    | match goal with
      | |- submits_validated (let (_, _) := ?r in _) => destruct r
      end ].

(** X1. Every method that posts an activity submits at most one, and only a
    validated one: when the method rejects before [submit], no request
    was made and no notification raised; otherwise exactly one request
    was made, and the activity it carries has an objectType on each
    populated actor, object and target, and no content without a
    displayName. *)
Theorem posting_methods_submit_validated
    (conversation x : value) (verb : string) (activity : partial W)
    (shared_activity : shared W) :
  submits_validated (acknowledge spark conversation x activity)
  /\ submits_validated (add spark conversation x activity)
  /\ submits_validated (delete spark conversation x activity)
  /\ submits_validated (leave spark conversation x activity)
  /\ submits_validated (post spark conversation x activity)
  /\ submits_validated (unassign spark conversation activity)
  /\ submits_validated (update spark conversation x activity)
  /\ submits_validated (submitSimpleActivity spark verb conversation activity)
  /\ submits_validated
       (submitModerationChangeActivity spark verb conversation x activity)
  /\ submits_validated (submitObjectActivity spark verb conversation x activity)
  /\ submits_validated (assign spark conversation x)
  /\ submits_validated (share spark sharing conversation shared_activity)
  /\ submits_validated (updateKey_ spark conversation x activity).
Proof.
  repeat split.
  - unfold acknowledge. posting.
  - unfold add. posting.
  - unfold delete. posting.
  - unfold leave. posting.
  - unfold post. posting.
  - unfold unassign. posting.
  - unfold update. posting.
  - unfold submitSimpleActivity. posting.
  - unfold submitModerationChangeActivity. posting.
  - unfold submitObjectActivity. posting.
  - unfold assign. posting.
  - unfold share. posting.
  - unfold updateKey_. posting.
Qed.

End PostingMethods.

(* ================================================================== *)
(** ** [_inferConversationUrl] *)

Lemma append_assoc (a b c : string) : ((a ++ b) ++ c = a ++ (b ++ c))%string.
Proof. induction a as [|x a IH]; cbn; [reflexivity | now rewrite IH]. Qed.

Lemma append_nonempty (a b : string) :
  b <> ""%string -> ((a ++ b) =? "")%string = false.
Proof.
  intros Hb. destruct a; cbn; [| reflexivity].
  destruct b; [contradiction | reflexivity].
Qed.

Lemma split_on_not_nil (sep : ascii) (s cur : string) : split_on sep s cur <> [].
Proof.
  revert cur. induction s as [|c s IH]; intros cur; cbn; [discriminate |].
  destruct (Ascii.eqb c sep); [discriminate | apply IH].
Qed.

Lemma last_cons_not_nil {A} (x d : A) (l : list A) :
  l <> [] -> List.last (x :: l) d = List.last l d.
Proof. destruct l; [contradiction | reflexivity]. Qed.

Lemma last_split_on_app (sep : ascii) (a i cur d : string) :
  List.last (split_on sep (a ++ String sep i) cur) d
  = List.last (split_on sep i "") d.
Proof.
  revert cur. induction a as [|c a IH]; intros cur; cbn [append split_on].
  - rewrite Ascii.eqb_refl. apply last_cons_not_nil, split_on_not_nil.
  - destruct (Ascii.eqb c sep).
    + rewrite last_cons_not_nil by apply split_on_not_nil. apply IH.
    + apply IH.
Qed.

Lemma split_on_free (sep : ascii) (i cur : string) :
  free_of sep i = true -> split_on sep i cur = [(cur ++ i)%string].
Proof.
  revert cur. induction i as [|c i IH]; intros cur; cbn.
  - intros _. f_equal. induction cur as [|x cur IHc]; cbn; [reflexivity |].
    now rewrite <- IHc.
  - destruct (Ascii.eqb c sep); cbn; [discriminate |].
    intros H. rewrite (IH _ H). f_equal. apply append_assoc.
Qed.

(** The last segment of the url inferred for an id without a slash is
    the id. *)
Lemma last_segment_inferred (base id : string) :
  free_of "/" id = true -> last_segment (inferred_url base id) = id.
Proof.
  intros H. unfold last_segment, inferred_url.
  change ("/conversations/" ++ id)%string
    with ("/conversations" ++ String "/" id)%string.
  rewrite <- append_assoc, last_split_on_app, (split_on_free _ _ _ H).
  reflexivity.
Qed.

Section Inference.

Context {W : Type} (spark : Spark W).

(** X2. A conversation known by its id alone gets the url
    base/conversations/id, for the base that the device gives, by one
    call to the device; a second inference changes and asks nothing;
    and the id that [prepare] and [updateTypingStatus] would derive from
    that url is the id again, when it has no slash. *)
Theorem inferConversationUrl_round_trip
    (c : obj) (id base : string) (s : St W) (w1 : W) :
  truthy (field c "url") = false ->
  field c "id" = VStr id ->
  id <> ""%string ->
  device_getServiceUrl spark "conversation" (world s) = (Ok (VStr base), w1) ->
  let c' := VObj (set_field c "url" (VStr (inferred_url base id))) in
  let s1 := after_inference spark s w1 in
  inferConversationUrl spark (VObj c) s = (Ok c', s1)
  /\ inferConversationUrl spark c' s1 = (Ok c', s1)
  /\ prop c' "id" = VStr id
  /\ (free_of "/" id = true -> last_segment (inferred_url base id) = id).
Proof.
  intros Hurl Hid Hne Hbase c' s1.
  assert (Htruthy : truthy (VStr id) = true).
  { cbn. destruct (String.eqb_spec id ""); [contradiction | reflexivity]. }
  split; [| split; [| split]].
  - unfold inferConversationUrl, bind, lift, call, emit, ret.
    cbn [member nullish prop]. rewrite Hurl, Hid, Htruthy. cbn [negb andb].
    rewrite Hbase. unfold s1, after_inference, c', inferred_url.
    destruct (production spark); cbn [world log to_string set_prop];
      rewrite <- ?app_assoc; reflexivity.
  - unfold inferConversationUrl, bind, lift, ret.
    unfold c'. cbn [member nullish prop]. rewrite field_set_field.
    cbn [truthy]. unfold inferred_url.
    rewrite append_nonempty by (destruct id; discriminate || discriminate).
    reflexivity.
  - unfold c'. cbn [prop]. rewrite field_set_field_other by discriminate.
    exact Hid.
  - apply last_segment_inferred.
Qed.

End Inference.

(* ================================================================== *)
(** ** [prepare]: the fields of the caller *)

Lemma fill_defaults_field (act : obj) (params : value) (tempId : string)
    (userId : value) (k : string) :
  k <> "actor"%string ->
  field (fill_defaults act params tempId userId) k
  = match field act k with
    | VUndef =>
        if (k =? "verb")%string then prop params "verb"
        else if (k =? "kmsMessage")%string then prop params "kmsMessage"
        else if (k =? "objectType")%string then VStr "activity"
        else if (k =? "clientTempId")%string then VStr tempId
        else VUndef
    | own => own
    end.
Proof.
  intros Hactor.
  unfold fill_defaults, Lodash.defaults. cbn [own_props fold_left fst snd].
  rewrite defaults_step_other by congruence.
  destruct (String.eqb_spec k "clientTempId") as [-> | H4].
  { rewrite defaults_step_same. now rewrite !defaults_step_other by discriminate. }
  rewrite defaults_step_other by congruence.
  destruct (String.eqb_spec k "objectType") as [-> | H3].
  { rewrite defaults_step_same. now rewrite !defaults_step_other by discriminate. }
  rewrite defaults_step_other by congruence.
  destruct (String.eqb_spec k "kmsMessage") as [-> | H2].
  { rewrite defaults_step_same. now rewrite !defaults_step_other by discriminate. }
  rewrite defaults_step_other by congruence.
  destruct (String.eqb_spec k "verb") as [-> | H1].
  { now rewrite defaults_step_same. }
  rewrite defaults_step_other by congruence.
  destruct (field act k); reflexivity.
Qed.

Lemma entity_false (k : string) :
  entity k = false ->
  k <> "actor"%string /\ k <> "object"%string /\ k <> "target"%string.
Proof.
  unfold entity, entity_keys. cbn [existsb].
  destruct (String.eqb_spec k "actor"); [discriminate |].
  destruct (String.eqb_spec k "object"); [discriminate |].
  destruct (String.eqb_spec k "target"); [discriminate |]. auto.
Qed.

(** Lines 400-424 touch actor, object and target only. *)
Lemma normalize_field (act w : obj) (params : value) (tempId : string)
    (userId : value) (k : string) :
  entity k = false ->
  normalize act params tempId userId = Ok w ->
  field w k = field (fill_defaults act params tempId userId) k.
Proof.
  intros Hk. destruct (entity_false k Hk) as (Ha & Ho & Ht).
  unfold normalize. cbn [fold_left].
  destruct (derive_id _ "object") as [a|r] eqn:E1; [| discriminate].
  intros E2.
  rewrite (derive_id_keeps _ _ "target" k ltac:(congruence) E2).
  rewrite (derive_id_keeps _ _ "object" k ltac:(congruence) E1).
  unfold apply_target, Lodash.merge_at.
  assert (Hrest :
    forall a0, field (default_from_params params
                        (default_from_params params a0 "actor") "object") k
               = field a0 k).
  { intros a0. now rewrite !default_from_params_keeps by congruence. }
  assert (Hactor :
    forall a0, field (normalize_actor a0) k = field a0 k).
  { intros a0. unfold normalize_actor.
    destruct (isString _); [| reflexivity].
    apply field_set_field_other. congruence. }
  destruct (truthy (prop params "target")).
  - rewrite field_set_field_other by congruence. now rewrite Hrest, Hactor.
  - now rewrite Hrest, Hactor.
Qed.

Section PrepareFields.

Context {W : Type} (spark : Spark W).

(** X3. [prepare] keeps every field that the activity of the caller defines,
    other than actor, object and target; a field that the activity does
    not define is the verb or the kmsMessage of the parameters, the
    objectType "activity", or a clientTempId that [uuid.v4] has just
    made, and stays undefined under any other name. *)
Theorem prepare_keeps_defined_fields
    (o a : obj) (params : value) (s s' : St W) (k : string) :
  prepare spark (Plain o) params s = (Ok a, s') ->
  entity k = false ->
  field a k
  = match field o k with
    | VUndef => default_of params (fst (uuid_v4 spark (world s))) k
    | own => own
    end.
Proof.
  intros Hprep Hk.
  destruct (prepare_returns_working spark _ _ _ _ _ Hprep) as [Hw _].
  revert Hw. unfold working, bind, new_uuid, call, userId, lift, ret, reject.
  destruct (truthy (field o "prepare")); [discriminate |].
  destruct (uuid_v4 spark (world s)) as [t w1]. cbn [world fst].
  destruct (normalize _ _ _ _) as [w|r] eqn:E; [| discriminate].
  intros [= <- _].
  rewrite (normalize_field _ _ _ _ _ k Hk E).
  rewrite fill_defaults_field by (destruct (entity_false k Hk); assumption).
  reflexivity.
Qed.

(** X4. The id of the object and of the target of a prepared activity: a
    populated one that has a url has the id it came with, or the last
    segment of its url. *)
Theorem prepare_derives_ids
    (activity : partial W) (params : value) (a : obj) (s s' : St W)
    (key : string) :
  prepare spark activity params s = (Ok a, s') ->
  key = "object"%string \/ key = "target"%string ->
  truthy (prop (field a key) "url") = true ->
  truthy (prop (field a key) "id") = true
  \/ exists url,
       prop (field a key) "url" = VStr url
       /\ prop (field a key) "id" = VStr (last_segment url).
Proof.
  intros Hprep Hkey Hurl.
  destruct (prepare_returns_working spark _ _ _ _ _ Hprep) as [Hw _].
  assert (Hn : exists act p t u, normalize act p t u = Ok a).
  { revert Hw. unfold working, bind, new_uuid, call, userId, lift, ret, reject.
    destruct activity as [|o|hook].
    - destruct (uuid_v4 spark (world s)) as [t w1].
      destruct (normalize _ _ _ _) eqn:E; [| discriminate].
      intros [= <- _]. eauto.
    - destruct (truthy (field o "prepare")); [discriminate |].
      destruct (uuid_v4 spark (world s)) as [t w1].
      destruct (normalize _ _ _ _) eqn:E; [| discriminate].
      intros [= <- _]. eauto.
    - destruct (hook _ (world s)) as [[o|r] w0]; [| discriminate].
      destruct (uuid_v4 spark _) as [t w1].
      destruct (normalize _ _ _ _) eqn:E; [| discriminate].
      intros [= <- _]. eauto. }
  destruct Hn as (act & p & t & u & Hn). clear Hw Hprep.
  assert (Hderived :
    forall act0 w0 k0,
      derive_id act0 k0 = Ok w0 ->
      truthy (prop (field w0 k0) "url") = true ->
      truthy (prop (field w0 k0) "id") = true
      \/ exists url, prop (field w0 k0) "url" = VStr url
                     /\ prop (field w0 k0) "id" = VStr (last_segment url)).
  { intros act0 w0 k0. unfold derive_id.
    destruct (truthy (field act0 k0)) eqn:Ev; cbn [andb].
    - destruct (truthy (prop (field act0 k0) "url")) eqn:Eu; cbn [andb].
      + destruct (truthy (prop (field act0 k0) "id")) eqn:Ei; cbn [negb].
        * intros [= <-] _. now left.
        * destruct (prop (field act0 k0) "url") eqn:Eurl; try discriminate.
          intros [= <-] _. right. exists s0.
          rewrite field_set_field.
          destruct (field act0 k0) eqn:Ef; try discriminate Eurl.
          cbn [set_prop prop].
          rewrite field_set_field_other by discriminate.
          rewrite field_set_field. cbn [prop] in Eurl. auto.
      + intros [= <-] H. congruence.
    - intros [= <-] H.
      destruct (field act0 k0); try discriminate Ev; discriminate H. }
  revert Hn. unfold normalize.
  destruct (derive_id _ "object") as [a1|r] eqn:E1; [| discriminate].
  intros E2.
  destruct Hkey as [-> | ->].
  - rewrite (derive_id_keeps _ _ "target" "object" ltac:(discriminate) E2) in *.
    now apply (Hderived _ _ _ E1).
  - now apply (Hderived _ _ _ E2).
Qed.

End PrepareFields.

(* ================================================================== *)
(** ** Objects: keys, [Object.assign] and [omit] *)

Lemma has_key_set_field (o : obj) (k k' : string) (v : value) :
  has_key (set_field o k v) k' = (k =? k')%string || has_key o k'.
Proof.
  induction o as [|[k0 v0] o IH]; cbn.
  - now rewrite orb_false_r.
  - destruct (String.eqb_spec k0 k) as [-> | Hne]; cbn.
    + now destruct (k =? k')%string.
    + rewrite IH. destruct (k0 =? k')%string, (k =? k')%string; reflexivity.
Qed.

Lemma field_without_key (o : obj) (k : string) :
  has_key o k = false -> field o k = VUndef.
Proof.
  induction o as [|[k0 v0] o IH]; cbn; [reflexivity |].
  destruct (k0 =? k)%string; [discriminate | exact IH].
Qed.

Lemma assign_list_has_key (src o : obj) (k : string) :
  has_key (fold_left (fun o kv => set_field o (fst kv) (snd kv)) src o) k
  = has_key o k || has_key src k.
Proof.
  revert o. induction src as [|[k0 v0] src IH]; intros o; cbn [fold_left fst snd].
  - cbn. now rewrite orb_false_r.
  - rewrite IH, has_key_set_field. cbn [has_key].
    destruct (has_key o k), (k0 =? k)%string, (has_key src k); reflexivity.
Qed.

Lemma assign_list_field_absent (src o : obj) (k : string) :
  has_key src k = false ->
  field (fold_left (fun o kv => set_field o (fst kv) (snd kv)) src o) k
  = field o k.
Proof.
  revert o. induction src as [|[k0 v0] src IH]; intros o; cbn [fold_left fst snd has_key].
  - reflexivity.
  - destruct (String.eqb_spec k0 k) as [-> | Hne]; cbn [orb]; [discriminate |].
    intros H. rewrite (IH _ H). now apply field_set_field_other.
Qed.

(** In an object, no key is written twice. *)
Lemma assign_list_field_present (src o : obj) (k : string) :
  NoDup (map fst src) -> has_key src k = true ->
  field (fold_left (fun o kv => set_field o (fst kv) (snd kv)) src o) k
  = field src k.
Proof.
  revert o. induction src as [|[k0 v0] src IH]; intros o Hnd; cbn [fold_left fst snd has_key field].
  - discriminate.
  - cbn [map fst] in Hnd. apply NoDup_cons_iff in Hnd as [Hnot Hnd].
    destruct (String.eqb_spec k0 k) as [-> | Hne]; cbn [orb].
    + intros _. rewrite assign_list_field_absent.
      * apply field_set_field.
      * clear - Hnot. induction src as [|[k1 v1] src IH]; cbn; [reflexivity |].
        cbn in Hnot. destruct (String.eqb_spec k1 k) as [-> | H1]; cbn.
        -- elim Hnot. now left.
        -- apply IH. intros Hin. apply Hnot. now right.
    + intros H. now apply IH.
Qed.

Lemma remove_keys_has_key (o : obj) (ks : list string) (k : string) :
  In k ks -> has_key (remove_keys o ks) k = false.
Proof.
  intros Hin. unfold remove_keys.
  induction o as [|[k0 v0] o IH]; cbn [filter fst]; [reflexivity |].
  destruct (existsb (String.eqb k0) ks) eqn:E; cbn [negb]; [exact IH |].
  cbn [has_key]. rewrite IH.
  destruct (String.eqb_spec k0 k) as [-> | Hne]; [| reflexivity].
  exfalso. apply Bool.not_true_iff_false in E. apply E.
  apply existsb_exists. exists k. split; [exact Hin | apply String.eqb_refl].
Qed.

Lemma remove_keys_set_field (o : obj) (k : string) (v : value) :
  remove_keys (set_field o k v) [k] = remove_keys o [k].
Proof.
  unfold remove_keys.
  induction o as [|[k0 v0] o IH]; cbn [set_field].
  - cbn. now rewrite String.eqb_refl.
  - destruct (String.eqb_spec k0 k) as [-> | Hne].
    + cbn. now rewrite String.eqb_refl.
    + cbn [filter]. now rewrite IH.
Qed.

(* ================================================================== *)
(** ** [Promise.all] over calls *)

Section All.

Context {W : Type}.

(** Every call of the list is made, in order, whatever fails. *)
Lemma start_all_calls {A X} (e : X -> event) (f : X -> W -> Res A * W)
    (l : list X) (s : St W) :
  log (snd (start_all (fun x => Ok (call (e x) (f x))) l s))
  = (log s ++ map e l)%list.
Proof.
  revert s. induction l as [|x l IH]; intros s; cbn [start_all map].
  - cbn. now rewrite app_nil_r.
  - unfold call at 1. destruct (f x (world s)) as [ra w1].
    specialize (IH (mkSt w1 (log s ++ [e x]))).
    destruct (start_all _ l _) as [[thrown|rest] s2]; cbn [snd log] in *;
      rewrite IH, <- app_assoc; reflexivity.
Qed.

Lemma all_map_calls {A X} (e : X -> event) (f : X -> W -> Res A * W)
    (l : list X) (s : St W) :
  log (snd (all_map (fun x => Ok (call (e x) (f x))) l s))
  = (log s ++ map e l)%list.
Proof.
  unfold all_map. rewrite <- (start_all_calls e f l s).
  destruct (start_all _ l s) as [[thrown|rest] s2]; reflexivity.
Qed.

(** When every call resolves, so does the whole. *)
Lemma all_map_resolves {A X} (e : X -> event) (f : X -> W -> Res A * W)
    (l : list X) (s : St W) :
  (forall x w, In x l -> exists a w', f x w = (Ok a, w')) ->
  exists results,
    fst (all_map (fun x => Ok (call (e x) (f x))) l s) = Ok results
    /\ List.length results = List.length l.
Proof.
  unfold all_map. revert s. induction l as [|x l IH]; intros s Hall; cbn [start_all].
  - exists []. split; reflexivity.
  - unfold call at 1.
    destruct (Hall x (world s) (or_introl eq_refl)) as (a & w' & E). rewrite E.
    destruct (IH (mkSt w' (log s ++ [e x]))) as (rest & Hrest & Hlen).
    { intros y w Hy. apply Hall. now right. }
    destruct (start_all _ l _) as [[thrown|[rs|r]] s2]; cbn [fst] in *;
      try discriminate Hrest.
    injection Hrest as ->. exists (a :: rest). split; [reflexivity |].
    cbn. now rewrite Hlen.
Qed.

(** A [Promise.all] of quiet computations is quiet. *)
Lemma quiet_all_map {A X} (f : X -> Res (M W A)) (l : list X) :
  (forall x m, f x = Ok m -> quiet m) -> quiet (all_map f l).
Proof.
  intros Hf. unfold all_map.
  assert (H : forall s,
             requests (log (snd (start_all f l s))) = requests (log s)
             /\ triggers (log (snd (start_all f l s))) = triggers (log s)).
  { induction l as [|x l IH]; intros s; cbn [start_all]; [split; reflexivity |].
    destruct (f x) as [m|thrown] eqn:E; [| split; reflexivity].
    destruct (Hf x m E s) as [Hr Ht].
    destruct (m s) as [ra s1]. cbn [snd] in *.
    destruct (IH s1) as [Hr' Ht'].
    destruct (start_all f l s1) as [[thrown|rest] s2]; cbn [snd] in *;
      split; congruence. }
  intros s. specialize (H s).
  destruct (start_all f l s) as [[thrown|rest] s2]; exact H.
Qed.

End All.

(* ================================================================== *)
(** ** [_recordUUIDs], [_list] and its callers, [get] *)

Section Listing.

Context {W : Type} (spark : Spark W).

Lemma quiet_recordUUIDs (conversation : value) (m : M W unit) :
  recordUUIDs spark conversation = Ok m -> quiet m.
Proof.
  unfold recordUUIDs.
  destruct (member conversation "participants") as [participants|r]; [| discriminate].
  destruct (_ || _).
  - intros [= <-]. apply quiet_ret.
  - destruct (prop participants "items"); try discriminate.
    intros [= <-]. apply quiet_bind; [| intros _; apply quiet_ret].
    apply quiet_all_map. intros x m [= <-]. apply quiet_call. exact I.
Qed.

(** X5. [_recordUUIDs] records every participant of the conversation, in
    order, whatever the outcome of each recording; it resolves when all
    of them do. *)
Theorem recordUUIDs_records_everyone
    (conversation : value) (participants : list value) :
  prop (prop conversation "participants") "items" = VArr participants ->
  exists m,
    recordUUIDs spark conversation = Ok m
    /\ (forall s, log (snd (m s)) = (log s ++ map RecordUUID participants)%list)
    /\ ((forall p w, exists v w', user_recordUUID spark p w = (Ok v, w')) ->
        forall s, fst (m s) = Ok tt).
Proof.
  intros Hitems.
  assert (Hp : member conversation "participants"
               = Ok (prop conversation "participants")).
  { unfold member. destruct conversation; try discriminate Hitems; reflexivity. }
  assert (Ht : truthy (prop conversation "participants") = true).
  { destruct (prop conversation "participants"); try discriminate Hitems;
      reflexivity. }
  unfold recordUUIDs. rewrite Hp, Ht, Hitems. cbn [truthy negb orb].
  eexists. split; [reflexivity | split].
  - intros s. unfold bind, ret.
    rewrite <- (all_map_calls RecordUUID (user_recordUUID spark) participants s).
    destruct (all_map _ participants s) as [[l|r] s1]; reflexivity.
  - intros Hall s. unfold bind, ret.
    destruct (all_map_resolves RecordUUID (user_recordUUID spark) participants s)
      as (results & Hres & _).
    { intros x w _. apply Hall. }
    destruct (all_map _ participants s) as [[l|r] s1]; cbn [fst] in *;
      [reflexivity | discriminate Hres].
Qed.

Lemma request_then_quiet {A} (params : obj) (k : obj -> M W A) (s : St W) :
  (forall res, quiet (k res)) ->
  requests (log (snd (bind (do_request spark params) k s)))
  = (requests (log s) ++ [params])%list
  /\ triggers (log (snd (bind (do_request spark params) k s)))
     = triggers (log s).
Proof.
  intros Hk. unfold bind, do_request, call.
  destruct (request spark params (world s)) as [[res|r] w1].
  - destruct (Hk res (mkSt w1 (log s ++ [Request params]))) as [Hr Ht].
    rewrite Hr, Ht. cbn [log]. rewrite requests_app, triggers_app. cbn.
    now rewrite app_nil_r.
  - cbn [snd log]. rewrite requests_app, triggers_app. cbn.
    now rewrite app_nil_r.
Qed.

(** X6. [_list] makes exactly one request and raises no notification.  The
    query of the request has the value of the caller for every key of
    the caller, and the default for any other key. *)
Theorem list_makes_one_request (options : obj) (s : St W) (k : string) :
  NoDup (map fst (own_props (field options "qs"))) ->
  requests (log (snd (list_ spark options s)))
  = (requests (log s) ++ [list_request options])%list
  /\ triggers (log (snd (list_ spark options s))) = triggers (log s)
  /\ prop (field (list_request options) "qs") k
     = if has_key (own_props (field options "qs")) k
       then field (own_props (field options "qs")) k
       else field list_defaults k.
Proof.
  intros Hnd.
  assert (Hone :
    requests (log (snd (list_ spark options s)))
    = (requests (log s) ++ [list_request options])%list
    /\ triggers (log (snd (list_ spark options s))) = triggers (log s)).
  { unfold list_. fold (list_request options).
    apply request_then_quiet. intros res.
    apply quiet_if; [apply quiet_ret |].
    apply quiet_bind; [apply quiet_lift |]. intros lp.
    apply quiet_bind; [apply quiet_lift |]. intros fp.
    destruct (prop (field res "body") "items");
      try (apply quiet_if; apply quiet_reject).
    apply quiet_bind; [| intros _; apply quiet_ret].
    apply quiet_all_map. intros x m. apply quiet_recordUUIDs. }
  destruct Hone as [Hr Ht]. split; [exact Hr | split; [exact Ht |]].
  unfold list_request. rewrite field_set_field. cbn [prop].
  unfold Lodash.assign.
  destruct (has_key (own_props (field options "qs")) k) eqn:E.
  - now apply assign_list_field_present.
  - now apply assign_list_field_absent.
Qed.

(** X7. A failure of the transport is the rejection of [_list], unchanged;
    an answer without items gives the empty sequence, and nothing is
    recorded. *)
Theorem list_fails_or_is_empty (options : obj) (s : St W) (w1 : W) :
  let s1 := mkSt w1 (log s ++ [Request (list_request options)]) in
  (forall reason,
      request spark (list_request options) (world s) = (Err reason, w1) ->
      list_ spark options s = (Err reason, s1))
  /\ (forall res,
         request spark (list_request options) (world s) = (Ok res, w1) ->
         no_items res ->
         list_ spark options s = (Ok (VArr []), s1)).
Proof.
  intros s1. split.
  - intros reason Hreq. unfold list_, bind, do_request, call.
    fold (list_request options). now rewrite Hreq.
  - intros res Hreq Hno. unfold list_, bind, do_request, call.
    fold (list_request options). rewrite Hreq.
    destruct Hno as [H | [H | H]].
    + now rewrite H.
    + rewrite H. cbn [negb orb]. now rewrite orb_true_r.
    + rewrite H. cbn [is_num]. now rewrite !orb_true_r.
Qed.

(** X8. [listActivities] and [listMentions] choose the resource themselves:
    whatever the options say about [mentions], the one lists activities
    and the other mentions, and the query never has a key [mentions]. *)
Theorem list_with_mentions_routes (mentions : bool) (options : value) :
  nullish options = false ->
  list_with_mentions spark mentions options
  = list_ spark (activities_listing mentions options)
  /\ has_key (own_props (field (list_request (activities_listing mentions options)) "qs"))
       "mentions" = false.
Proof.
  intros Hn. split.
  - unfold list_with_mentions, listActivities_, activities_listing.
    rewrite Hn. unfold Lodash.assign, Lodash.omit. cbn [own_props fold_left fst snd].
    rewrite field_set_field, remove_keys_set_field.
    now destruct mentions.
  - unfold list_request, activities_listing. cbn [field String.eqb Ascii.eqb Bool.eqb].
    rewrite field_set_field. cbn [own_props].
    unfold Lodash.assign. rewrite assign_list_has_key. cbn [own_props].
    rewrite remove_keys_has_key by (now left). reflexivity.
Qed.

(** X9. The query of [get] never has the keys [id], [user] and [url] of the
    options.  A conversation that has its url is fetched at that url when
    it names no user, and at conversations/user/<uuid>, without a uri,
    when it names one whose identifier resolves. *)
Theorem get_routes (c : obj) (options : value) (s : St W) :
  truthy (field c "url") = true ->
  (forall k, In k ["id"; "user"; "url"] -> has_key (get_query options) k = false)
  /\ (truthy (field c "user") = false ->
      get spark (VObj c) options s
      = get_tail spark
          [("qs", VObj (get_query options)); ("uri", field c "url")] s)
  /\ (forall uid w1,
         truthy (field c "user") = true ->
         user_asUUID spark (field c "user") VUndef (world s) = (Ok uid, w1) ->
         truthy uid = true ->
         get spark (VObj c) options s
         = get_tail spark
             [("qs", VObj (get_query options));
              ("service", VStr "conversation");
              ("resource", VStr ("conversations/user/" ++ to_string uid))]
             (mkSt w1 (log s ++ [AsUUID (field c "user") VUndef]))).
Proof.
  intros Hurl.
  assert (Hinfer : inferConversationUrl spark (VObj c) s = (Ok (VObj c), s)).
  { unfold inferConversationUrl, bind, lift, ret. cbn [member nullish prop].
    now rewrite Hurl. }
  split; [| split].
  - intros k Hk. unfold get_query, Lodash.assign, Lodash.omit.
    rewrite assign_list_has_key. cbn [own_props].
    rewrite (remove_keys_has_key _ _ _ Hk).
    destruct Hk as [<- | [<- | [<- | []]]]; reflexivity.
  - intros Huser. unfold get. unfold bind at 1. rewrite Hinfer.
    cbn [prop]. rewrite Huser. unfold bind at 1, ret. cbn [truthy].
    reflexivity.
  - intros uid w1 Huser Hid Huid. unfold get. unfold bind at 1. rewrite Hinfer.
    cbn [prop]. rewrite Huser. unfold bind at 1, call. rewrite Hid, Huid.
    reflexivity.
Qed.

End Listing.

(* ================================================================== *)
(** ** [updateTypingStatus] *)

Section Typing.

Context {W : Type} (spark : Spark W).

(** X10. [updateTypingStatus] names the conversation by its id, or, when it
    has none, by the last segment of its url; it then makes one request
    and nothing else.  A conversation with neither is refused before any
    request. *)
Theorem updateTypingStatus_identifies
    (c : obj) (options typing : value) (s : St W) :
  member options "typing" = Ok typing ->
  (truthy (field c "id") = true ->
   updateTypingStatus spark (VObj c) options s
   = do_request spark (typing_request (VObj c) typing) s)
  /\ (forall url,
         truthy (field c "id") = false ->
         field c "url" = VStr url -> url <> ""%string ->
         updateTypingStatus spark (VObj c) options s
         = do_request spark
             (typing_request (VObj (set_field c "id" (VStr (last_segment url))))
                typing) s
         /\ prop (field (typing_request
                           (VObj (set_field c "id" (VStr (last_segment url))))
                           typing) "body") "conversationId"
            = VStr (last_segment url))
  /\ (truthy (field c "id") = false ->
      truthy (field c "url") = false ->
      updateTypingStatus spark (VObj c) options s = (Err identify_error, s)).
Proof.
  intros Hopt. unfold updateTypingStatus, identify, bind, lift.
  cbn [member nullish prop].
  split; [| split].
  - intros Hid. now rewrite Hid, Hopt.
  - intros url Hid Hurl Hne. rewrite Hid, Hurl.
    assert (Ht : truthy (VStr url) = true).
    { cbn. destruct (String.eqb_spec url ""); [contradiction | reflexivity]. }
    rewrite Ht. cbn [set_prop]. rewrite Hopt. split; [reflexivity |].
    cbn. now rewrite field_set_field.
  - intros Hid Hurl. now rewrite Hid, Hurl.
Qed.

End Typing.

(* ================================================================== *)
(** ** [uniq] and [create] *)

Lemma same_value_zero_eq (x y : value) : same_value_zero x y = true -> x = y.
Proof.
  destruct x, y; cbn; try discriminate; try reflexivity.
  - intros H. f_equal. now apply Bool.eqb_prop.
  - intros H. f_equal. now apply Z.eqb_eq.
  - intros H. f_equal. now apply String.eqb_eq.
Qed.

Lemma same_value_zero_refl (x : value) : primitive x -> same_value_zero x x = true.
Proof.
  unfold primitive. destruct x; cbn; try discriminate; intros _; try reflexivity.
  - now destruct b.
  - apply Z.eqb_refl.
  - apply String.eqb_refl.
Qed.

Lemma uniq_from_unseen (seen l : list value) (y : value) :
  In y (Lodash.uniq_from seen l) -> existsb (same_value_zero y) seen = false.
Proof.
  revert seen. induction l as [|x l IH]; intros seen; cbn; [intros [] |].
  destruct (existsb (same_value_zero x) seen) eqn:E.
  - apply IH.
  - intros [<- | Hin]; [exact E |].
    specialize (IH _ Hin). cbn in IH. now apply orb_false_elim in IH.
Qed.

Lemma uniq_from_NoDup (seen l : list value) :
  Forall primitive l -> NoDup (Lodash.uniq_from seen l).
Proof.
  intros Hp. revert seen. induction Hp as [|x l Hx Hl IH]; intros seen; cbn.
  - constructor.
  - destruct (existsb (same_value_zero x) seen); [apply IH |].
    constructor; [| apply IH].
    intros Hin. apply uniq_from_unseen in Hin. cbn in Hin.
    now rewrite (same_value_zero_refl x Hx) in Hin.
Qed.

Lemma uniq_from_complete (seen l : list value) (y : value) :
  Forall primitive l -> In y l ->
  In y (Lodash.uniq_from seen l) \/ existsb (same_value_zero y) seen = true.
Proof.
  intros Hp. revert seen. induction Hp as [|x l Hx Hl IH]; intros seen; cbn;
    [intros [] |].
  intros [<- | Hin].
  - destruct (existsb (same_value_zero x) seen); [now right | left; now left].
  - destruct (existsb (same_value_zero x) seen) eqn:E.
    + now apply IH.
    + destruct (IH (x :: seen) Hin) as [H | H]; [left; now right |].
      cbn in H. apply orb_true_iff in H as [H | H]; [| now right].
      apply same_value_zero_eq in H. subst. left. now left.
Qed.

Lemma all_map_length {W A X} (f : X -> Res (M W A)) (l : list X)
    (s s' : St W) (results : list A) :
  all_map f l s = (Ok results, s') -> List.length results = List.length l.
Proof.
  unfold all_map.
  assert (H : forall s s' rs,
             start_all f l s = (inr (Ok rs), s') ->
             List.length rs = List.length l).
  { induction l as [|x l IH]; intros s0 s0' rs; cbn [start_all].
    - now intros [= <- _].
    - destruct (f x) as [m|thrown]; [| discriminate].
      destruct (m s0) as [ra s1].
      destruct (start_all f l s1) as [[thrown|rest] s2] eqn:E; [discriminate |].
      destruct ra as [a|r]; [| discriminate].
      destruct rest as [rs'|r]; [| discriminate].
      intros [= <- _]. cbn. f_equal. eapply IH. exact E. }
  destruct (start_all f l s) as [[thrown|[rs|r]] s2] eqn:E; try discriminate.
  intros [= <- _]. eapply H. exact E.
Qed.

Section Create.

Context {W : Type} (spark : Spark W) (sharing : Sharing W).

(** X11. [create] refuses parameters without participants before any call.
    With participants it resolves every one of them, puts the user of
    the device first and removes the duplicates: the participants that
    it goes on with start with that user, have no duplicate and miss
    none of the resolved ones, and the second of them, the one that a
    lookup of a conversation of two asks for, is not that user. *)
Theorem create_participants
    (params options : obj) (l ids : list value) (me : value) (s s1 : St W) :
  (truthy (field params "participants") = false
   \/ field params "participants" = VArr [] ->
   create spark sharing (VObj params) (VObj options) s
   = (Err participants_error, s))
  /\ (field params "participants" = VArr l -> l <> [] ->
      all_map (fun p => Ok (asUUID spark p (VObj [("create", VBool true)]))) l s
      = (Ok ids, s1) ->
      device_userId spark (world s1) = me ->
      Forall primitive (me :: ids) ->
      let unique := Lodash.uniq (me :: ids) in
      create spark sharing (VObj params) (VObj options) s
      = create_with spark sharing
          (VObj (set_field params "participants" (VArr unique)))
          (VObj options) unique s1
      /\ log s1
         = (log s ++ map (fun p => AsUUID p (VObj [("create", VBool true)])) l)%list
      /\ hd_error unique = Some me
      /\ NoDup unique
      /\ (forall id, In id ids -> In id unique)
      /\ (forall other, nth_error unique 1 = Some other -> other <> me)).
Proof.
  split.
  - intros H. unfold create, bind, lift. cbn [member nullish prop].
    destruct H as [H | H]; rewrite H; reflexivity.
  - intros Hl Hne Hall Hme Hprim unique.
    split; [| split; [| split; [| split; [| split]]]].
    + unfold create, bind, lift. cbn [member nullish prop]. rewrite Hl.
      cbn [truthy negb orb prop String.eqb Ascii.eqb Bool.eqb is_num].
      destruct l as [|p l']; [contradiction |].
      cbn [List.length Z.of_nat Z.eqb]. rewrite Hall.
      unfold userId at 1. rewrite Hme. reflexivity.
    + pose proof (all_map_calls (fun p => AsUUID p (VObj [("create", VBool true)]))
                    (fun p => user_asUUID spark p (VObj [("create", VBool true)]))
                    l s) as Hlog.
      unfold asUUID in Hall. cbv beta in Hlog. rewrite Hall in Hlog. exact Hlog.
    + reflexivity.
    + apply uniq_from_NoDup. exact Hprim.
    + intros id Hin.
      destruct (uniq_from_complete [] (me :: ids) id Hprim (or_intror Hin))
        as [H | H]; [exact H | discriminate H].
    + intros other Hnth Heq. subst other.
      unfold unique, Lodash.uniq in Hnth. cbn [Lodash.uniq_from existsb] in Hnth.
      cbn [nth_error] in Hnth.
      destruct (Lodash.uniq_from [me] ids) as [|y r] eqn:E; [discriminate |].
      injection Hnth as ->.
      assert (Hnth : In me (Lodash.uniq_from [me] ids)) by (rewrite E; now left).
      apply uniq_from_unseen in Hnth. cbn in Hnth.
      inversion Hprim as [|? ? Hm _]; subst.
      now rewrite (same_value_zero_refl _ Hm) in Hnth.
Qed.

End Create.

(* ================================================================== *)
(** ** The payload of a creation *)

Lemma expand_verb (uid : value) (verb : string) (o t a : value) :
  field (expand uid verb o t a) "verb" = VStr verb.
Proof.
  unfold expand.
  destruct (truthy t); destruct (truthy o);
    destruct (isString (if truthy a then a else uid));
    rewrite ?field_set_field_other by discriminate; reflexivity.
Qed.

Lemma expand_object (uid : value) (verb : string) (o : value) :
  truthy o = true -> field (expand uid verb o VUndef VUndef) "object" = o.
Proof.
  intros Ho. unfold expand. cbn [truthy]. rewrite Ho. apply field_set_field.
Qed.

Lemma firstn_app_length {A} (l r : list A) : firstn (List.length l) (l ++ r) = l.
Proof. induction l; cbn; [now destruct r | now f_equal]. Qed.

Section Payload.

Context {W : Type} (spark : Spark W).

(** X12. [_createGrouped] posts one payload to the conversation service, and
    that is all it does.  The payload holds a create activity, then one
    add activity for every participant, in their order, then a post
    activity if there is a comment; its KMS message names exactly the
    participants; it has a display name only if the parameters have a
    non-empty one, and no tags. *)
Theorem createGrouped_payload (params : value) (l : list value) (s : St W) :
  prop params "participants" = VArr l ->
  exists payload,
    createGrouped spark params s = create_ spark payload s
    /\ map (fun a => prop a "verb") (payload_activities payload)
       = creation_verbs (List.length l) (prop params "comment")
    /\ map (fun a => prop (prop a "object") "id")
         (firstn (List.length l) (tl (payload_activities payload)))
       = l
    /\ prop (field payload "kmsMessage") "userIds" = VArr l
    /\ has_key payload "displayName" = truthy (prop params "displayName")
    /\ has_key payload "tags" = false.
Proof.
  intros Hl.
  unfold createGrouped, prepareConversationForCreation, bind, userId.
  rewrite Hl. unfold ret. eexists.
  split; [reflexivity |].
  set (uid := device_userId spark (world s)).
  split; [| split; [| split; [| split]]].
  - unfold payload_activities. cbn [field String.eqb Ascii.eqb Bool.eqb app prop].
    cbn [map]. cbn [prop]. rewrite expand_verb. unfold creation_verbs.
    f_equal. rewrite map_app, map_map. f_equal.
    + clear Hl. induction l as [|p l IH]; cbn [map List.length repeat]; [reflexivity |].
      cbn [prop]. rewrite expand_verb. now f_equal.
    + destruct (truthy (prop params "comment")); [| reflexivity].
      cbn [map prop]. now rewrite expand_verb.
  - unfold payload_activities. cbn [field String.eqb Ascii.eqb Bool.eqb app prop tl].
    rewrite <- (length_map
                  (fun participant =>
                     VObj (expand uid "add"
                             (VObj [("objectType", VStr "person"); ("id", participant)])
                             VUndef VUndef)) l) at 1.
    rewrite firstn_app_length, map_map.
    clear Hl. induction l as [|p l IH]; cbn [map]; [reflexivity |].
    cbn [prop]. rewrite expand_object by reflexivity. cbn. now f_equal.
  - reflexivity.
  - destruct (truthy (prop params "displayName")); reflexivity.
  - destruct (truthy (prop params "displayName")); reflexivity.
Qed.

End Payload.

(* ================================================================== *)
(** ** A lookup that succeeds, and a comment that cannot be posted *)

Section FailedPost.

Context {W : Type} (spark : Spark W).

(** X13. The fallback of [_maybeCreateOneOnOneThenPost] also catches the
    failure of the post of the comment: when the conversation of two was
    found and the post of the comment to it fails, a failure with
    statusCode 404 makes the resolver create a conversation with the tags
    ["ONE_ON_ONE"], and any other failure is the rejection of the
    resolver. *)
Theorem one_on_one_failed_post
    (params options me other conversation : value) (reason : obj)
    (s s1 s2 : St W) :
  prop params "participants" = VArr [me; other] ->
  get spark (VObj [("user", other)]) options s = (Ok conversation, s1) ->
  truthy (prop params "comment") = true ->
  post spark conversation (VObj [("displayName", prop params "comment")]) Absent s1
  = (Err reason, s2) ->
  (field reason "statusCode" = VNum 404 ->
   exists payload,
     field payload "tags" = VArr [VStr "ONE_ON_ONE"]
     /\ maybeCreateOneOnOneThenPost spark params options s
        = create_ spark payload s2
     /\ log (snd (maybeCreateOneOnOneThenPost spark params options s))
        = (log s2 ++ [Request (creation_request payload)])%list)
  /\ (field reason "statusCode" <> VNum 404 ->
      maybeCreateOneOnOneThenPost spark params options s = (Err reason, s2)).
Proof.
  intros Hparts Hget Hc Hpost.
  assert (Hwho : other_user params = Ok (VObj [("user", other)])).
  { unfold other_user, member.
    destruct params; try discriminate Hparts; cbn [nullish];
      rewrite Hparts; reflexivity. }
  assert (Hrun : maybeCreateOneOnOneThenPost spark params options s
                 = create_on_miss spark params reason s2).
  { unfold maybeCreateOneOnOneThenPost, bind, lift, catch.
    rewrite Hwho, Hget. unfold post_comment. rewrite Hc.
    unfold bind at 1. rewrite Hpost. reflexivity. }
  rewrite Hrun. unfold create_on_miss. split.
  - intros H404. apply is_num_true in H404. rewrite H404. cbn [negb].
    destruct (prepareConversationForCreation_total spark params [me; other] s2 Hparts)
      as [p Hp].
    exists (set_field p "tags" (VArr [VStr "ONE_ON_ONE"])).
    unfold bind. rewrite Hp.
    split; [apply field_set_field | split; [reflexivity | apply create_log]].
  - intros Hother.
    destruct (is_num (field reason "statusCode") 404) eqn:E; [| reflexivity].
    apply is_num_true in E. contradiction.
Qed.

End FailedPost.

(* ================================================================== *)
(** ** [normalizeTeam] and [decryptTeam] *)

Lemma ensure_items_spec (team t1 : obj) (k : string) :
  Team.ensure_items team k = Ok t1 ->
  isArray (field team k) = false ->
  (exists c, field t1 k = VObj c
             /\ field c "items" = or_else (prop (field team k) "items") (VArr []))
  /\ (forall k', k <> k' -> field t1 k' = field team k').
Proof.
  unfold Team.ensure_items, or_else. intros H Harr.
  destruct (field team k) as [| |b|n|str|l|c] eqn:E; cbn [truthy] in H;
    try discriminate Harr.
  - injection H as <-. split.
    + eexists. rewrite field_set_field. split; reflexivity.
    + intros k' Hne. now apply field_set_field_other.
  - injection H as <-. split.
    + eexists. rewrite field_set_field. split; reflexivity.
    + intros k' Hne. now apply field_set_field_other.
  - destruct b; [discriminate H |]. injection H as <-. split.
    + eexists. rewrite field_set_field. split; reflexivity.
    + intros k' Hne. now apply field_set_field_other.
  - destruct (negb (n =? 0)); [discriminate H |]. injection H as <-. split.
    + eexists. rewrite field_set_field. split; reflexivity.
    + intros k' Hne. now apply field_set_field_other.
  - destruct (negb (str =? "")%string) eqn:Es; [discriminate H |].
    injection H as <-. split.
    + eexists. rewrite field_set_field. split; [reflexivity |].
      apply negb_false_iff, String.eqb_eq in Es. subst str. reflexivity.
    + intros k' Hne. now apply field_set_field_other.
  - injection H as <-. split.
    + eexists. rewrite field_set_field. split; [reflexivity |].
      cbn [prop]. apply field_set_field.
    + intros k' Hne. now apply field_set_field_other.
Qed.

Lemma or_else_items (x : value) (l : list value) :
  or_else x (VArr []) = VArr l ->
  match x with VArr l0 => l0 | _ => [] end = l.
Proof.
  unfold or_else. destruct x as [| |b|n|str|l0|o]; cbn [truthy].
  - now intros [= <-].
  - now intros [= <-].
  - destruct b; [discriminate | now intros [= <-]].
  - destruct (negb (n =? 0)); [discriminate | now intros [= <-]].
  - destruct (negb (str =? "")%string); [discriminate | now intros [= <-]].
  - now intros [= <-].
  - discriminate.
Qed.

Section NormalizeTeam.

Context {W : Type} (items : Team.Items W).

(** X14. For a team whose collections conversations and teamMembers are
    not themselves arrays: [normalizeTeam] resolves only to a team in
    which both have an array of items, as long as the one they came
    with, or empty if they came with none; and whenever it resolves it
    has called normalizeObject once for every item, the conversations
    first, and nothing else. *)
Theorem normalizeTeam_collections (team team' : obj) (s s' : St W) :
  isArray (field team "conversations") = false ->
  isArray (field team "teamMembers") = false ->
  Team.normalizeTeam items team s = (Ok team', s') ->
  (forall k, k = "conversations"%string \/ k = "teamMembers"%string ->
     exists l, prop (field team' k) "items" = VArr l
               /\ List.length l = List.length (items_of team k))
  /\ log s'
     = (log s
        ++ map (item_call "normalizeObject" []) (items_of team "conversations")
        ++ map (item_call "normalizeObject" []) (items_of team "teamMembers"))%list.
Proof.
  intros Ha1 Ha2. unfold Team.normalizeTeam, bind, lift.
  destruct (Team.ensure_items team "conversations") as [t1|?] eqn:E1;
    [| discriminate].
  destruct (Team.ensure_items t1 "teamMembers") as [t2|?] eqn:E2;
    [| discriminate].
  destruct (ensure_items_spec _ _ _ E1 Ha1) as [[c1 [Hc1 Hi1]] Ho1].
  assert (Ht1 : field t1 "teamMembers" = field team "teamMembers")
    by (apply Ho1; discriminate).
  rewrite <- Ht1 in Ha2.
  destruct (ensure_items_spec _ _ _ E2 Ha2) as [[c2 [Hc2 Hi2]] Ho2].
  rewrite Ht1 in Hi2.
  assert (Hc1' : field t2 "conversations" = VObj c1)
    by (rewrite Ho2 by discriminate; exact Hc1).
  unfold Team.normalize_items. rewrite Hc1', Hc2. cbn [prop].
  rewrite Hi1, Hi2.
  pose proof (or_else_items (prop (field team "conversations") "items")) as I1.
  pose proof (or_else_items (prop (field team "teamMembers") "items")) as I2.
  fold (items_of team "conversations") in I1.
  fold (items_of team "teamMembers") in I2.
  set (f := fun i : value => Ok (Team.do_item items "normalizeObject" [] i)).
  destruct (or_else (prop (field team "conversations") "items") (VArr []))
    as [| | | | |l1|]; cbv beta iota; try (intros H; discriminate H).
  specialize (I1 _ eq_refl).
  assert (L1 : log (snd (all_map f l1 s))
               = (log s ++ map (item_call "normalizeObject" []) l1)%list)
    by exact (all_map_calls (item_call "normalizeObject" [])
                (Team.transform_item items "normalizeObject" []) l1 s).
  pose proof (all_map_length f l1 s) as N1.
  destruct (all_map f l1 s) as [r1 s1].
  destruct (or_else (prop (field team "teamMembers") "items") (VArr []))
    as [| | | | |l2|]; cbv beta iota; try (intros H; discriminate H).
  specialize (I2 _ eq_refl).
  assert (L2 : log (snd (all_map f l2 s1))
               = (log s1 ++ map (item_call "normalizeObject" []) l2)%list)
    by exact (all_map_calls (item_call "normalizeObject" [])
                (Team.transform_item items "normalizeObject" []) l2 s1).
  pose proof (all_map_length f l2 s1) as N2.
  destruct (all_map f l2 s1) as [r2 s2].
  destruct r1 as [l1'|?]; [| discriminate].
  destruct r2 as [l2'|?]; [| discriminate].
  intros [= <- <-]. cbn [snd] in L1, L2.
  specialize (N1 _ _ eq_refl). specialize (N2 _ _ eq_refl).
  split.
  - intros k [-> | ->].
    + exists l1'. split; [| now rewrite I1].
      unfold Team.with_items.
      rewrite field_set_field_other by discriminate.
      rewrite field_set_field, Hc1'. cbn. apply field_set_field.
    + exists l2'. split; [| now rewrite I2].
      unfold Team.with_items.
      rewrite field_set_field, field_set_field_other by discriminate.
      rewrite Hc2. cbn. apply field_set_field.
  - rewrite L2, L1, I1, I2, <- app_assoc. reflexivity.
Qed.

End NormalizeTeam.

Section DecryptTeam.

Context {W : Type} (ctx : Team.Ctx W) (items : Team.Items W).

(** X15. [decryptTeam] reads the items of the conversations of the team
    first: a team without conversations is refused with the TypeError of
    that read, before any transform.  For a team with an array of
    conversations it calls decryptObject once for every conversation and
    then, only if the team has a key or one was supplied, the transforms
    of the display name and of the summary; the key that they are given
    is the key of the team whenever the team has one. *)
Theorem decryptTeam_calls (key : value) (team : obj) (s : St W) :
  (nullish (field team "conversations") = true ->
   exists thrown, Team.decryptTeam ctx items key team s = (Err thrown, s))
  /\ (forall l,
        prop (field team "conversations") "items" = VArr l ->
        let usable := or_else (field team "encryptionKeyUrl") key in
        exists rest,
          log (snd (Team.decryptTeam ctx items key team s))
          = (log s ++ map (item_call "decryptObject" [VNull]) l ++ rest)%list
          /\ (truthy usable = false -> rest = [])
          /\ (truthy usable = true ->
              exists t0 t1,
                rest = [Transform "decryptPropDisplayName" [usable; VObj t0];
                        Transform "decryptTextProp"
                          [VStr "summary"; usable; VObj t1]])).
Proof.
  split.
  - intros Hn. unfold Team.decryptTeam, member. rewrite Hn. eauto.
  - intros l Hl usable.
    assert (Hn : nullish (field team "conversations") = false).
    { destruct (field team "conversations"); try reflexivity; discriminate Hl. }
    unfold Team.decryptTeam, member. rewrite Hn, Hl. cbn [truthy].
    fold usable.
    set (f := fun i : value => Ok (Team.do_item items "decryptObject" [VNull] i)).
    assert (L : log (snd (all_map f l s))
                = (log s ++ map (item_call "decryptObject" [VNull]) l)%list)
      by exact (all_map_calls (item_call "decryptObject" [VNull])
                  (Team.transform_item items "decryptObject" [VNull]) l s).
    destruct (all_map f l s) as [r s0]. cbn [snd] in L.
    unfold Team.decrypt_props.
    destruct (truthy usable) eqn:Hu.
    + unfold Team.decryptPropSummary, Team.do_transform, call.
      destruct (Team.transform ctx "decryptPropDisplayName" _ _ _) as [r1 w1].
      cbn [world log].
      destruct (Team.transform ctx "decryptTextProp" _ _ _) as [r2 w2].
      cbn [snd log]. eexists. split; [| split].
      * rewrite L, <- !app_assoc. cbn [app]. reflexivity.
      * discriminate.
      * intros _. eauto.
    + exists []. cbn [snd]. rewrite L, app_nil_r.
      split; [reflexivity | split; [reflexivity | discriminate]].
Qed.

End DecryptTeam.

(* ================================================================== *)
(** ** Keys: what the KMS is asked, and what its refusal does *)

Section Minting.

Context {W : Type} (spark : Spark W) (ctx : Team.Ctx W).

(** X16. When no key is supplied and the KMS refuses to mint one, its reason
    is the rejection of [_updateKey] and of [encryptTeam], and the call
    of the KMS is all that happened: nothing was prepared, submitted or
    transformed. *)
Theorem kms_refusal_is_the_outcome
    (key : value) (reason : obj) (s : St W) (w1 : W) :
  truthy key = false ->
  (forall conversation activity,
     kms_createUnboundKeys spark mint_one (world s) = (Err reason, w1) ->
     updateKey_ spark conversation key activity s
     = (Err reason, mkSt w1 (log s ++ [CreateUnboundKeys mint_one])))
  /\ (forall team,
        key <> VBool false ->
        Team.kms_createUnboundKeys ctx mint_one (world s) = (Err reason, w1) ->
        Team.encryptTeam ctx key team s
        = (Err reason, mkSt w1 (log s ++ [CreateUnboundKeys mint_one]))).
Proof.
  intros Hf. split.
  - intros conversation activity Hk.
    unfold updateKey_, bind at 1. rewrite Hf. unfold call. now rewrite Hk.
  - intros team Hnf Hk. unfold Team.encryptTeam.
    destruct key as [| |[]| | | |]; try discriminate Hf; try congruence;
      unfold bind at 1, call; rewrite Hf; cbv beta iota; now rewrite Hk.
Qed.

(** X17. With a key supplied, [encryptTeam] does not turn to the KMS: all it
    calls are transforms, none or two of them. *)
Theorem encryptTeam_with_key_asks_no_kms (key : value) (team : obj) (s : St W) :
  truthy key = true ->
  exists calls,
    log (snd (Team.encryptTeam ctx key team s)) = (log s ++ calls)%list
    /\ forallb is_transform calls = true
    /\ (List.length calls = 0 \/ List.length calls = 2)%nat.
Proof.
  intros Ht.
  assert (Hrun : Team.encryptTeam ctx key team s
                 = (let k := if isArray key then at_index key 0 else key in
                    tracked <- lift (Team.track_key team k);;
                    encrypted <- Team.encrypt_props ctx k tracked;;
                    lift (Team.bind_urls key k encrypted))%promise s).
  { unfold Team.encryptTeam.
    destruct key as [| |[]| | | |]; try discriminate Ht;
      unfold bind at 1; rewrite Ht; reflexivity. }
  rewrite Hrun. cbv zeta. unfold bind, lift.
  destruct (Team.track_key team _) as [tracked|thrown].
  - unfold Team.encrypt_props, Team.encryptPropSummary, Team.do_transform, call.
    destruct (Team.transform ctx "encryptPropDisplayName" _ _ _) as [r1 w2].
    cbn [world log].
    destruct (Team.transform ctx "encryptTextProp" _ _ _) as [r2 w3].
    destruct r1 as [t1|e1]; destruct r2 as [t2|e2];
      try destruct (Team.bind_urls key _ t2);
      cbn [snd log]; rewrite <- app_assoc;
      (eexists; split; [reflexivity | split; [reflexivity | now right]]).
  - exists []. cbn [snd]. rewrite app_nil_r. split; [reflexivity | split; [reflexivity | now left]].
Qed.

End Minting.

(* ================================================================== *)
(** ** [prepareConversation] *)

Lemma field_app (o1 o2 : obj) (k : string) :
  field (o1 ++ o2)%list k = if has_key o1 k then field o1 k else field o2 k.
Proof.
  induction o1 as [|[k0 v0] o1 IH]; cbn; [reflexivity |].
  destruct (k0 =? k)%string; [reflexivity | exact IH].
Qed.

Lemma has_key_app (o1 o2 : obj) (k : string) :
  has_key (o1 ++ o2)%list k = has_key o1 k || has_key o2 k.
Proof.
  induction o1 as [|[k0 v0] o1 IH]; cbn; [reflexivity |].
  rewrite IH. now rewrite orb_assoc.
Qed.

Lemma has_key_pick (c : obj) (keys : list string) (k : string) :
  has_key (Lodash.pick (VObj c) keys) k
  = existsb (String.eqb k) keys && has_key c k.
Proof.
  unfold Lodash.pick. induction keys as [|k0 keys IH]; cbn [flat_map existsb];
    [reflexivity |].
  rewrite has_key_app, IH. cbn [has_prop prop].
  destruct (String.eqb_spec k k0) as [<- | Hne].
  - destruct (has_key c k) eqn:E; cbn.
    + now rewrite String.eqb_refl.
    + now rewrite andb_false_r.
  - destruct (has_key c k0); cbn; [| reflexivity].
    destruct (String.eqb_spec k0 k); [congruence | reflexivity].
Qed.

Lemma field_pick (c : obj) (keys : list string) (k : string) :
  field (Lodash.pick (VObj c) keys) k
  = if existsb (String.eqb k) keys then field c k else VUndef.
Proof.
  unfold Lodash.pick. induction keys as [|k0 keys IH]; cbn [flat_map existsb];
    [reflexivity |].
  rewrite field_app, IH. cbn [has_prop prop].
  destruct (String.eqb_spec k k0) as [<- | Hne].
  - destruct (has_key c k) eqn:E; cbn.
    + now rewrite String.eqb_refl.
    + rewrite (field_without_key _ _ E). now destruct (existsb _ keys).
  - destruct (has_key c k0); cbn; [| reflexivity].
    destruct (String.eqb_spec k0 k); [congruence | reflexivity].
Qed.

(** X18. The reference to a conversation that [prepareConversation] makes
    holds the fields id, url, objectType, defaultActivityEncryptionKeyUrl
    and kmsResourceObjectUrl of the conversation and no other key; its
    objectType is "conversation" where the conversation has none. *)
Theorem prepareConversation_allow_list (c : obj) (k : string) :
  field (prepareConversation (VObj c)) k
  = (if (k =? "objectType")%string
     then match field c "objectType" with
          | VUndef => VStr "conversation"
          | own => own
          end
     else if existsb (String.eqb k) conversation_fields then field c k
          else VUndef)
  /\ (has_key (prepareConversation (VObj c)) k = true ->
      In k conversation_fields).
Proof.
  unfold prepareConversation, Lodash.defaults. cbn [own_props fold_left fst snd].
  pose proof (field_pick c conversation_fields "objectType") as Hot.
  cbn [existsb conversation_fields String.eqb Ascii.eqb Bool.eqb orb] in Hot.
  split.
  - destruct (String.eqb_spec k "objectType") as [-> | Hne].
    + rewrite Hot.
      destruct (field c "objectType") eqn:E;
        rewrite ?field_set_field, ?Hot, ?E; reflexivity.
    + destruct (field (Lodash.pick (VObj c) conversation_fields) "objectType");
        rewrite ?field_set_field_other by congruence; apply field_pick.
  - assert (Hin : forall keys, existsb (String.eqb k) keys = true -> In k keys).
    { intros keys H. apply existsb_exists in H as [x [Hx He]].
      apply String.eqb_eq in He. now subst. }
    intros Hk. apply Hin.
    destruct (field (Lodash.pick (VObj c) conversation_fields) "objectType");
      rewrite ?has_key_set_field, ?has_key_pick in Hk;
      try (apply andb_true_iff in Hk as [Hk _]; exact Hk).
    apply orb_true_iff in Hk as [Hk | Hk].
    + apply String.eqb_eq in Hk. subst k. reflexivity.
    + apply andb_true_iff in Hk as [Hk _]. exact Hk.
Qed.

(* ================================================================== *)
(** ** The description of a downloaded file *)

(** X19. After a download the file has the name and the type of the item
    where it had none, keeps the ones it had, and keeps everything
    else. *)
Theorem describe_file_fills_gaps (item : value) (f : obj) :
  exists f',
    describe_file item (VObj f) = Ok (VObj f')
    /\ field f' "name"
       = (if truthy (field f "name") then field f "name"
          else if truthy (prop item "displayName") then prop item "displayName"
               else field f "name")
    /\ field f' "type"
       = (if truthy (field f "type") then field f "type"
          else if truthy (prop item "mimeType") then prop item "mimeType"
               else field f "type")
    /\ (forall k, k <> "name"%string -> k <> "type"%string ->
                  field f' k = field f k).
Proof.
  unfold describe_file. cbn [member nullish prop assign_prop].
  destruct (truthy (prop item "displayName")) eqn:Hd;
    destruct (truthy (field f "name")) eqn:Hn;
    cbn [member nullish prop assign_prop];
    rewrite ?field_set_field_other by discriminate;
    destruct (truthy (field f "type")) eqn:Ht; cbn [negb andb];
    try destruct (truthy (prop item "mimeType")) eqn:Hm;
    cbn [assign_prop];
    eexists; (split; [reflexivity |]);
    rewrite ?field_set_field, ?field_set_field_other by discriminate;
    rewrite ?field_set_field;
    (split; [reflexivity | split; [reflexivity |]]);
    intros k Hk1 Hk2;
    rewrite ?field_set_field_other by congruence; reflexivity.
Qed.

(* ================================================================== *)
(** ** The properties above, on the concrete backend *)

Lemma inferConversationUrl_round_trip_witness :
  let c' := VObj (set_field known_by_id "url"
                    (VStr (inferred_url base_url "room-9"))) in
  let s1 := after_inference Backend.quiet Backend.s0 0%nat in
  inferConversationUrl Backend.quiet (VObj known_by_id) Backend.s0 = (Ok c', s1)
  /\ inferConversationUrl Backend.quiet c' s1 = (Ok c', s1)
  /\ prop c' "id" = VStr "room-9"
  /\ last_segment (inferred_url base_url "room-9") = "room-9"%string.
Proof.
  destruct (inferConversationUrl_round_trip Backend.quiet known_by_id "room-9"
              base_url Backend.s0 0%nat eq_refl eq_refl ltac:(discriminate)
              eq_refl)
    as (H1 & H2 & H3 & H4).
  split; [exact H1 | split; [exact H2 | split; [exact H3 |]]].
  apply H4. reflexivity.
Defined.

Lemma prepare_keeps_defined_fields_witness :
  prepare Backend.quiet (Plain own_activity) deletion Backend.s0
  = (Ok prepared_deletion, after_uuid)
  /\ field prepared_deletion "clientTempId" = VStr "mine"
  /\ field prepared_deletion "verb" = VStr "delete".
Proof.
  split; [vm_compute; reflexivity | split].
  - apply (prepare_keeps_defined_fields Backend.quiet own_activity
             prepared_deletion deletion Backend.s0 after_uuid "clientTempId").
    + vm_compute. reflexivity.
    + reflexivity.
  - apply (prepare_keeps_defined_fields Backend.quiet own_activity
             prepared_deletion deletion Backend.s0 after_uuid "verb").
    + vm_compute. reflexivity.
    + reflexivity.
Defined.

Lemma prepare_derives_ids_witness :
  truthy (prop (field prepared_deletion "object") "id") = true
  \/ exists url,
       prop (field prepared_deletion "object") "url" = VStr url
       /\ prop (field prepared_deletion "object") "id" = VStr (last_segment url).
Proof.
  apply (prepare_derives_ids Backend.quiet (Plain own_activity) deletion
           prepared_deletion Backend.s0 after_uuid "object").
  - vm_compute. reflexivity.
  - left. reflexivity.
  - reflexivity.
Defined.

Lemma recordUUIDs_records_everyone_witness :
  exists m,
    recordUUIDs Backend.quiet fresh_room = Ok m
    /\ (forall s,
          log (snd (m s))
          = (log s
             ++ map RecordUUID
                  [VObj [("id", VStr "alice"); ("objectType", VStr "person")];
                   VObj [("id", VStr "bob"); ("objectType", VStr "person")]])%list)
    /\ (forall s, fst (m s) = Ok tt).
Proof.
  destruct (recordUUIDs_records_everyone Backend.quiet fresh_room
              [VObj [("id", VStr "alice"); ("objectType", VStr "person")];
               VObj [("id", VStr "bob"); ("objectType", VStr "person")]]
              eq_refl)
    as (m & Hm & Hlog & Hall).
  exists m. split; [exact Hm | split; [exact Hlog |]].
  apply Hall. intros p w. exists VUndef, w. reflexivity.
Defined.

Lemma list_makes_one_request_witness :
  requests (log (snd (list_ (listing [5; 3; 1]) limited Backend.s0)))
  = (requests (log Backend.s0) ++ [list_request limited])%list
  /\ triggers (log (snd (list_ (listing [5; 3; 1]) limited Backend.s0)))
     = triggers (log Backend.s0)
  /\ prop (field (list_request limited) "qs") "activitiesLimit" = VNum 5.
Proof.
  apply (list_makes_one_request (listing [5; 3; 1]) limited Backend.s0
           "activitiesLimit").
  constructor; [intros [] | constructor].
Defined.

Lemma list_fails_or_is_empty_witness :
  list_ offline conversations Backend.s0
  = (Err Backend.unavailable, after_listing)
  /\ list_ (listing []) conversations Backend.s0 = (Ok (VArr []), after_listing).
Proof.
  split.
  - apply (proj1 (list_fails_or_is_empty offline conversations Backend.s0 0%nat)).
    reflexivity.
  - apply (proj2 (list_fails_or_is_empty (listing []) conversations Backend.s0
                    0%nat)
             [("statusCode", VNum 200); ("body", VObj [("items", VArr [])])]).
    + reflexivity.
    + right. right. reflexivity.
Defined.

Lemma list_with_mentions_routes_witness :
  list_with_mentions Backend.quiet false asking_mentions
  = list_ Backend.quiet (activities_listing false asking_mentions)
  /\ has_key (own_props
                (field (list_request (activities_listing false asking_mentions))
                   "qs")) "mentions" = false.
Proof.
  apply (list_with_mentions_routes Backend.quiet false asking_mentions).
  reflexivity.
Defined.

Lemma get_routes_witness :
  get Backend.quiet (VObj known_by_url) VUndef Backend.s0
  = get_tail Backend.quiet
      [("qs", VObj (get_query VUndef)); ("uri", field known_by_url "url")]
      Backend.s0
  /\ get Backend.quiet (VObj with_bob) VUndef Backend.s0
     = get_tail Backend.quiet
         [("qs", VObj (get_query VUndef));
          ("service", VStr "conversation");
          ("resource", VStr "conversations/user/bob")]
         (mkSt 0%nat [AsUUID (VStr "bob") VUndef]).
Proof.
  split.
  - apply (proj1 (proj2 (get_routes Backend.quiet known_by_url VUndef Backend.s0
                           eq_refl))).
    reflexivity.
  - apply (proj2 (proj2 (get_routes Backend.quiet with_bob VUndef Backend.s0
                           eq_refl))
             (VStr "bob") 0%nat); reflexivity.
Defined.

Lemma updateTypingStatus_identifies_witness :
  updateTypingStatus Backend.quiet Backend.room now_typing Backend.s0
  = do_request Backend.quiet (typing_request Backend.room (VBool true)) Backend.s0
  /\ prop (field (typing_request
                    (VObj (set_field known_by_url "id" (VStr "room-9")))
                    (VBool true)) "body") "conversationId"
     = VStr "room-9"
  /\ updateTypingStatus Backend.quiet (VObj unknown) now_typing Backend.s0
     = (Err identify_error, Backend.s0).
Proof.
  split; [| split].
  - apply (proj1 (updateTypingStatus_identifies Backend.quiet
                    (own_props Backend.room) now_typing (VBool true) Backend.s0
                    eq_refl)).
    reflexivity.
  - apply (proj1 (proj2 (updateTypingStatus_identifies Backend.quiet known_by_url
                           now_typing (VBool true) Backend.s0 eq_refl))
             "https://conv.example.com/api/v1/conversations/room-9"%string);
      [reflexivity | reflexivity | discriminate].
  - apply (proj2 (proj2 (updateTypingStatus_identifies Backend.quiet unknown
                           now_typing (VBool true) Backend.s0 eq_refl)));
      reflexivity.
Defined.

Lemma create_participants_witness :
  create Backend.quiet file_sharing (VObj unknown) (VObj []) Backend.s0
  = (Err participants_error, Backend.s0)
  /\ (let unique := Lodash.uniq [VStr "alice"; VStr "bob"; VStr "alice"; VStr "carol"] in
      create Backend.quiet file_sharing (VObj three_parties) (VObj []) Backend.s0
      = create_with Backend.quiet file_sharing
          (VObj (set_field three_parties "participants" (VArr unique)))
          (VObj []) unique after_resolution
      /\ log after_resolution
         = (log Backend.s0
            ++ map (fun p => AsUUID p (VObj [("create", VBool true)]))
                 [VStr "bob"; VStr "alice"; VStr "carol"])%list
      /\ hd_error unique = Some (VStr "alice")
      /\ NoDup unique
      /\ (forall id, In id [VStr "bob"; VStr "alice"; VStr "carol"] -> In id unique)
      /\ (forall other, nth_error unique 1 = Some other -> other <> VStr "alice")).
Proof.
  split.
  - apply (proj1 (create_participants Backend.quiet file_sharing unknown [] [] []
                    VUndef Backend.s0 Backend.s0)).
    left. reflexivity.
  - apply (proj2 (create_participants Backend.quiet file_sharing three_parties []
                    [VStr "bob"; VStr "alice"; VStr "carol"]
                    [VStr "bob"; VStr "alice"; VStr "carol"]
                    (VStr "alice") Backend.s0 after_resolution)).
    + reflexivity.
    + discriminate.
    + vm_compute. reflexivity.
    + reflexivity.
    + repeat constructor.
Defined.

Lemma createGrouped_payload_witness :
  exists payload,
    createGrouped Backend.quiet two_parties Backend.s0
    = create_ Backend.quiet payload Backend.s0
    /\ map (fun a => prop a "verb") (payload_activities payload)
       = creation_verbs 2 (VStr "hello")
    /\ map (fun a => prop (prop a "object") "id")
         (firstn 2 (tl (payload_activities payload)))
       = [VStr "alice"; VStr "bob"]
    /\ prop (field payload "kmsMessage") "userIds" = VArr [VStr "alice"; VStr "bob"]
    /\ has_key payload "displayName" = false
    /\ has_key payload "tags" = false.
Proof.
  apply (createGrouped_payload Backend.quiet two_parties
           [VStr "alice"; VStr "bob"] Backend.s0).
  reflexivity.
Defined.

Lemma one_on_one_failed_post_witness :
  (exists payload s2,
      field payload "tags" = VArr [VStr "ONE_ON_ONE"]
      /\ maybeCreateOneOnOneThenPost (read_only Backend.not_found) two_parties
           VUndef Backend.s0
         = create_ (read_only Backend.not_found) payload s2)
  /\ (exists s2,
         maybeCreateOneOnOneThenPost (read_only Backend.unavailable) two_parties
           VUndef Backend.s0
         = (Err Backend.unavailable, s2)).
Proof.
  split.
  - destruct (proj1 (one_on_one_failed_post (read_only Backend.not_found)
                       two_parties VUndef (VStr "alice") (VStr "bob") Backend.room
                       Backend.not_found Backend.s0 after_lookup
                       (snd (post (read_only Backend.not_found) Backend.room
                               (VObj [("displayName", VStr "hello")]) Absent
                               after_lookup))
                       eq_refl
                       ltac:(vm_compute; reflexivity)
                       eq_refl
                       ltac:(vm_compute; reflexivity))
                eq_refl)
      as (payload & Htags & Hrun & _).
    exists payload. eexists. split; [exact Htags | exact Hrun].
  - eexists.
    apply (proj2 (one_on_one_failed_post (read_only Backend.unavailable)
                    two_parties VUndef (VStr "alice") (VStr "bob") Backend.room
                    Backend.unavailable Backend.s0 after_lookup
                    (snd (post (read_only Backend.unavailable) Backend.room
                            (VObj [("displayName", VStr "hello")]) Absent
                            after_lookup))
                    eq_refl
                    ltac:(vm_compute; reflexivity)
                    eq_refl
                    ltac:(vm_compute; reflexivity))).
    discriminate.
Defined.

Lemma normalizeTeam_collections_witness :
  exists team' s',
    Team.normalizeTeam marking keyed_team Backend.s0 = (Ok team', s')
    /\ (forall k, k = "conversations"%string \/ k = "teamMembers"%string ->
          exists l, prop (field team' k) "items" = VArr l
                    /\ List.length l = List.length (items_of keyed_team k))
    /\ log s'
       = (log Backend.s0
          ++ map (item_call "normalizeObject" []) (items_of keyed_team "conversations")
          ++ map (item_call "normalizeObject" []) (items_of keyed_team "teamMembers"))%list.
Proof.
  eexists. eexists.
  split; [vm_compute; reflexivity |].
  apply (normalizeTeam_collections marking keyed_team).
  - reflexivity.
  - reflexivity.
  - vm_compute. reflexivity.
Defined.

Lemma decryptTeam_calls_witness :
  (exists thrown,
      Team.decryptTeam sealing marking VUndef new_team Backend.s0
      = (Err thrown, Backend.s0))
  /\ (exists rest t0 t1,
         log (snd (Team.decryptTeam sealing marking second_key keyed_team Backend.s0))
         = (log Backend.s0
            ++ map (item_call "decryptObject" [VNull]) [Backend.room; fresh_room]
            ++ rest)%list
         /\ rest = [Transform "decryptPropDisplayName"
                      [VStr "kms://kms.example.com/keys/1"; VObj t0];
                    Transform "decryptTextProp"
                      [VStr "summary"; VStr "kms://kms.example.com/keys/1";
                       VObj t1]]).
Proof.
  split.
  - apply (proj1 (decryptTeam_calls sealing marking VUndef new_team Backend.s0)).
    reflexivity.
  - destruct (proj2 (decryptTeam_calls sealing marking second_key keyed_team
                       Backend.s0)
                [Backend.room; fresh_room] eq_refl)
      as (rest & Hlog & _ & Hkey).
    destruct (Hkey eq_refl) as (t0 & t1 & Hrest).
    exists rest, t0, t1. split; [exact Hlog | exact Hrest].
Defined.

Lemma kms_refusal_is_the_outcome_witness :
  updateKey_ locked fresh_room VUndef Absent Backend.s0
  = (Err Backend.unavailable, after_mint)
  /\ Team.encryptTeam locked_ctx VUndef new_team Backend.s0
     = (Err Backend.unavailable, after_mint).
Proof.
  destruct (kms_refusal_is_the_outcome locked locked_ctx VUndef Backend.unavailable
              Backend.s0 0%nat eq_refl)
    as [Hupdate Hencrypt].
  split.
  - apply Hupdate. reflexivity.
  - apply Hencrypt; [discriminate | reflexivity].
Defined.

Lemma encryptTeam_with_key_asks_no_kms_witness :
  exists calls,
    log (snd (Team.encryptTeam sealing first_key new_team Backend.s0))
    = (log Backend.s0 ++ calls)%list
    /\ forallb is_transform calls = true
    /\ (List.length calls = 0 \/ List.length calls = 2)%nat.
Proof.
  apply (encryptTeam_with_key_asks_no_kms sealing first_key new_team Backend.s0).
  reflexivity.
Defined.

Lemma prepareConversation_allow_list_witness :
  field (prepareConversation fresh_room) "participants" = VUndef
  /\ field (prepareConversation fresh_room) "id" = VStr "room-2"
  /\ In "id"%string conversation_fields.
Proof.
  split; [| split].
  - apply (proj1 (prepareConversation_allow_list (own_props fresh_room)
                    "participants")).
  - apply (proj1 (prepareConversation_allow_list (own_props fresh_room) "id")).
  - apply (proj2 (prepareConversation_allow_list (own_props fresh_room) "id")).
    reflexivity.
Defined.

Lemma describe_file_fills_gaps_witness :
  exists f',
    describe_file picture (VObj unnamed_file) = Ok (VObj f')
    /\ field f' "name" = VStr "a.png"
    /\ field f' "type" = VStr "image/jpeg"
    /\ field f' "size" = VNum 3.
Proof.
  destruct (describe_file_fills_gaps picture unnamed_file)
    as (f' & Hrun & Hname & Htype & Hrest).
  exists f'. split; [exact Hrun | split; [exact Hname | split; [exact Htype |]]].
  apply (Hrest "size"%string); discriminate.
Defined.

(* ================================================================== *)
(** ** The files of a new conversation *)

Section SharedFiles.

Context {W : Type} (spark : Spark W) (sharing : Sharing W).

(** X20. The last step of [create]: without files the conversation is
    returned as it was created, and nothing is called; with files they
    are shared to it and, when the share resolves, the conversation is
    returned with the shared activity appended to the items of its
    activities and with nothing else changed. *)
Theorem create_appends_shared_files
    (params c c1 a : value) (l : list value) (s s1 : St W) :
  (truthy (prop params "files") = false ->
   share_files spark sharing params c s = (Ok c, s))
  /\ (truthy (prop params "files") = true ->
      share spark sharing c (Described (prop params "files")) s
      = (Ok (a, c1), s1) ->
      prop (prop c1 "activities") "items" = VArr l ->
      exists c2,
        share_files spark sharing params c s = (Ok c2, s1)
        /\ prop (prop c2 "activities") "items" = VArr (l ++ [a])
        /\ (forall k, k <> "activities"%string -> prop c2 k = prop c1 k)).
Proof.
  unfold share_files. split.
  - now intros ->.
  - intros -> Hshare Hitems. cbn [negb]. unfold bind at 1. rewrite Hshare.
    destruct c1 as [| | | | | |o1]; try discriminate Hitems.
    cbn [prop] in Hitems.
    destruct (field o1 "activities") as [| | | | | |acts] eqn:Hacts;
      try discriminate Hitems.
    cbn [prop] in Hitems.
    unfold bind, lift, ret. cbn [member nullish prop]. rewrite Hacts.
    cbn [member nullish prop]. rewrite Hitems. cbn [push set_prop].
    eexists. split; [reflexivity | split].
    + cbn [prop]. rewrite field_set_field. cbn [prop].
      apply field_set_field.
    + intros k Hk. cbn [prop]. now apply field_set_field_other.
Qed.

End SharedFiles.

Lemma create_appends_shared_files_witness :
  share_files Backend.quiet file_sharing (VObj three_parties) Backend.room Backend.s0
  = (Ok Backend.room, Backend.s0)
  /\ (exists c2 a s1,
         share_files Backend.quiet file_sharing with_file Backend.room Backend.s0
         = (Ok c2, s1)
         /\ prop (prop c2 "activities") "items" = VArr ([] ++ [a])
         /\ prop c2 "id" = VStr "room-1").
Proof.
  split.
  - apply (proj1 (create_appends_shared_files Backend.quiet file_sharing
                    (VObj three_parties) Backend.room VUndef VUndef []
                    Backend.s0 Backend.s0)).
    reflexivity.
  - pose (r := share Backend.quiet file_sharing Backend.room
                 (Described (VArr [VStr "notes.txt"])) Backend.s0).
    destruct (proj2 (create_appends_shared_files Backend.quiet file_sharing
                       with_file Backend.room Backend.room
                       (match fst r with Ok (a, _) => a | Err _ => VUndef end)
                       [] Backend.s0 (snd r))
                eq_refl ltac:(vm_compute; reflexivity) eq_refl)
      as (c2 & Hrun & Hitems & Hrest).
    exists c2. eexists. exists (snd r).
    split; [exact Hrun | split; [exact Hitems |]].
    apply (Hrest "id"%string). discriminate.
Defined.

End Properties.

